(** * System Bridge backend: session protocol, dispatcher and update scheduler

    A shallow embedding of
      - [systembridgebackend/server/websocket.py]  (class [WebSocketHandler]),
      - [systembridgebackend/modules/__init__.py]  ([MODULES], class [Update]),
      - [systembridgebackend/data.py]              (the update threads),
    and the properties of the protocol that the design document states.

    Conventions of the embedding.
      - Python values that travel on the wire are [pyval]s; a JSON object is
        an association list.
      - Every call that leaves the module (websocket, keyboard, media, power,
        settings, database, file system, host callbacks) is a [call]; what it
        returns, and whether it raises, is given by an oracle [ext] over an
        abstract external state.  Each call is recorded in a trace.
      - Coroutines of the session are functions in the monad [M]: they
        thread the session's world, append to the trace and either return a
        value or raise a Python exception.  Logging is not modelled. *)

From Stdlib Require Import String ZArith List Bool Lia.
From stdpp Require Import base strings gmap list.

Open Scope string_scope.
Open Scope list_scope.

(** ** Python values and exceptions *)

#[local] Set Warnings "-register-all".

Inductive pyval : Type :=
| PNone
| PBool (b : bool)
| PInt (z : Z)
| PStr (s : string)
| PList (l : list pyval)
| PDict (d : list (string * pyval)).

(** A [dict] with string keys, as [receive_json] yields it. *)
Definition pydict : Type := list (string * pyval).

(** [key in data] *)
Definition dict_has (key : string) (data : pydict) : bool :=
  existsb (fun kv => String.eqb (fst kv) key) data.

(** [data.get(key)] *)
Fixpoint dict_get (key : string) (data : pydict) : option pyval :=
  match data with
  | [] => None
  | (k, v) :: rest => if String.eqb k key then Some v else dict_get key rest
  end.

(** The exception classes the handler distinguishes.  [JSONDecodeError]
    derives from [ValueError]; [CancelledError] stands for the classes that
    derive from [BaseException] only (task cancellation, [SystemExit],
    [KeyboardInterrupt]), which [except Exception] does not catch. *)
Inductive exn_class : Type :=
| JSONDecodeError
| ValueError
| TypeError
| ConnectionError
| WebSocketDisconnect
| OtherException
| CancelledError.

Record exn : Type := { exn_cls : exn_class; exn_msg : string }.

(** [isinstance(error, JSONDecodeError)] *)
Definition is_JSONDecodeError (e : exn) : bool :=
  match exn_cls e with JSONDecodeError => true | _ => false end.

(** [isinstance(error, ValueError)] *)
Definition is_ValueError (e : exn) : bool :=
  match exn_cls e with JSONDecodeError | ValueError => true | _ => false end.

(** [isinstance(error, (ConnectionError, WebSocketDisconnect))] *)
Definition is_connection_closed (e : exn) : bool :=
  match exn_cls e with ConnectionError | WebSocketDisconnect => true | _ => false end.

(** [isinstance(error, Exception)] *)
Definition is_Exception (e : exn) : bool :=
  match exn_cls e with CancelledError => false | _ => true end.

(** [str(error)] *)
Definition str (e : exn) : string := exn_msg e.

Inductive result (A : Type) : Type :=
| Ok (a : A)
| Raise (e : exn).
Arguments Ok {A} a.
Arguments Raise {A} e.

(** [bool(value)] *)
Definition py_bool (v : pyval) : bool :=
  match v with
  | PNone => false
  | PBool b => b
  | PInt z => negb (Z.eqb z 0)
  | PStr s => negb (String.eqb s "")
  | PList l => match l with [] => false | _ => true end
  | PDict d => match d with [] => false | _ => true end
  end.

(** [int(value)]; [int_of_str] is the builtin's reading of a [str]. *)
Definition py_int (int_of_str : string -> option Z) (v : pyval) : result Z :=
  match v with
  | PBool b => Ok (if b then 1%Z else 0%Z)
  | PInt z => Ok z
  | PStr s =>
      match int_of_str s with
      | Some z => Ok z
      | None =>
          Raise {| exn_cls := ValueError;
                   exn_msg := "invalid literal for int() with base 10: '" ++ s ++ "'" |}
      end
  | PNone | PList _ | PDict _ =>
      Raise {| exn_cls := TypeError;
               exn_msg := "int() argument must be a string, a bytes-like object or a real number" |}
  end.

(** ** Vocabulary of the wire protocol

    The constants come from [systembridgeshared.const], which is outside the
    module.  Tags that the handler only writes (response types, error
    subtypes, field names) are kept symbolic under the names the source
    uses; tags it compares an incoming string with are strings. *)

Inductive response_type : Type :=
| TYPE_APPLICATION_UPDATING
| TYPE_DATA_GET
| TYPE_DATA_LISTENER_REGISTERED
| TYPE_DATA_LISTENER_UNREGISTERED
| TYPE_DATA_UPDATE
| TYPE_DIRECTORIES
| TYPE_ERROR
| TYPE_FILE
| TYPE_FILES
| TYPE_GET_REMOTE_BRIDGES_RESULT
| TYPE_KEYBOARD_KEY_PRESSED
| TYPE_KEYBOARD_TEXT_SENT
| TYPE_NOTIFICATION_SENT
| TYPE_OPENED
| TYPE_POWER_HIBERNATING
| TYPE_POWER_LOCKING
| TYPE_POWER_LOGGINGOUT
| TYPE_POWER_RESTARTING
| TYPE_POWER_SHUTTINGDOWN
| TYPE_POWER_SLEEPING
| TYPE_SETTING_RESULT
| TYPE_SETTING_UPDATED
| TYPE_SETTINGS_RESULT
| TYPE_UPDATE_REMOTE_BRIDGE_RESULT.

Inductive subtype : Type :=
| SUBTYPE_BAD_API_KEY
| SUBTYPE_BAD_DIRECTORY
| SUBTYPE_BAD_FILE
| SUBTYPE_BAD_JSON
| SUBTYPE_BAD_PATH
| SUBTYPE_BAD_REQUEST
| SUBTYPE_INVALID_ACTION
| SUBTYPE_LISTENER_ALREADY_REGISTERED
| SUBTYPE_LISTENER_NOT_REGISTERED
| SUBTYPE_MISSING_ACTION
| SUBTYPE_MISSING_KEY
| SUBTYPE_MISSING_MODULES
| SUBTYPE_MISSING_PATH_URL
| SUBTYPE_MISSING_TEXT
| SUBTYPE_MISSING_TITLE
| SUBTYPE_MISSING_VALUE
| SUBTYPE_UNKNOWN_EVENT.

#[global] Instance response_type_eq_dec : EqDecision response_type.
Proof. solve_decision. Defined.

#[global] Instance subtype_eq_dec : EqDecision subtype.
Proof. solve_decision. Defined.

(** Keys of the event-specific fields of a response; [Key s] is a key the
    source writes as a string literal. *)
Inductive field : Type :=
| EVENT_BASE
| EVENT_DATA
| EVENT_DIRECTORIES
| EVENT_EVENT
| EVENT_FILE
| EVENT_FILES
| EVENT_MODULE
| EVENT_MODULES
| EVENT_PATH
| EVENT_SETTING
| EVENT_URL
| EVENT_VALUE
| EVENT_VERSIONS
| Key (name : string).

(** Modelled from the spec: the values of the request tags of
    [systembridgeshared.const] are missing; they are the event names of the
    dispatcher table of the design document. *)
Definition TYPE_APPLICATION_UPDATE : string := "application-update".
Definition TYPE_EXIT_APPLICATION : string := "exit-application".
Definition TYPE_KEYBOARD_KEYPRESS : string := "keyboard-keypress".
Definition TYPE_KEYBOARD_TEXT : string := "keyboard-text".
Definition TYPE_MEDIA_CONTROL : string := "media-control".
Definition TYPE_NOTIFICATION : string := "notification".
Definition TYPE_OPEN : string := "open".
Definition TYPE_REGISTER_DATA_LISTENER : string := "register-data-listener".
Definition TYPE_UNREGISTER_DATA_LISTENER : string := "unregister-data-listener".
Definition TYPE_GET_DATA : string := "get-data".
Definition TYPE_GET_DIRECTORIES : string := "get-directories".
Definition TYPE_GET_FILES : string := "get-files".
Definition TYPE_GET_FILE : string := "get-file".
Definition TYPE_GET_SETTINGS : string := "get-settings".
Definition TYPE_GET_SETTING : string := "get-setting".
Definition TYPE_GET_REMOTE_BRIDGES : string := "get-remote-bridges".
Definition TYPE_UPDATE_REMOTE_BRIDGE : string := "update-remote-bridge".
Definition TYPE_UPDATE_SETTING : string := "update-setting".
Definition TYPE_POWER_SLEEP : string := "power-sleep".
Definition TYPE_POWER_HIBERNATE : string := "power-hibernate".
Definition TYPE_POWER_RESTART : string := "power-restart".
Definition TYPE_POWER_SHUTDOWN : string := "power-shutdown".
Definition TYPE_POWER_LOCK : string := "power-lock".
Definition TYPE_POWER_LOGOUT : string := "power-logout".

(** [MODULES] of [modules/__init__.py]. *)
Definition MODULES : list string :=
  [ "battery"; "cpu"; "disk"; "display"; "gpu"; "media"; "memory";
    "network"; "processes"; "sensors"; "system" ].

(** [module in MODULES] *)
Definition in_MODULES (module : string) : bool :=
  existsb (String.eqb module) MODULES.

(** ** Responses *)

Record Response : Type := {
  r_id : option string;
  r_type : response_type;
  r_subtype : option subtype;
  r_message : option string;
  r_fields : list (field * pyval)
}.

(** [Response(id=.., type=TYPE_ERROR, subtype=.., message=.., ...)] *)
Definition error_response (id : option string) (sub : subtype) (message : string)
    (fields : list (field * pyval)) : Response :=
  {| r_id := id; r_type := TYPE_ERROR; r_subtype := Some sub;
     r_message := Some message; r_fields := fields |}.

(** [Response(id=.., type=.., message=.., ...)] *)
Definition reply (id : option string) (ty : response_type) (message : option string)
    (fields : list (field * pyval)) : Response :=
  {| r_id := id; r_type := ty; r_subtype := None;
     r_message := message; r_fields := fields |}.

Definition is_error (r : Response) : bool :=
  match r_type r with TYPE_ERROR => true | _ => false end.

Definition strs (l : list string) : pyval := PList (map PStr l).

(** ** Request models

    The models of [systembridgemodels] are pydantic classes outside the
    module; a record keeps the attributes the handler reads.  An attribute
    the handler tests against [None] is an [option]. *)

Record Request : Type := {
  req_id : option string;
  req_event : string;
  req_api_key : option string
}.

Record UpdateModel : Type := { um_version : pyval }.
Record KeyboardKey : Type := { kk_key : option string }.
Record KeyboardText : Type := { kt_text : option string }.

(** The members of [systembridgemodels.media_control.Action] the handler
    names. *)
Inductive MediaAction : Type :=
| play | pause | stop | previous | next | seek | rewind | fastforward
| shuffle | repeat | mute | volumedown | volumeup.

(** The [action] attribute of a validated [MediaControl]: a member of the
    enumeration, or a value for which [action not in MediaAction] holds. *)
Inductive action_value : Type :=
| Member (a : MediaAction)
| NotMember (raw : string).

Record MediaControl : Type := {
  mc_action : option action_value;
  mc_value : option pyval
}.

(** [title] is the attribute the handler tests; [n_json] is [model.json()]. *)
Record Notification : Type := { n_title : option string; n_json : string }.
Record OpenPath : Type := { op_path : string }.
Record OpenUrl : Type := { ou_url : string }.
Record RegisterDataListener : Type := { rdl_modules : option (list string) }.
Record GetData : Type := { gd_modules : option (list string) }.
Record MediaGetFiles : Type := { mgf_base : string; mgf_path : option string }.
Record MediaGetFile : Type := { mg_base : string; mg_path : option string }.
Record GetSetting : Type := { gs_setting : string }.
Record UpdateSetting : Type := { us_setting : string; us_value : pyval }.
Record RemoteBridge : Type := { rb_model : pyval }.

(** ** Calls that leave the module *)

Inductive call : Type :=
| receive_json
| send_json (message : Response)
| Update_update (version : pyval)
| callback_exit_application
| keyboard_keypress (key : string)
| keyboard_text (text : string)
| control_play
| control_pause
| control_stop
| control_previous
| control_next
| control_seek (position : Z)
| control_rewind
| control_fastforward
| control_shuffle (value : bool)
| control_repeat (value : Z)
| control_mute
| control_volume_down
| control_volume_up
| callback_open_gui (command : string) (data : string)
| open_path (path : string)
| open_url (url : string)
| add_listener (listener_id : string) (modules : list string)
| remove_listener (listener_id : string)
| get_data_dict (table : option string)
| get_directories
| os_path_exists (path : string)
| os_path_isdir (path : string)
| os_path_isfile (path : string)
| get_files (base : string) (path : string)
| get_file (root : string) (path : string)
| settings_get_all
| settings_get (setting : string)
| settings_set (setting : string) (value : pyval)
| settings_get_secret
| get_remote_bridges
| update_remote_bridge (model : RemoteBridge)
| autostart_enable
| autostart_disable
| sleep
| hibernate
| restart
| shutdown
| lock
| logout.

(** What a call returns.  [get_directories] yields the [(key, path)] pairs
    of its items.  The websocket's receive and the Listener Registry are not
    answered by the oracle (see [inbound] and [Listeners]). *)
Definition ret_ty (c : call) : Type :=
  match c with
  | get_directories => list (string * string)
  | os_path_exists _ | os_path_isdir _ | os_path_isfile _ => bool
  | add_listener _ _ | remove_listener _ => bool
  | settings_get_secret => string
  | receive_json | get_data_dict _ | Update_update _ | get_files _ _ | get_file _ _
  | settings_get_all | settings_get _ | get_remote_bridges => pyval
  | update_remote_bridge _ => pyval
  | _ => unit
  end.

(** The value of [get_directories(settings)] as a Python value. *)
Definition directories_value (directories : list (string * string)) : pyval :=
  PList (map (fun item => PDict [("key", PStr (fst item)); ("path", PStr (snd item))])
             directories).

(** The Python value a call returned. *)
Definition py_of (c : call) : ret_ty c -> pyval :=
  match c return ret_ty c -> pyval with
  | get_directories => directories_value
  | os_path_exists _ | os_path_isdir _ | os_path_isfile _ => PBool
  | add_listener _ _ | remove_listener _ => PBool
  | settings_get_secret => PStr
  | receive_json | get_data_dict _ | Update_update _ | get_files _ _ | get_file _ _
  | settings_get_all | settings_get _ | get_remote_bridges => fun v => v
  | update_remote_bridge _ => fun v => v
  | _ => fun _ => PNone
  end.

(** One entry of the trace: the call, and the value it returned or the
    exception it raised. *)
Record event : Type := Called { ev_call : call; ev_outcome : result pyval }.

Definition trace : Type := list event.

(** The environment of a handler: the oracle of the external calls over its
    own state [X], the validation of each request model (the model built from the
    fields of [data], or the exception its constructor raises), and the constants and builtins the module
    imports. *)
Record Env (X : Type) : Type := {
  ext : forall c : call, X -> X * result (ret_ty c);
  Request_ : pydict -> result Request;
  UpdateModel_ : pydict -> result UpdateModel;
  KeyboardKey_ : pydict -> result KeyboardKey;
  KeyboardText_ : pydict -> result KeyboardText;
  MediaControl_ : pydict -> result MediaControl;
  Notification_ : pydict -> result Notification;
  OpenPath_ : pydict -> result OpenPath;
  OpenUrl_ : pydict -> result OpenUrl;
  RegisterDataListener_ : pydict -> result RegisterDataListener;
  GetData_ : pydict -> result GetData;
  MediaGetFiles_ : pydict -> result MediaGetFiles;
  MediaGetFile_ : pydict -> result MediaGetFile;
  GetSetting_ : pydict -> result GetSetting;
  RemoteBridge_ : pydict -> result RemoteBridge;
  UpdateSetting_ : pydict -> result UpdateSetting;
  TABLE_MAP_get : string -> option string;
  SETTING_AUTOSTART : string;
  int_of_str : string -> option Z;
  os_path_join : string -> string -> string
}.

Arguments ext {X} _ _ _.
Arguments Request_ {X} _ _.
Arguments UpdateModel_ {X} _ _.
Arguments KeyboardKey_ {X} _ _.
Arguments KeyboardText_ {X} _ _.
Arguments MediaControl_ {X} _ _.
Arguments Notification_ {X} _ _.
Arguments OpenPath_ {X} _ _.
Arguments OpenUrl_ {X} _ _.
Arguments RegisterDataListener_ {X} _ _.
Arguments GetData_ {X} _ _.
Arguments MediaGetFiles_ {X} _ _.
Arguments MediaGetFile_ {X} _ _.
Arguments GetSetting_ {X} _ _.
Arguments RemoteBridge_ {X} _ _.
Arguments UpdateSetting_ {X} _ _.
Arguments TABLE_MAP_get {X} _ _.
Arguments SETTING_AUTOSTART {X} _.
Arguments int_of_str {X} _ _.
Arguments os_path_join {X} _ _ _.

(** ** The Listener Registry *)

Module Listeners.

(** Modelled from the spec: [modules/listeners.py] (class [Listeners]) is
    missing.  The registry maps a connection id to the categories it
    subscribed to; the callback of a registration is the [_data_changed]
    of the session that owns the id, so the id stands for it. *)
Abbreviation t := (gmap string (list string)).

(** Modelled from the spec: [add_listener] of the missing [Listeners].
    If the id already holds a registration the result is
    [already_registered = true] and nothing changes; otherwise the
    registration is stored and the result is [false]. *)
Definition add (listener_id : string) (modules : list string) (reg : t) : t * bool :=
  match reg !! listener_id with
  | Some _ => (reg, true)
  | None => (<[listener_id := modules]> reg, false)
  end.

(** Modelled from the spec: [remove_listener] of the missing [Listeners].
    Returns whether the id was registered; safe on an id that is not. *)
Definition remove (listener_id : string) (reg : t) : t * bool :=
  match reg !! listener_id with
  | Some _ => (delete listener_id reg, true)
  | None => (reg, false)
  end.

(** Modelled from the spec: the registrations [notify(category, data)] of
    the missing [Listeners] delivers to: every current registration whose
    subscribed set contains the category. *)
Definition notified (category : string) (reg : t) : list string :=
  map fst (filter (fun kv => existsb (String.eqb category) (snd kv) = true)
                  (map_to_list reg)).

End Listeners.

(** ** The session's world and its monad *)

Record World (X : Type) : Type := {
  w_active : bool;                 (* self._active *)
  w_listeners : Listeners.t;       (* the registry self._listeners refers to *)
  w_ext : X                        (* state of everything behind the calls *)
}.
Arguments w_active {X} _.
Arguments w_listeners {X} _.
Arguments w_ext {X} _.

Record Outcome (X A : Type) : Type := {
  o_world : World X;
  o_trace : trace;
  o_result : result A
}.
Arguments o_world {X A} _.
Arguments o_trace {X A} _.
Arguments o_result {X A} _.

Definition M (X A : Type) : Type := World X -> Outcome X A.

Definition outcome {A : Type} (f : A -> pyval) (r : result A) : result pyval :=
  match r with Ok a => Ok (f a) | Raise e => Raise e end.

Section Monad.
Context {X : Type}.

Definition ret {A : Type} (a : A) : M X A :=
  fun w => {| o_world := w; o_trace := []; o_result := Ok a |}.

Definition raise {A : Type} (e : exn) : M X A :=
  fun w => {| o_world := w; o_trace := []; o_result := Raise e |}.

Definition bind {A B : Type} (m : M X A) (f : A -> M X B) : M X B :=
  fun w =>
    match m w with
    | {| o_world := w1; o_trace := t1; o_result := Ok a |} =>
        match f a w1 with
        | {| o_world := w2; o_trace := t2; o_result := r |} =>
            {| o_world := w2; o_trace := t1 ++ t2; o_result := r |}
        end
    | {| o_world := w1; o_trace := t1; o_result := Raise e |} =>
        {| o_world := w1; o_trace := t1; o_result := Raise e |}
    end.

(** [try: m  except <classes> as error: handler error]; [catches] tells
    whether the clause matches the exception. *)
Definition try_except {A : Type} (m : M X A) (catches : exn -> bool)
    (handler : exn -> M X A) : M X A :=
  fun w =>
    match m w with
    | {| o_world := w1; o_trace := t1; o_result := Raise e |} =>
        if catches e then
          match handler e w1 with
          | {| o_world := w2; o_trace := t2; o_result := r |} =>
              {| o_world := w2; o_trace := t1 ++ t2; o_result := r |}
          end
        else {| o_world := w1; o_trace := t1; o_result := Raise e |}
    | o => o
    end.

(** [try: m  finally: cleanup] *)
Definition try_finally {A : Type} (m : M X A) (cleanup : M X unit) : M X A :=
  fun w =>
    match m w with
    | {| o_world := w1; o_trace := t1; o_result := r |} =>
        match cleanup w1 with
        | {| o_world := w2; o_trace := t2; o_result := Ok _ |} =>
            {| o_world := w2; o_trace := t1 ++ t2; o_result := r |}
        | {| o_world := w2; o_trace := t2; o_result := Raise e |} =>
            {| o_world := w2; o_trace := t1 ++ t2; o_result := Raise e |}
        end
    end.

(** A value or exception computed without a call. *)
Definition lift {A : Type} (r : result A) : M X A :=
  match r with Ok a => ret a | Raise e => raise e end.

End Monad.

Declare Scope py_scope.
Delimit Scope py_scope with py.
Notation "'do' x <- m ; k" := (bind m (fun x => k))
  (at level 10, x name, m at level 100, k at level 200) : py_scope.
Notation "m ;; k" := (bind m (fun _ => k))
  (at level 100, k at level 200, right associativity) : py_scope.
Open Scope py_scope.

Section Session.
Context {X : Type} (E : Env X).

(** An external call: the oracle answers it from the external state, and
    the call is recorded. *)
Definition perform (c : call) : M X (ret_ty c) :=
  fun w =>
    match ext E c (w_ext w) with
    | (x', r) =>
        {| o_world := {| w_active := w_active w; w_listeners := w_listeners w; w_ext := x' |};
           o_trace := [Called c (outcome (py_of c) r)];
           o_result := r |}
    end.

(** [await self._listeners.add_listener(listener_id, self._data_changed, modules)] *)
Definition listeners_add_listener (listener_id : string) (modules : list string) : M X bool :=
  fun w =>
    match Listeners.add listener_id modules (w_listeners w) with
    | (reg, already) =>
        {| o_world := {| w_active := w_active w; w_listeners := reg; w_ext := w_ext w |};
           o_trace := [Called (add_listener listener_id modules) (Ok (PBool already))];
           o_result := Ok already |}
    end.

(** [self._listeners.remove_listener(listener_id)] *)
Definition listeners_remove_listener (listener_id : string) : M X bool :=
  fun w =>
    match Listeners.remove listener_id (w_listeners w) with
    | (reg, existed) =>
        {| o_world := {| w_active := w_active w; w_listeners := reg; w_ext := w_ext w |};
           o_trace := [Called (remove_listener listener_id) (Ok (PBool existed))];
           o_result := Ok existed |}
    end.

(** [WebSocketHandler._send_response] *)
Definition _send_response (response : Response) : M X unit :=
  fun w =>
    if negb (w_active w) then ret tt w
    else perform (send_json response) w.

(** [WebSocketHandler._data_changed] *)
Definition _data_changed (module : string) (data : pyval) : M X unit :=
  if negb (in_MODULES module) then ret tt
  else
    _send_response
      (reply None TYPE_DATA_UPDATE (Some "Data changed")
         [(EVENT_MODULE, PStr module); (EVENT_DATA, data)]).

(** ** The dispatcher: [WebSocketHandler._handle_event]

    Each branch of the source's [if]/[elif] chain is a definition of its
    own; [_handle_event] below is the chain. *)

(** The opening of a branch that validates its model:
    [try: model = Model(...)  except ValueError as error:] send
    [bad_request] and return. *)
Definition validated {A : Type} (model : result A) (request : Request)
    (k : A -> M X unit) : M X unit :=
  match model with
  | Ok m => k m
  | Raise error =>
      if is_ValueError error then
        _send_response
          (error_response (req_id request) SUBTYPE_BAD_REQUEST
             ("Invalid request: " ++ str error) [])
      else raise error
  end.

(** [request.event == TYPE_APPLICATION_UPDATE] *)
Definition on_application_update (data : pydict) (request : Request) : M X unit :=
  validated (UpdateModel_ E data) request (fun model =>
    do versions <- perform (Update_update (um_version model));
    _send_response
      (reply (req_id request) TYPE_APPLICATION_UPDATING (Some "Updating application")
         [(EVENT_VERSIONS, versions)])).

(** [request.event == TYPE_EXIT_APPLICATION] *)
Definition on_exit_application : M X unit :=
  perform callback_exit_application.

(** [request.event == TYPE_KEYBOARD_KEYPRESS] *)
Definition on_keyboard_keypress (data : pydict) (request : Request) : M X unit :=
  validated (KeyboardKey_ E data) request (fun model =>
    match kk_key model with
    | None =>
        _send_response
          (error_response (req_id request) SUBTYPE_MISSING_KEY "No key provided" [])
    | Some key =>
        do pressed <-
          try_except (perform (keyboard_keypress key) ;; ret true) is_ValueError
            (fun err =>
               _send_response
                 (error_response (req_id request) SUBTYPE_MISSING_KEY "Invalid key" []) ;;
               ret false);
        if pressed then
          _send_response
            (reply (req_id request) TYPE_KEYBOARD_KEY_PRESSED (Some "Key pressed")
               [(Key "key", PStr key)])
        else ret tt
    end).

(** [request.event == TYPE_KEYBOARD_TEXT] *)
Definition on_keyboard_text (data : pydict) (request : Request) : M X unit :=
  validated (KeyboardText_ E data) request (fun model =>
    match kt_text model with
    | None =>
        _send_response
          (error_response (req_id request) SUBTYPE_MISSING_TEXT "No text provided" [])
    | Some text =>
        perform (keyboard_text text) ;;
        _send_response
          (reply (req_id request) TYPE_KEYBOARD_TEXT_SENT (Some "Key pressed")
             [(Key "text", PStr text)])
    end).

(** The [missing_value] reply of the seek, shuffle and repeat actions. *)
Definition no_value (request : Request) : M X unit :=
  _send_response
    (error_response (req_id request) SUBTYPE_MISSING_VALUE "No value provided" []).

(** [request.event == TYPE_MEDIA_CONTROL] *)
Definition on_media_control (data : pydict) (request : Request) : M X unit :=
  validated (MediaControl_ E data) request (fun model =>
    match mc_action model with
    | None =>
        _send_response
          (error_response (req_id request) SUBTYPE_MISSING_ACTION "No action provided" [])
    | Some (NotMember _) =>
        _send_response
          (error_response (req_id request) SUBTYPE_INVALID_ACTION "Invalid action provided" [])
    | Some (Member action) =>
        match action with
        | play => perform control_play
        | pause => perform control_pause
        | stop => perform control_stop
        | previous => perform control_previous
        | next => perform control_next
        | seek =>
            match mc_value model with
            | None => no_value request
            | Some value =>
                do position <- lift (py_int (int_of_str E) value);
                perform (control_seek position)
            end
        | rewind => perform control_rewind
        | fastforward => perform control_fastforward
        | shuffle =>
            match mc_value model with
            | None => no_value request
            | Some value => perform (control_shuffle (py_bool value))
            end
        | repeat =>
            match mc_value model with
            | None => no_value request
            | Some value =>
                do mode <- lift (py_int (int_of_str E) value);
                perform (control_repeat mode)
            end
        | mute => perform control_mute
        | volumedown => perform control_volume_down
        | volumeup => perform control_volume_up
        end
    end).

(** [request.event == TYPE_NOTIFICATION] *)
Definition on_notification (data : pydict) (request : Request) : M X unit :=
  validated (Notification_ E data) request (fun model =>
    match n_title model with
    | None =>
        _send_response
          (error_response (req_id request) SUBTYPE_MISSING_TITLE "No title provided" [])
    | Some _ =>
        perform (callback_open_gui "notification" (n_json model)) ;;
        _send_response
          (reply (req_id request) TYPE_NOTIFICATION_SENT (Some "Notification sent") [])
    end).

(** [request.event == TYPE_OPEN] *)
Definition on_open (data : pydict) (request : Request) : M X unit :=
  if dict_has "path" data then
    validated (OpenPath_ E data) request (fun model =>
      perform (open_path (op_path model)) ;;
      _send_response
        (reply (req_id request) TYPE_OPENED (Some "Path opened")
           [(EVENT_PATH, PStr (op_path model))]))
  else if dict_has "url" data then
    validated (OpenUrl_ E data) request (fun model =>
      perform (open_url (ou_url model)) ;;
      _send_response
        (reply (req_id request) TYPE_OPENED (Some "URL opened")
           [(EVENT_URL, PStr (ou_url model))]))
  else
    _send_response
      (error_response (req_id request) SUBTYPE_MISSING_PATH_URL "No path or url provided" []).

(** [model.modules is None or len(model.modules) == 0] *)
Definition no_modules (modules : option (list string)) : bool :=
  match modules with
  | None => true
  | Some l => Nat.eqb (length l) 0
  end.

(** [model.modules] once it is known not to be [None]. *)
Definition the_modules (modules : option (list string)) : list string :=
  match modules with
  | None => []
  | Some l => l
  end.

(** [request.event == TYPE_REGISTER_DATA_LISTENER] *)
Definition on_register_data_listener (listener_id : string) (data : pydict)
    (request : Request) : M X unit :=
  validated (RegisterDataListener_ E data) request (fun model =>
    if no_modules (rdl_modules model) then
      _send_response
        (error_response (req_id request) SUBTYPE_MISSING_MODULES "No modules provided" [])
    else
      let modules := the_modules (rdl_modules model) in
      do already <- listeners_add_listener listener_id modules;
      if already then
        _send_response
          (error_response (req_id request) SUBTYPE_LISTENER_ALREADY_REGISTERED
             "Listener already registered with this connection"
             [(EVENT_MODULES, strs modules)])
      else
        _send_response
          (reply (req_id request) TYPE_DATA_LISTENER_REGISTERED
             (Some "Data listener registered") [(EVENT_MODULES, strs modules)])).

(** [request.event == TYPE_UNREGISTER_DATA_LISTENER] *)
Definition on_unregister_data_listener (listener_id : string) (request : Request) : M X unit :=
  do existed <- listeners_remove_listener listener_id;
  if negb existed then
    _send_response
      (error_response (req_id request) SUBTYPE_LISTENER_NOT_REGISTERED
         "Listener not registered with this connection" [])
  else
    _send_response
      (reply (req_id request) TYPE_DATA_LISTENER_UNREGISTERED
         (Some "Data listener unregistered") []).

(** [for x in l: body x] *)
Fixpoint for_each {A : Type} (l : list A) (body : A -> M X unit) : M X unit :=
  match l with
  | [] => ret tt
  | x :: rest => body x ;; for_each rest body
  end.

(** The body of the loop of the get-data branch. *)
Definition push_module (request : Request) (module : string) : M X unit :=
  let table := TABLE_MAP_get E module in
  do data <- perform (get_data_dict table);
  match data with
  | PNone => ret tt
  | rows =>
      _send_response
        (reply (req_id request) TYPE_DATA_UPDATE (Some "Data received")
           [(EVENT_MODULE, PStr module); (EVENT_DATA, rows)])
  end.

(** [request.event == TYPE_GET_DATA] *)
Definition on_get_data (data : pydict) (request : Request) : M X unit :=
  validated (GetData_ E data) request (fun model =>
    if no_modules (gd_modules model) then
      _send_response
        (error_response (req_id request) SUBTYPE_MISSING_MODULES "No modules provided" [])
    else
      let modules := the_modules (gd_modules model) in
      _send_response
        (reply (req_id request) TYPE_DATA_GET (Some "Getting data")
           [(EVENT_MODULES, strs modules)]) ;;
      for_each modules (push_module request)).

(** [for item in directories: if item["key"] == base: root_path = item["path"]; break] *)
Fixpoint find_root_path (base : string) (directories : list (string * string)) : option string :=
  match directories with
  | [] => None
  | item :: rest =>
      if String.eqb (fst item) base then Some (snd item) else find_root_path base rest
  end.

(** [request.event == TYPE_GET_DIRECTORIES] *)
Definition on_get_directories (request : Request) : M X unit :=
  do directories <- perform get_directories;
  _send_response
    (reply (req_id request) TYPE_DIRECTORIES None
       [(EVENT_DIRECTORIES, directories_value directories)]).

(** The [bad_path] reply for a base that resolves to no existing root. *)
Definition no_base_path (request : Request) (base : string) : M X unit :=
  _send_response
    (error_response (req_id request) SUBTYPE_BAD_PATH "Cannot find base path"
       [(EVENT_BASE, PStr base)]).

(** [request.event == TYPE_GET_FILES] *)
Definition on_get_files (data : pydict) (request : Request) : M X unit :=
  validated (MediaGetFiles_ E data) request (fun model =>
    do directories <- perform get_directories;
    match find_root_path (mgf_base model) directories with
    | None => no_base_path request (mgf_base model)
    | Some root_path =>
        do root_exists <- perform (os_path_exists root_path);
        if negb root_exists then no_base_path request (mgf_base model)
        else
          let path :=
            match mgf_path model with
            | Some p => os_path_join E root_path p
            | None => root_path
            end in
          do path_exists <- perform (os_path_exists path);
          if negb path_exists then
            _send_response
              (error_response (req_id request) SUBTYPE_BAD_PATH "Cannot find path"
                 [(EVENT_PATH, PStr path)])
          else
            do path_isdir <- perform (os_path_isdir path);
            if negb path_isdir then
              _send_response
                (error_response (req_id request) SUBTYPE_BAD_DIRECTORY
                   "Path is not a directory" [(EVENT_PATH, PStr path)])
            else
              do files <- perform (get_files (mgf_base model) path);
              _send_response
                (reply (req_id request) TYPE_FILES None
                   [(EVENT_FILES, files); (EVENT_PATH, PStr path)])
    end).

(** [os.path.join(root_path, model.path)], which raises on [None]. *)
Definition join_path (root_path : string) (path : option string) : result string :=
  match path with
  | Some p => Ok (os_path_join E root_path p)
  | None =>
      Raise {| exn_cls := TypeError;
               exn_msg := "expected str, bytes or os.PathLike object, not NoneType" |}
  end.

(** [request.event == TYPE_GET_FILE] *)
Definition on_get_file (data : pydict) (request : Request) : M X unit :=
  validated (MediaGetFile_ E data) request (fun model =>
    do directories <- perform get_directories;
    match find_root_path (mg_base model) directories with
    | None => no_base_path request (mg_base model)
    | Some root_path =>
        do root_exists <- perform (os_path_exists root_path);
        if negb root_exists then no_base_path request (mg_base model)
        else
          do path <- lift (join_path root_path (mg_path model));
          do path_exists <- perform (os_path_exists path);
          if negb path_exists then
            _send_response
              (error_response (req_id request) SUBTYPE_BAD_PATH "Cannot find path"
                 [(EVENT_PATH, PStr path)])
          else
            do path_isfile <- perform (os_path_isfile path);
            if negb path_isfile then
              _send_response
                (error_response (req_id request) SUBTYPE_BAD_FILE "Path is not a file"
                   [(EVENT_PATH, PStr path)])
            else
              do file <- perform (get_file root_path path);
              _send_response
                (reply (req_id request) TYPE_FILE None
                   [(EVENT_FILE, file); (EVENT_PATH, PStr path)])
    end).

(** [request.event == TYPE_GET_SETTINGS] *)
Definition on_get_settings (request : Request) : M X unit :=
  do settings <- perform settings_get_all;
  _send_response
    (reply (req_id request) TYPE_SETTINGS_RESULT (Some "Got settings")
       [(EVENT_DATA, settings)]).

(** [request.event == TYPE_GET_SETTING] *)
Definition on_get_setting (data : pydict) (request : Request) : M X unit :=
  validated (GetSetting_ E data) request (fun model =>
    do value <- perform (settings_get (gs_setting model));
    _send_response
      (reply (req_id request) TYPE_SETTING_RESULT (Some "Got setting")
         [(EVENT_SETTING, PStr (gs_setting model)); (EVENT_DATA, value)])).

(** [request.event == TYPE_GET_REMOTE_BRIDGES] *)
Definition on_get_remote_bridges (request : Request) : M X unit :=
  do bridges <- perform get_remote_bridges;
  _send_response
    (reply (req_id request) TYPE_GET_REMOTE_BRIDGES_RESULT (Some "Got remote bridges")
       [(EVENT_DATA, bridges)]).

(** [request.event == TYPE_UPDATE_REMOTE_BRIDGE] *)
Definition on_update_remote_bridge (data : pydict) (request : Request) : M X unit :=
  validated (RemoteBridge_ E data) request (fun model =>
    do updated <- perform (update_remote_bridge model);
    _send_response
      (reply (req_id request) TYPE_UPDATE_REMOTE_BRIDGE_RESULT (Some "Data updated")
         [(EVENT_DATA, updated)])).

(** [model.value is True] *)
Definition is_True (v : pyval) : bool :=
  match v with PBool true => true | _ => false end.

(** [request.event == TYPE_UPDATE_SETTING] *)
Definition on_update_setting (data : pydict) (request : Request) : M X unit :=
  validated (UpdateSetting_ E data) request (fun model =>
    perform (settings_set (us_setting model) (us_value model)) ;;
    _send_response
      (reply (req_id request) TYPE_SETTING_UPDATED (Some "Setting updated")
         [(EVENT_SETTING, PStr (us_setting model)); (EVENT_VALUE, us_value model)]) ;;
    if negb (String.eqb (us_setting model) (SETTING_AUTOSTART E)) then ret tt
    else if is_True (us_value model) then perform autostart_enable
    else perform autostart_disable).

(** The six power branches: the reply goes out before the action. *)
Definition on_power (request : Request) (progress : response_type) (message : string)
    (action : M X unit) : M X unit :=
  _send_response (reply (req_id request) progress (Some message) []) ;;
  action.

(** The final [else] of the chain. *)
Definition on_unknown_event (request : Request) : M X unit :=
  _send_response
    (error_response (req_id request) SUBTYPE_UNKNOWN_EVENT "Unknown event"
       [(EVENT_EVENT, PStr (req_event request))]).

(** [WebSocketHandler._handle_event] *)
Definition _handle_event (listener_id : string) (data : pydict) (request : Request)
    : M X unit :=
  let event := req_event request in
  if String.eqb event TYPE_APPLICATION_UPDATE then on_application_update data request
  else if String.eqb event TYPE_EXIT_APPLICATION then on_exit_application
  else if String.eqb event TYPE_KEYBOARD_KEYPRESS then on_keyboard_keypress data request
  else if String.eqb event TYPE_KEYBOARD_TEXT then on_keyboard_text data request
  else if String.eqb event TYPE_MEDIA_CONTROL then on_media_control data request
  else if String.eqb event TYPE_NOTIFICATION then on_notification data request
  else if String.eqb event TYPE_OPEN then on_open data request
  else if String.eqb event TYPE_REGISTER_DATA_LISTENER then
    on_register_data_listener listener_id data request
  else if String.eqb event TYPE_UNREGISTER_DATA_LISTENER then
    on_unregister_data_listener listener_id request
  else if String.eqb event TYPE_GET_DATA then on_get_data data request
  else if String.eqb event TYPE_GET_DIRECTORIES then on_get_directories request
  else if String.eqb event TYPE_GET_FILES then on_get_files data request
  else if String.eqb event TYPE_GET_FILE then on_get_file data request
  else if String.eqb event TYPE_GET_SETTINGS then on_get_settings request
  else if String.eqb event TYPE_GET_SETTING then on_get_setting data request
  else if String.eqb event TYPE_GET_REMOTE_BRIDGES then on_get_remote_bridges request
  else if String.eqb event TYPE_UPDATE_REMOTE_BRIDGE then on_update_remote_bridge data request
  else if String.eqb event TYPE_UPDATE_SETTING then on_update_setting data request
  else if String.eqb event TYPE_POWER_SLEEP then
    on_power request TYPE_POWER_SLEEPING "Sleeping" (perform sleep)
  else if String.eqb event TYPE_POWER_HIBERNATE then
    on_power request TYPE_POWER_HIBERNATING "Hiibernating" (perform hibernate)
  else if String.eqb event TYPE_POWER_RESTART then
    on_power request TYPE_POWER_RESTARTING "Restarting" (perform restart)
  else if String.eqb event TYPE_POWER_SHUTDOWN then
    on_power request TYPE_POWER_SHUTTINGDOWN "Shutting down" (perform shutdown)
  else if String.eqb event TYPE_POWER_LOCK then
    on_power request TYPE_POWER_LOCKING "Locking" (perform lock)
  else if String.eqb event TYPE_POWER_LOGOUT then
    on_power request TYPE_POWER_LOGGINGOUT "Logging out" (perform logout)
  else on_unknown_event request.

(** ** The receive loop: [WebSocketHandler._handler] and [handler] *)

(** What the session meets at one [await self._websocket.receive_json()]:
    the value or exception the call ends with, and the flag the owner may
    have set through [set_active] while the session was waiting. *)
Record inbound : Type := {
  in_set_active : option bool;
  in_receive : result pyval
}.

(** [WebSocketHandler.set_active] *)
Definition set_active (active : bool) (w : World X) : World X :=
  {| w_active := active; w_listeners := w_listeners w; w_ext := w_ext w |}.

(** [await self._websocket.receive_json()] *)
Definition receive (item : inbound) : M X pyval :=
  fun w =>
    {| o_world := match in_set_active item with
                  | Some active => set_active active w
                  | None => w
                  end;
       o_trace := [Called receive_json (in_receive item)];
       o_result := in_receive item |}.

(** When the inbox is used up the peer has closed the connection. *)
Definition peer_closed : inbound :=
  {| in_set_active := None;
     in_receive := Raise {| exn_cls := WebSocketDisconnect; exn_msg := "1006" |} |}.

(** The keyword arguments of [Request(...)] must come from a mapping. *)
Definition as_mapping (v : pyval) : result pydict :=
  match v with
  | PDict d => Ok d
  | _ =>
      Raise {| exn_cls := TypeError;
               exn_msg := "argument after ** must be a mapping" |}
  end.

(** [request.api_key != api_key] *)
Definition api_key_differs (given : option string) (api_key : string) : bool :=
  match given with
  | Some k => negb (String.eqb k api_key)
  | None => true
  end.

(** The two [except] clauses around the receive, in their order. *)
Definition on_receive_error (error : exn) : M X (option (pydict * Request)) :=
  (if is_JSONDecodeError error then
     _send_response
       (error_response None SUBTYPE_BAD_JSON ("Invalid JSON: " ++ str error) [])
   else
     _send_response
       (error_response None SUBTYPE_BAD_REQUEST ("Invalid request: " ++ str error) [])) ;;
  ret None.

(** The reply of the [except Exception] around the dispatch. *)
Definition on_dispatch_error (request : Request) (error : exn) : M X unit :=
  _send_response
    (error_response (req_id request) SUBTYPE_UNKNOWN_EVENT (str error) []).

(** The body of the [while] loop of [_handler]; the result is [false] when
    the body leaves the function with [return]. *)
Definition _handler_body (listener_id : string) (item : inbound) : M X bool :=
  do received <-
    try_except
      (do value <- receive item;
       do data <- lift (as_mapping value);
       do request <- lift (Request_ E data);
       ret (Some (data, request)))
      is_ValueError on_receive_error;
  match received with
  | None => ret false
  | Some (data, request) =>
      do api_key <- perform settings_get_secret;
      if api_key_differs (req_api_key request) api_key then
        _send_response
          (error_response (req_id request) SUBTYPE_BAD_API_KEY "Invalid api-key" []) ;;
        ret false
      else
        try_except (_handle_event listener_id data request) is_Exception
          (on_dispatch_error request) ;;
        ret true
  end.

(** [WebSocketHandler._handler]: [while self._active: ...] over the inbox. *)
Fixpoint _handler (listener_id : string) (inbox : list inbound) : M X unit :=
  fun w =>
    if w_active w then
      match inbox with
      | [] => (receive peer_closed ;; ret tt) w
      | item :: rest =>
          (do continue <- _handler_body listener_id item;
           if continue then _handler listener_id rest else ret tt) w
      end
    else ret tt w.

(** [WebSocketHandler.handler]; [listener_id] is the [str(uuid4())] it
    draws. *)
Definition handler (listener_id : string) (inbox : list inbound) : M X unit :=
  try_finally
    (try_except (_handler listener_id inbox) is_connection_closed (fun error => ret tt))
    (listeners_remove_listener listener_id ;; ret tt).

End Session.

(** ** The update scheduler: [Update] and the update threads

    [Update.update_data] and [Update.update_frequent_data] hand one
    coroutine per category to [asyncio.gather]; the thread that owns the
    trigger runs it with [asyncio.run].  What the event loop contributes is
    modelled as follows.
      - A coroutine is the list of its [await]s.  An [await] begins, may
        suspend, and ends by returning or raising, so it accounts for two
        steps of its task.
      - [gather] makes a task of each coroutine; the loop picks the task
        that steps next, here by a [schedule] of task positions that ranges
        over every interleaving.  [gather] returns when all tasks are done,
        and raises the first exception one of them raises
        ([return_exceptions] is not set); it does not cancel the others.
      - [asyncio.run] cancels the tasks that are still pending when the main
        coroutine ends. *)

Module Scheduler.

Inductive await : Type :=
| update_all_data (name : string)      (* await class_obj["cls"].update_all_data() *)
| updated_callback (name : string).    (* await self.updated_callback(name) *)

Definition await_name (a : await) : string :=
  match a with update_all_data n | updated_callback n => n end.

Inductive sched_event : Type :=
| Starts (a : await)
| Returns (a : await)
| Raised (a : await) (e : exn)
| Cancelled (name : string).

Record task : Type := {
  t_name : string;
  t_started : bool;           (* the first await of [t_code] has begun *)
  t_code : list await         (* the awaits still to complete *)
}.

Definition finished (t : task) : task :=
  {| t_name := t_name t; t_started := false; t_code := [] |}.

(** [self._classes] *)
Definition _classes : list string := ["battery"; "disk"; "system"].

(** [self._classes_frequent] *)
Definition _classes_frequent : list string :=
  ["cpu"; "display"; "gpu"; "memory"; "network"; "processes"].

(** [Update._update], as the awaits of the coroutine. *)
Definition _update (name : string) : list await :=
  [update_all_data name; updated_callback name].

(** [self._update(cls)] once [gather] has made it a task. *)
Definition task_of (name : string) : task :=
  {| t_name := name; t_started := false; t_code := _update name |}.

Section Triggers.

(** What the collector of a category does on [update_all_data], and what
    the notification callback does for a category: return, or raise. *)
Variable collector : string -> option exn.
Variable callback : string -> option exn.

Definition completes (a : await) : option exn :=
  match a with
  | update_all_data name => collector name
  | updated_callback name => callback name
  end.

(** One step of a task, if it has one: the event, the exception if the step
    raised, and the task afterwards. *)
Definition step_task (t : task) : option (sched_event * option exn * task) :=
  match t_code t with
  | [] => None
  | a :: rest =>
      if t_started t then
        match completes a with
        | None =>
            Some (Returns a, None, {| t_name := t_name t; t_started := false; t_code := rest |})
        | Some e => Some (Raised a e, Some e, finished t)
        end
      else
        Some (Starts a, None, {| t_name := t_name t; t_started := true; t_code := a :: rest |})
  end.

(** A coroutine run on its own, from its current await to its end. *)
Fixpoint run_code (started : bool) (code : list await) : list sched_event * option exn :=
  match code with
  | [] => ([], None)
  | a :: rest =>
      let begin := if started then [] else [Starts a] in
      match completes a with
      | None =>
          match run_code false rest with
          | (events, r) => (begin ++ Returns a :: events, r)
          end
      | Some e => (begin ++ [Raised a e], Some e)
      end
  end.

(** The steps the other tasks still take after [gather] has failed and
    before the loop stops; their exceptions go nowhere. *)
Fixpoint linger (schedule : list nat) (tasks : list task) : list sched_event * list task :=
  match schedule with
  | [] => ([], tasks)
  | i :: schedule' =>
      match tasks !! i with
      | Some t =>
          match step_task t with
          | Some (ev, _, t') =>
              match linger schedule' (<[i := t']> tasks) with
              | (events, tasks') => (ev :: events, tasks')
              end
          | None => linger schedule' tasks
          end
      | None => linger schedule' tasks
      end
  end.

(** When the schedule is used up the tasks that are left run to their end
    in their order; [gather] fails at the first that raises. *)
Fixpoint drain (tasks : list task) : list sched_event * option exn * list task :=
  match tasks with
  | [] => ([], None, [])
  | t :: rest =>
      match run_code (t_started t) (t_code t) with
      | (events, None) =>
          match drain rest with
          | (events', r, tasks') => (events ++ events', r, finished t :: tasks')
          end
      | (events, Some e) => (events, Some e, finished t :: rest)
      end
  end.

(** [await asyncio.gather(...)] over the tasks: the events, the exception
    it raises if any, and the tasks as it leaves them. *)
Fixpoint gather (schedule : list nat) (tasks : list task)
    : list sched_event * option exn * list task :=
  match schedule with
  | [] => drain tasks
  | i :: schedule' =>
      match tasks !! i with
      | Some t =>
          match step_task t with
          | Some (ev, None, t') =>
              match gather schedule' (<[i := t']> tasks) with
              | (events, r, tasks') => (ev :: events, r, tasks')
              end
          | Some (ev, Some e, t') =>
              match linger schedule' (<[i := t']> tasks) with
              | (events, tasks') => (ev :: events, Some e, tasks')
              end
          | None => gather schedule' tasks
          end
      | None => gather schedule' tasks
      end
  end.

(** [Update.update_data] *)
Definition update_data (schedule : list nat) : list sched_event * option exn * list task :=
  gather schedule (map task_of _classes).

(** [Update.update_frequent_data] *)
Definition update_frequent_data (schedule : list nat)
    : list sched_event * option exn * list task :=
  match run_code false [update_all_data "sensors"; updated_callback "sensors"] with
  | (events, Some e) => (events, Some e, [])
  | (events, None) =>
      match gather schedule (map task_of _classes_frequent) with
      | (events', r, tasks) => (events ++ events', r, tasks)
      end
  end.

(** The tasks [asyncio.run] cancels when the main coroutine has ended. *)
Definition cancel_all (tasks : list task) : list sched_event :=
  map (fun t => Cancelled (t_name t))
      (filter (fun t => t_code t <> []) tasks).

(** [asyncio.run(main)] *)
Definition asyncio_run (main : list sched_event * option exn * list task)
    : list sched_event * result unit :=
  match main with
  | (events, r, tasks) =>
      (events ++ cancel_all tasks,
       match r with None => Ok tt | Some e => Raise e end)
  end.

(** [UpdateThread.run] *)
Definition UpdateThread_run (schedule : list nat) : list sched_event * result unit :=
  asyncio_run (update_data schedule).

(** [UpdateFrequentThread.run] *)
Definition UpdateFrequentThread_run (schedule : list nat) : list sched_event * result unit :=
  asyncio_run (update_frequent_data schedule).

(** The moves of the event loop: a task that has a step takes it. *)
Inductive steps : list task -> list sched_event -> list task -> Prop :=
| steps_done (tasks : list task) : steps tasks [] tasks
| steps_next (tasks : list task) (i : nat) (t : task) (ev : sched_event)
    (r : option exn) (t' : task) (events : list sched_event) (tasks' : list task) :
    tasks !! i = Some t ->
    step_task t = Some (ev, r, t') ->
    steps (<[i := t']> tasks) events tasks' ->
    steps tasks (ev :: events) tasks'.

End Triggers.

(** The states a task of [_update] goes through. *)
Definition shaped (t : task) : Prop :=
  (t_code t = [] /\ t_started t = false)
  \/ t_code t = [updated_callback (t_name t)]
  \/ t_code t = _update (t_name t).

(** A task that has not begun. *)
Definition fresh (t : task) : Prop :=
  t_code t = _update (t_name t) /\ t_started t = false.

(** The refresh and the notification of sensors, both completed. *)
Definition sensors_done : list sched_event :=
  [ Starts (update_all_data "sensors"); Returns (update_all_data "sensors");
    Starts (updated_callback "sensors"); Returns (updated_callback "sensors") ].

(** Every occurrence of [y] has an occurrence of [x] before it. *)
Definition precedes {A : Type} (x y : A) (l : list A) : Prop :=
  forall l1 l2, l = l1 ++ y :: l2 -> In x l1.

(** No occurrence of [x] has an occurrence of [x] before it. *)
Definition at_most_once {A : Type} (x : A) (l : list A) : Prop :=
  forall l1 l2, l = l1 ++ x :: l2 -> ~ In x l1.

(** The category's refresh and its notification have both completed. *)
Definition completed (name : string) (events : list sched_event) : Prop :=
  In (Returns (update_all_data name)) events /\ In (Returns (updated_callback name)) events.

(** One of the category's awaits has raised. *)
Definition failed (name : string) (events : list sched_event) : Prop :=
  exists a e, await_name a = name /\ In (Raised a e) events.

(** The place of a category among the tasks [gather] makes. *)
Fixpoint position (name : string) (names : list string) : nat :=
  match names with
  | [] => 0
  | n :: rest => if String.eqb n name then 0 else S (position name rest)
  end.

(** The task of sensors once it is through. *)
Definition sensors_finished : task :=
  {| t_name := "sensors"; t_started := false; t_code := [] |}.

(** A collector oracle: the disk collector raises, the others return. *)
Definition disk_fails : string -> option exn :=
  fun name =>
    if String.eqb name "disk"
    then Some {| exn_cls := OtherException; exn_msg := "no such device" |}
    else None.

(** A trigger as a run of the tasks of its categories: the tasks it ends
    with, among them the ones left to [asyncio.run]. *)
Definition run_of (collector callback : string -> option exn) (names : list string)
    (main : list sched_event * option exn * list task) : Prop :=
  exists tasks',
    steps collector callback (map task_of names) main.1.1 tasks'
    /\ (forall t, In t main.2 -> In t tasks')
    /\ (main.1.2 = None ->
        Forall (fun t => t_code t = []) tasks'
        /\ forall a e, ~ In (Raised a e) main.1.1)
    /\ (forall e, main.1.2 = Some e -> exists a, In (Raised a e) main.1.1).

(** What the events of a run say about the awaits. *)
Definition sound {collector callback : string -> option exn} (ev : sched_event) : Prop :=
  match ev with
  | Starts _ => True
  | Returns a => completes collector callback a = None
  | Raised a e => completes collector callback a = Some e
  | Cancelled _ => False
  end.

(** What the history of a run says about a task in its current state. *)
Definition task_inv (hist : list sched_event) (t : task) : Prop :=
  (fresh t -> ~ In (Starts (update_all_data (t_name t))) hist)
  /\ (t_code t = [updated_callback (t_name t)] ->
      In (Returns (update_all_data (t_name t))) hist)
  /\ (t_code t = [] -> completed (t_name t) hist \/ failed (t_name t) hist)
  /\ (t_code t <> [] -> ~ In (Returns (updated_callback (t_name t))) hist).

(** The invariant of a run over tasks with distinct names. *)
Definition run_inv {collector callback : string -> option exn}
    (hist : list sched_event) (tasks : list task) : Prop :=
  NoDup (map t_name tasks)
  /\ (forall n, precedes (Returns (update_all_data n)) (Starts (updated_callback n)) hist)
  /\ (forall n, at_most_once (Starts (update_all_data n)) hist)
  /\ (forall ev, In ev hist -> @sound collector callback ev)
  /\ (forall i t, tasks !! i = Some t -> task_inv hist t).

End Scheduler.

(** ** A concrete environment

    An instance of [Env] to run the handler on concrete messages: every call
    returns a fixed value unless [fails] makes it raise, and the request
    models read their attributes from the fields of the message. *)

Module Demo.

Definition answer (c : call) : ret_ty c :=
  match c return ret_ty c with
  | get_directories => [("music", "/music")]
  | os_path_exists _ | os_path_isdir _ | os_path_isfile _ => true
  | add_listener _ _ | remove_listener _ => false
  | settings_get_secret => "K"
  | get_data_dict table =>
      match table with
      | Some name => if String.eqb name "cpu" then PDict [("usage", PInt 7)] else PNone
      | None => PNone
      end
  | receive_json | Update_update _ | get_files _ _ | get_file _ _
  | settings_get_all | settings_get _ | get_remote_bridges => PNone
  | update_remote_bridge m => rb_model m
  | _ => tt
  end.

Definition get_str (key : string) (data : pydict) : option string :=
  match dict_get key data with
  | Some (PStr s) => Some s
  | _ => None
  end.

Definition get_value (key : string) (data : pydict) : option pyval :=
  match dict_get key data with
  | Some PNone | None => None
  | Some v => Some v
  end.

Fixpoint str_items (l : list pyval) : list string :=
  match l with
  | [] => []
  | PStr s :: rest => s :: str_items rest
  | _ :: rest => str_items rest
  end.

Definition get_strs (key : string) (data : pydict) : option (list string) :=
  match dict_get key data with
  | Some (PList l) => Some (str_items l)
  | _ => None
  end.

Definition required {A : Type} (key : string) (data : pydict) (k : string -> A) : result A :=
  match get_str key data with
  | Some s => Ok (k s)
  | None => Raise {| exn_cls := ValueError; exn_msg := key ++ ": field required" |}
  end.

Definition actions : list (string * MediaAction) :=
  [ ("play", play); ("pause", pause); ("stop", stop); ("previous", previous);
    ("next", next); ("seek", seek); ("rewind", rewind); ("fastforward", fastforward);
    ("shuffle", shuffle); ("repeat", repeat); ("mute", mute);
    ("volumedown", volumedown); ("volumeup", volumeup) ].

Definition action_of (s : string) : action_value :=
  match find (fun na => String.eqb (fst na) s) actions with
  | Some na => Member (snd na)
  | None => NotMember s
  end.

Definition digit (c : Ascii.ascii) : option Z :=
  let n := Z.of_nat (Ascii.nat_of_ascii c) in
  if ((48 <=? n) && (n <=? 57))%Z then Some (n - 48)%Z else None.

Fixpoint digits (acc : Z) (s : string) : option Z :=
  match s with
  | EmptyString => Some acc
  | String c rest =>
      match digit c with
      | Some d => digits (10 * acc + d)%Z rest
      | None => None
      end
  end.

(** Decimal numerals only. *)
Definition decimal (s : string) : option Z :=
  match s with
  | EmptyString => None
  | _ => digits 0%Z s
  end.

Definition env (fails : call -> option exn) : Env unit :=
  {| ext := fun c x =>
       match fails c with
       | Some e => (x, Raise e)
       | None => (x, Ok (answer c))
       end;
     Request_ := fun data =>
       required "event" data (fun ev =>
         {| req_id := get_str "id" data; req_event := ev;
            req_api_key := get_str "api_key" data |});
     UpdateModel_ := fun data =>
       Ok {| um_version := match dict_get "version" data with Some v => v | None => PNone end |};
     KeyboardKey_ := fun data => Ok {| kk_key := get_str "key" data |};
     KeyboardText_ := fun data => Ok {| kt_text := get_str "text" data |};
     MediaControl_ := fun data =>
       Ok {| mc_action := option_map action_of (get_str "action" data);
             mc_value := get_value "value" data |};
     Notification_ := fun data =>
       Ok {| n_title := get_str "title" data; n_json := "{}" |};
     OpenPath_ := fun data => required "path" data (fun p => {| op_path := p |});
     OpenUrl_ := fun data => required "url" data (fun u => {| ou_url := u |});
     RegisterDataListener_ := fun data => Ok {| rdl_modules := get_strs "modules" data |};
     GetData_ := fun data => Ok {| gd_modules := get_strs "modules" data |};
     MediaGetFiles_ := fun data =>
       required "base" data (fun b => {| mgf_base := b; mgf_path := get_str "path" data |});
     MediaGetFile_ := fun data =>
       required "base" data (fun b => {| mg_base := b; mg_path := get_str "path" data |});
     GetSetting_ := fun data => required "setting" data (fun k => {| gs_setting := k |});
     RemoteBridge_ := fun data => Ok {| rb_model := PDict data |};
     UpdateSetting_ := fun data =>
       required "setting" data (fun k =>
         {| us_setting := k;
            us_value := match dict_get "value" data with Some v => v | None => PNone end |});
     TABLE_MAP_get := fun module => if in_MODULES module then Some module else None;
     SETTING_AUTOSTART := "autostart";
     int_of_str := decimal;
     os_path_join := fun a b => String.append a (String.append "/" b) |}.

(** Nothing fails. *)
Definition fine : call -> option exn := fun _ => None.

(** The connection is gone: every send raises. *)
Definition closed : call -> option exn :=
  fun c =>
    match c with
    | send_json _ => Some {| exn_cls := ConnectionError; exn_msg := "closed" |}
    | _ => None
    end.

Definition world (active : bool) : World unit :=
  {| w_active := active; w_listeners := ∅; w_ext := tt |}.

(** An active session whose connection ["L"] has registered for cpu. *)
Definition registered : World unit :=
  {| w_active := true; w_listeners := {[ "L" := ["cpu"] ]}; w_ext := tt |}.

Definition message (fields : pydict) : inbound :=
  {| in_set_active := None; in_receive := Ok (PDict fields) |}.

Definition request (id event : string) : Request :=
  {| req_id := Some id; req_event := event; req_api_key := Some "K" |}.

End Demo.

(** Messages and requests used below. *)
Module Samples.

Definition play_fields : pydict := [("action", PStr "play")].
Definition seek_fields : pydict := [("action", PStr "seek"); ("value", PStr "abc")].
Definition register_fields : pydict := [("modules", PList [PStr "cpu"; PStr "disk"])].
Definition no_modules_fields : pydict := [("modules", PList [])].
Definition open_fields : pydict :=
  [("path", PStr "/music/a.mp3"); ("url", PStr "https://example.org")].

Definition envelope (id event api_key : string) (fields : pydict) : pydict :=
  ("id", PStr id) :: ("event", PStr event) :: ("api_key", PStr api_key) :: fields.

End Samples.

(** ** Reading a trace *)

(** The response a trace entry put on the wire, if it is a send that
    returned. *)
Definition sent_response (ev : event) : option Response :=
  match ev with
  | Called (send_json message) (Ok _) => Some message
  | _ => None
  end.

(** The responses sent, in order. *)
Definition sent (t : trace) : list Response := omap sent_response t.

(** The calls made, in order. *)
Definition calls (t : trace) : list call := map ev_call t.

(** A read of the Store that found rows. *)
Definition found_rows (ev : event) : bool :=
  match ev with
  | Called (get_data_dict _) (Ok PNone) => false
  | Called (get_data_dict _) (Ok _) => true
  | _ => false
  end.

Definition is_open_url (c : call) : bool :=
  match c with open_url _ => true | _ => false end.

Definition is_add_listener (c : call) : bool :=
  match c with add_listener _ _ => true | _ => false end.

(** The error responses sent, in order. *)
Definition errors (t : trace) : list Response := List.filter is_error (sent t).

(** The reads of the Store that found rows. *)
Definition found (t : trace) : nat := length (List.filter found_rows t).

(** The actions that take a [value]. *)
Definition needs_value (a : MediaAction) : bool :=
  match a with
  | seek | shuffle | repeat => true
  | _ => false
  end.

(** The transport-control call that matches an action, when the value it
    takes is there and, for seek and repeat, converts with [int]. *)
Definition matching_control {X : Type} (E : Env X) (a : MediaAction) (value : option pyval)
    : option call :=
  match a with
  | play => Some control_play
  | pause => Some control_pause
  | stop => Some control_stop
  | previous => Some control_previous
  | next => Some control_next
  | seek =>
      match value with
      | Some v =>
          match py_int (int_of_str E) v with
          | Ok z => Some (control_seek z)
          | Raise _ => None
          end
      | None => None
      end
  | rewind => Some control_rewind
  | fastforward => Some control_fastforward
  | shuffle =>
      match value with
      | Some v => Some (control_shuffle (py_bool v))
      | None => None
      end
  | repeat =>
      match value with
      | Some v =>
          match py_int (int_of_str E) v with
          | Ok z => Some (control_repeat z)
          | Raise _ => None
          end
      | None => None
      end
  | mute => Some control_mute
  | volumedown => Some control_volume_down
  | volumeup => Some control_volume_up
  end.

(** A media-control request with its action present and in the
    enumeration, and with a value where the action takes one. *)
Definition media_control_ok {X : Type} (E : Env X) (data : pydict) : bool :=
  match MediaControl_ E data with
  | Ok model =>
      match mc_action model with
      | Some (Member a) =>
          if needs_value a then
            match mc_value model with Some _ => true | None => false end
          else true
      | _ => false
      end
  | Raise _ => false
  end.

(** The request tags the chain of [_handle_event] knows. *)
Definition known_events : list string :=
  [ TYPE_APPLICATION_UPDATE; TYPE_EXIT_APPLICATION; TYPE_KEYBOARD_KEYPRESS;
    TYPE_KEYBOARD_TEXT; TYPE_MEDIA_CONTROL; TYPE_NOTIFICATION; TYPE_OPEN;
    TYPE_REGISTER_DATA_LISTENER; TYPE_UNREGISTER_DATA_LISTENER; TYPE_GET_DATA;
    TYPE_GET_DIRECTORIES; TYPE_GET_FILES; TYPE_GET_FILE; TYPE_GET_SETTINGS;
    TYPE_GET_SETTING; TYPE_GET_REMOTE_BRIDGES; TYPE_UPDATE_REMOTE_BRIDGE;
    TYPE_UPDATE_SETTING; TYPE_POWER_SLEEP; TYPE_POWER_HIBERNATE; TYPE_POWER_RESTART;
    TYPE_POWER_SHUTDOWN; TYPE_POWER_LOCK; TYPE_POWER_LOGOUT ].

Section Branches.
Context {X : Type} (E : Env X).

(** The branch of the chain a request is dispatched to. *)
Inductive branch (listener_id : string) (data : pydict) (request : Request)
    : M X unit -> Prop :=
| b_application_update :
    req_event request = TYPE_APPLICATION_UPDATE ->
    branch listener_id data request (on_application_update E data request)
| b_exit_application :
    req_event request = TYPE_EXIT_APPLICATION ->
    branch listener_id data request (on_exit_application E)
| b_keyboard_keypress :
    req_event request = TYPE_KEYBOARD_KEYPRESS ->
    branch listener_id data request (on_keyboard_keypress E data request)
| b_keyboard_text :
    req_event request = TYPE_KEYBOARD_TEXT ->
    branch listener_id data request (on_keyboard_text E data request)
| b_media_control :
    req_event request = TYPE_MEDIA_CONTROL ->
    branch listener_id data request (on_media_control E data request)
| b_notification :
    req_event request = TYPE_NOTIFICATION ->
    branch listener_id data request (on_notification E data request)
| b_open :
    req_event request = TYPE_OPEN ->
    branch listener_id data request (on_open E data request)
| b_register_data_listener :
    req_event request = TYPE_REGISTER_DATA_LISTENER ->
    branch listener_id data request (on_register_data_listener E listener_id data request)
| b_unregister_data_listener :
    req_event request = TYPE_UNREGISTER_DATA_LISTENER ->
    branch listener_id data request (on_unregister_data_listener E listener_id request)
| b_get_data :
    req_event request = TYPE_GET_DATA ->
    branch listener_id data request (on_get_data E data request)
| b_get_directories :
    req_event request = TYPE_GET_DIRECTORIES ->
    branch listener_id data request (on_get_directories E request)
| b_get_files :
    req_event request = TYPE_GET_FILES ->
    branch listener_id data request (on_get_files E data request)
| b_get_file :
    req_event request = TYPE_GET_FILE ->
    branch listener_id data request (on_get_file E data request)
| b_get_settings :
    req_event request = TYPE_GET_SETTINGS ->
    branch listener_id data request (on_get_settings E request)
| b_get_setting :
    req_event request = TYPE_GET_SETTING ->
    branch listener_id data request (on_get_setting E data request)
| b_get_remote_bridges :
    req_event request = TYPE_GET_REMOTE_BRIDGES ->
    branch listener_id data request (on_get_remote_bridges E request)
| b_update_remote_bridge :
    req_event request = TYPE_UPDATE_REMOTE_BRIDGE ->
    branch listener_id data request (on_update_remote_bridge E data request)
| b_update_setting :
    req_event request = TYPE_UPDATE_SETTING ->
    branch listener_id data request (on_update_setting E data request)
| b_power_sleep :
    req_event request = TYPE_POWER_SLEEP ->
    branch listener_id data request
      (on_power E request TYPE_POWER_SLEEPING "Sleeping" (perform E sleep))
| b_power_hibernate :
    req_event request = TYPE_POWER_HIBERNATE ->
    branch listener_id data request
      (on_power E request TYPE_POWER_HIBERNATING "Hiibernating" (perform E hibernate))
| b_power_restart :
    req_event request = TYPE_POWER_RESTART ->
    branch listener_id data request
      (on_power E request TYPE_POWER_RESTARTING "Restarting" (perform E restart))
| b_power_shutdown :
    req_event request = TYPE_POWER_SHUTDOWN ->
    branch listener_id data request
      (on_power E request TYPE_POWER_SHUTTINGDOWN "Shutting down" (perform E shutdown))
| b_power_lock :
    req_event request = TYPE_POWER_LOCK ->
    branch listener_id data request
      (on_power E request TYPE_POWER_LOCKING "Locking" (perform E lock))
| b_power_logout :
    req_event request = TYPE_POWER_LOGOUT ->
    branch listener_id data request
      (on_power E request TYPE_POWER_LOGGINGOUT "Logging out" (perform E logout))
| b_unknown_event :
    ~ In (req_event request) known_events ->
    branch listener_id data request (on_unknown_event E request).

(** A branch that raises has sent no error response. *)
Definition quiet (m : M X unit) : Prop :=
  forall w e, o_result (m w) = Raise e -> errors (o_trace (m w)) = [].

(** A branch leaves [self._active] as it is. *)
Definition keeps_flag {A : Type} (m : M X A) : Prop :=
  forall w, w_active (o_world (m w)) = w_active w.

End Branches.


(** ** The sensors collector: [SensorsUpdate.update_fans] and
    [SensorsUpdate.update_temperatures]

    [psutil.sensors_fans()] and [psutil.sensors_temperatures()] give a
    [dict] from a hardware name to the list of its readings, each a named
    tuple; the Store is written through [Database.update_data].  Both are
    outside the module: the readings are the input, the Store is an oracle
    that tells whether a write raises. *)

Module SensorsUpdate.

(** [systembridgeshared.models.database_data_sensors.Sensors], by the
    keyword arguments the collector builds it from. *)
Record DatabaseModel : Type := {
  key : string;
  type : string;
  name : string;
  hardware_type : string;
  hardware_name : string;
  value : pyval
}.

(** A reading: the items of [item._asdict()], in the order of the fields. *)
Definition reading : Type := list (string * pyval).

(** The items of the [dict] psutil returns, in its order. *)
Definition readings : Type := list (string * list reading).

(** The row built in the innermost loop; [group] is the literal the key
    starts with. *)
Definition row (group key subkey : string) (subvalue : pyval) : DatabaseModel :=
  {| key := group ++ "_" ++ key ++ "_" ++ subkey;
     type := subkey;
     name := subkey;
     hardware_type := key;
     hardware_name := key;
     value := subvalue |}.

(** [for subkey, subvalue in item._asdict().items()] *)
Definition rows_of_reading (group key : string) (item : reading) : list DatabaseModel :=
  map (fun field => row group key (fst field) (snd field)) item.

(** [for key, value in data.items(): for item in value: ...] *)
Definition rows_of (group : string) (data : readings) : list DatabaseModel :=
  flat_map (fun entry => flat_map (rows_of_reading group (fst entry)) (snd entry)) data.

Section Store.
Context {D : Type} (update_data : DatabaseModel -> D -> D * option exn).

(** The writes of the loops, one [self._database.update_data] per row; a
    write that raises ends the coroutine. *)
Fixpoint write (rows : list DatabaseModel) (d : D)
    : D * list DatabaseModel * result unit :=
  match rows with
  | [] => (d, [], Ok tt)
  | r :: rest =>
      match update_data r d with
      | (d1, Some e) => (d1, [r], Raise e)
      | (d1, None) =>
          match write rest d1 with
          | (d2, written, res) => (d2, r :: written, res)
          end
      end
  end.

(** [if data := ...]: [None] and the empty [dict] are false. *)
Definition truthy (data : option readings) : option readings :=
  match data with
  | None | Some [] => None
  | Some d => Some d
  end.

(** [SensorsUpdate.update_fans]; [fans] is what [self._sensors.fans()]
    returned. *)
Definition update_fans (fans : option readings) (d : D)
    : D * list DatabaseModel * result unit :=
  match truthy fans with
  | Some data => write (rows_of "fans" data) d
  | None => (d, [], Ok tt)
  end.

(** [SensorsUpdate.update_temperatures]; [temperatures] is what
    [self._sensors.temperatures()] returned. *)
Definition update_temperatures (temperatures : option readings) (d : D)
    : D * list DatabaseModel * result unit :=
  match truthy temperatures with
  | Some data => write (rows_of "temperatures" data) d
  | None => (d, [], Ok tt)
  end.

End Store.

(** A Store that takes every write, and two sets of readings. *)
Definition accepts (r : DatabaseModel) (d : unit) : unit * option exn := (d, None).

Definition two_cores : option readings :=
  Some [("coretemp", [ [("label", PStr "Core 0"); ("current", PInt 41)];
                       [("label", PStr "Core 1"); ("current", PInt 43)] ])].

Definition one_fan : option readings :=
  Some [("thinkpad", [ [("label", PStr ""); ("current", PInt 2900)] ])].

End SensorsUpdate.

(** ** Vocabulary of the further properties *)

Definition is_send_json (c : call) : bool :=
  match c with send_json _ => true | _ => false end.

Definition is_get_data_dict (c : call) : bool :=
  match c with get_data_dict _ => true | _ => false end.

Definition is_registry_call (c : call) : bool :=
  match c with add_listener _ _ | remove_listener _ => true | _ => false end.

(** The exception a computation without calls ended with. *)
Definition raised {A : Type} (r : result A) : option exn :=
  match r with Ok _ => None | Raise e => Some e end.

(** For each event that starts by building a request model: what the
    constructor of that model raised, if it did. *)
Definition model_checks {X : Type} (E : Env X) (data : pydict)
    : list (string * option exn) :=
  [ (TYPE_APPLICATION_UPDATE, raised (UpdateModel_ E data));
    (TYPE_KEYBOARD_KEYPRESS, raised (KeyboardKey_ E data));
    (TYPE_KEYBOARD_TEXT, raised (KeyboardText_ E data));
    (TYPE_MEDIA_CONTROL, raised (MediaControl_ E data));
    (TYPE_NOTIFICATION, raised (Notification_ E data));
    (TYPE_OPEN,
     if dict_has "path" data then raised (OpenPath_ E data)
     else if dict_has "url" data then raised (OpenUrl_ E data)
     else None);
    (TYPE_REGISTER_DATA_LISTENER, raised (RegisterDataListener_ E data));
    (TYPE_GET_DATA, raised (GetData_ E data));
    (TYPE_GET_FILES, raised (MediaGetFiles_ E data));
    (TYPE_GET_FILE, raised (MediaGetFile_ E data));
    (TYPE_GET_SETTING, raised (GetSetting_ E data));
    (TYPE_UPDATE_REMOTE_BRIDGE, raised (RemoteBridge_ E data));
    (TYPE_UPDATE_SETTING, raised (UpdateSetting_ E data)) ].

(** A validated request that lacks the field its family requires: the
    event, and the subtype and message of the error the branch answers
    with. *)
Inductive missing_field {X : Type} (E : Env X) (data : pydict)
    : string -> subtype -> string -> Prop :=
| no_key (model : KeyboardKey) :
    KeyboardKey_ E data = Ok model -> kk_key model = None ->
    missing_field E data TYPE_KEYBOARD_KEYPRESS SUBTYPE_MISSING_KEY "No key provided"
| no_text (model : KeyboardText) :
    KeyboardText_ E data = Ok model -> kt_text model = None ->
    missing_field E data TYPE_KEYBOARD_TEXT SUBTYPE_MISSING_TEXT "No text provided"
| no_action (model : MediaControl) :
    MediaControl_ E data = Ok model -> mc_action model = None ->
    missing_field E data TYPE_MEDIA_CONTROL SUBTYPE_MISSING_ACTION "No action provided"
| unknown_action (model : MediaControl) (raw : string) :
    MediaControl_ E data = Ok model -> mc_action model = Some (NotMember raw) ->
    missing_field E data TYPE_MEDIA_CONTROL SUBTYPE_INVALID_ACTION "Invalid action provided"
| no_action_value (model : MediaControl) (a : MediaAction) :
    MediaControl_ E data = Ok model -> mc_action model = Some (Member a) ->
    needs_value a = true -> mc_value model = None ->
    missing_field E data TYPE_MEDIA_CONTROL SUBTYPE_MISSING_VALUE "No value provided"
| no_title (model : Notification) :
    Notification_ E data = Ok model -> n_title model = None ->
    missing_field E data TYPE_NOTIFICATION SUBTYPE_MISSING_TITLE "No title provided"
| no_modules_to_get (model : GetData) :
    GetData_ E data = Ok model -> no_modules (gd_modules model) = true ->
    missing_field E data TYPE_GET_DATA SUBTYPE_MISSING_MODULES "No modules provided".

(** The power events: the type and message of the reply, and the action. *)
Definition power_events : list (string * (response_type * string * call)) :=
  [ (TYPE_POWER_SLEEP, (TYPE_POWER_SLEEPING, "Sleeping", sleep));
    (TYPE_POWER_HIBERNATE, (TYPE_POWER_HIBERNATING, "Hiibernating", hibernate));
    (TYPE_POWER_RESTART, (TYPE_POWER_RESTARTING, "Restarting", restart));
    (TYPE_POWER_SHUTDOWN, (TYPE_POWER_SHUTTINGDOWN, "Shutting down", shutdown));
    (TYPE_POWER_LOCK, (TYPE_POWER_LOCKING, "Locking", lock));
    (TYPE_POWER_LOGOUT, (TYPE_POWER_LOGGINGOUT, "Logging out", logout)) ].

(** What the first three statements of the loop of [_handler] make of a
    message: the mapping and the request, or the exception. *)
Definition decode {X : Type} (E : Env X) (item : inbound) : result (pydict * Request) :=
  match in_receive item with
  | Raise e => Raise e
  | Ok value =>
      match as_mapping value with
      | Raise e => Raise e
      | Ok data =>
          match Request_ E data with
          | Raise e => Raise e
          | Ok request => Ok (data, request)
          end
      end
  end.

(** The reply to a message that does not decode. *)
Definition decode_error (e : exn) : Response :=
  if is_JSONDecodeError e
  then error_response None SUBTYPE_BAD_JSON ("Invalid JSON: " ++ str e) []
  else error_response None SUBTYPE_BAD_REQUEST ("Invalid request: " ++ str e) [].

(** Whether the request of the message last received carries the
    secret. *)
Definition carries_secret {X : Type} (E : Env X) (last : option pydict) (secret : string)
    : bool :=
  match last with
  | Some data =>
      match Request_ E data with
      | Ok request => negb (api_key_differs (req_api_key request) secret)
      | Raise _ => false
      end
  | None => false
  end.

(** A check of a trace of the session: every call other than a receive,
    a read of the secret or a send is made while [ok] holds, that is after
    the secret was read and the message received last carried it.  [last]
    is the mapping received last. *)
Fixpoint authorised {X : Type} (E : Env X) (last : option pydict) (ok : bool) (t : trace)
    : bool :=
  match t with
  | [] => true
  | Called c r :: rest =>
      match c with
      | receive_json =>
          authorised E (match r with Ok (PDict data) => Some data | _ => None end) false rest
      | settings_get_secret =>
          authorised E last
            (match r with Ok (PStr secret) => carries_secret E last secret | _ => false end)
            rest
      | send_json _ => authorised E last ok rest
      | _ => ok && authorised E last ok rest
      end
  end.

(** The two calls the loop of [_handler] makes before it dispatches. *)
Definition is_loop_call (c : call) : bool :=
  match c with receive_json | settings_get_secret => true | _ => false end.

(** The category an event of a trigger is about. *)
Definition event_name (ev : Scheduler.sched_event) : string :=
  match ev with
  | Scheduler.Starts a | Scheduler.Returns a | Scheduler.Raised a _ => Scheduler.await_name a
  | Scheduler.Cancelled n => n
  end.

(** The categories of the frequent trigger. *)
Definition frequent_names : list string := "sensors" :: Scheduler._classes_frequent.

(** The environment [E] with a connection that takes every message at
    once: [send_json] returns and leaves the state behind the calls as it
    is; every other call, the models and the constants are those of [E]. *)
Definition muted {X : Type} (E : Env X) : Env X :=
  {| ext := fun c =>
       match c as c0 return X -> X * result (ret_ty c0) with
       | send_json _ => fun x => (x, Ok tt)
       | c0 => ext E c0
       end;
     Request_ := Request_ E;
     UpdateModel_ := UpdateModel_ E;
     KeyboardKey_ := KeyboardKey_ E;
     KeyboardText_ := KeyboardText_ E;
     MediaControl_ := MediaControl_ E;
     Notification_ := Notification_ E;
     OpenPath_ := OpenPath_ E;
     OpenUrl_ := OpenUrl_ E;
     RegisterDataListener_ := RegisterDataListener_ E;
     GetData_ := GetData_ E;
     MediaGetFiles_ := MediaGetFiles_ E;
     MediaGetFile_ := MediaGetFile_ E;
     GetSetting_ := GetSetting_ E;
     RemoteBridge_ := RemoteBridge_ E;
     UpdateSetting_ := UpdateSetting_ E;
     TABLE_MAP_get := TABLE_MAP_get E;
     SETTING_AUTOSTART := SETTING_AUTOSTART E;
     int_of_str := int_of_str E;
     os_path_join := os_path_join E |}.

(** The entries of a trace that are not sends. *)
Definition without_sends (t : trace) : trace :=
  List.filter (fun ev => negb (is_send_json (ev_call ev))) t.

(** [m], run by a silenced session, does what [m'] does when run by an
    active one, the sends left out. *)
Definition silenced_like {X A : Type} (m m' : M X A) (w : World X) : Prop :=
  m (set_active false w) =
    {| o_world := set_active false (o_world (m' w));
       o_trace := without_sends (o_trace (m' w));
       o_result := o_result (m' w) |}.

(** More oracles and messages to run the handler on. *)
Module More.

(** The host rejects the key: [keyboard_keypress] raises [ValueError]. *)
Definition bad_key : call -> option exn :=
  fun c =>
    match c with
    | keyboard_keypress _ => Some {| exn_cls := ValueError; exn_msg := "Key not found" |}
    | _ => None
    end.

Definition key_fields : pydict := [("key", PStr "f13")].
Definition no_fields : pydict := [].
Definition bad_path_fields : pydict := [("path", PInt 1)].
Definition files_fields : pydict := [("base", PStr "music"); ("path", PStr "a")].
Definition autostart_fields : pydict := [("setting", PStr "autostart"); ("value", PInt 1)].
Definition cpu_fields : pydict := [("modules", PList [PStr "cpu"; PStr "nope"])].

(** A message that is not JSON. *)
Definition garbage : inbound :=
  {| in_set_active := None;
     in_receive := Raise {| exn_cls := JSONDecodeError; exn_msg := "Expecting value" |} |}.

(** A message during whose receive the owner silences the session. *)
Definition silenced (fields : pydict) : inbound :=
  {| in_set_active := Some false; in_receive := Ok (PDict fields) |}.

(** The notification callback raises for cpu. *)
Definition cpu_fails : string -> option exn :=
  fun name =>
    if String.eqb name "cpu"
    then Some {| exn_cls := ConnectionError; exn_msg := "closed" |}
    else None.

Definition nothing_fails : string -> option exn := fun _ => None.

End More.

(** ** Facts about the session *)

Ltac unfold_session :=
  unfold on_application_update, on_exit_application, on_keyboard_keypress,
    on_keyboard_text, on_media_control, on_notification, on_open,
    on_register_data_listener, on_unregister_data_listener, on_get_data,
    on_get_directories, on_get_files, on_get_file, on_get_settings,
    on_get_setting, on_get_remote_bridges, on_update_remote_bridge,
    on_update_setting, on_power, on_unknown_event, on_dispatch_error,
    on_receive_error, push_module,
    validated, no_value, no_base_path, join_path,
    bind, ret, raise, lift, try_except, try_finally,
    _send_response, perform, listeners_add_listener, listeners_remove_listener,
    Listeners.add, Listeners.remove.

Ltac atomic t :=
  lazymatch t with
  | context [match _ with _ => _ end] => fail
  | _ => idtac
  end.

Ltac case_step :=
  match goal with
  | |- context [ext ?E ?c ?x] =>
      let x' := fresh "x" in
      let r := fresh "r" in
      let e := fresh "e" in
      let Hx := fresh "Hext" in
      destruct (ext E c x) as [x' [r|e]] eqn:Hx
  | |- context [match ?t with _ => _ end] => atomic t; destruct t eqn:?
  end.

Ltac use_flag :=
  repeat match goal with
         | H : w_active ?w = _ |- context [w_active ?w] => rewrite H
         end.

Ltac finish := simpl; intros; try congruence; try reflexivity; try discriminate.

Ltac exec := unfold_session; repeat (simpl; use_flag; case_step); finish.

Lemma in_MODULES_In (module : string) : in_MODULES module = true <-> In module MODULES.
Proof.
  unfold in_MODULES. rewrite existsb_exists. split.
  - intros [x [Hx Heq]]. apply String.eqb_eq in Heq. now subst.
  - intros H. exists module. split; [assumption | apply String.eqb_refl].
Qed.

Lemma sent_app (t1 t2 : trace) : sent (t1 ++ t2) = sent t1 ++ sent t2.
Proof. unfold sent. apply omap_app. Qed.

Lemma errors_app (t1 t2 : trace) : errors (t1 ++ t2) = errors t1 ++ errors t2.
Proof. unfold errors. rewrite sent_app. apply List.filter_app. Qed.

Lemma found_app (t1 t2 : trace) : found (t1 ++ t2) = found t1 + found t2.
Proof. unfold found. rewrite List.filter_app. apply length_app. Qed.

Section SessionFacts.
Context {X : Type} (E : Env X).

Lemma send_when_active (r : Response) (w : World X) :
  w_active w = true -> _send_response E r w = perform E (send_json r) w.
Proof. intros H. unfold _send_response. now rewrite H. Qed.

Lemma perform_calls (c : call) (w : World X) :
  calls (o_trace (perform E c w)) = [c].
Proof. unfold perform. destruct (ext E c (w_ext w)) as [x r]. reflexivity. Qed.

Lemma bind_run {A B : Type} (m : M X A) (f : A -> M X B) (w : World X) :
  bind m f w =
    match o_result (m w) with
    | Ok a =>
        {| o_world := o_world (f a (o_world (m w)));
           o_trace := o_trace (m w) ++ o_trace (f a (o_world (m w)));
           o_result := o_result (f a (o_world (m w))) |}
    | Raise e =>
        {| o_world := o_world (m w); o_trace := o_trace (m w); o_result := Raise e |}
    end.
Proof.
  unfold bind. destruct (m w) as [w1 t1 [a|e]]; simpl; [|reflexivity].
  destruct (f a w1); reflexivity.
Qed.

Lemma handle_event_branch (listener_id : string) (data : pydict) (request : Request) :
  branch E listener_id data request (_handle_event E listener_id data request).
Proof.
  unfold _handle_event. cbv zeta.
  repeat match goal with
         | |- context [String.eqb ?a ?b] =>
             destruct (String.eqb_spec a b); [solve [constructor; assumption] | ]
         end.
  apply b_unknown_event. unfold known_events. simpl. intuition congruence.
Qed.

(** *** What every branch does *)

Lemma loop_facts (request : Request) (modules : list string) (w : World X) :
  let o := for_each modules (push_module E request) w in
  w_active (o_world o) = w_active w
  /\ errors (o_trace o) = []
  /\ (w_active w = true -> o_result o = Ok tt -> length (sent (o_trace o)) = found (o_trace o)).
Proof.
  revert w. induction modules as [|module rest IH]; intros w.
  - simpl. auto.
  - cbn [for_each]. rewrite bind_run.
    destruct (push_module E request module w) as [w1 t1 r1] eqn:Hpush.
    assert (Hfirst : w_active w1 = w_active w /\ errors t1 = [] /\
              (w_active w = true -> forall u, r1 = Ok u -> length (sent t1) = found t1)).
    { revert Hpush. destruct (w_active w) eqn:Ha; unfold errors, found; exec;
        match goal with H : Build_Outcome _ _ _ _ _ = Build_Outcome _ _ _ _ _ |- _ =>
          inversion H; subst; clear H end; simpl;
        repeat split; intros; try congruence; try discriminate; auto. }
    destruct Hfirst as (Hflag & Herr & Hcount).
    destruct r1 as [u|e]; cbn [o_world o_trace o_result].
    + specialize (IH w1). destruct (for_each rest (push_module E request) w1) as [w2 t2 r2].
      cbn [o_world o_trace o_result] in *. destruct IH as (IHflag & IHerr & IHcount).
      rewrite errors_app, sent_app, found_app, length_app, Herr, IHerr.
      repeat split; [congruence | ].
      intros Ha Hr. rewrite (Hcount Ha u eq_refl), IHcount; congruence.
    + repeat split; auto. intros _ Hr. discriminate.
Qed.

Lemma get_data_facts (data : pydict) (request : Request) (w : World X) :
  let o := on_get_data E data request w in
  w_active (o_world o) = w_active w
  /\ (forall e, o_result o = Raise e -> errors (o_trace o) = [])
  /\ (w_active w = true -> o_result o = Ok tt ->
      length (sent (o_trace o)) = 1 + found (o_trace o)).
Proof.
  unfold on_get_data, validated.
  destruct (GetData_ E data) as [model|e0].
  2: { cbv zeta. destruct (w_active w) eqn:Ha; unfold errors, found; exec;
       repeat split; intros; try congruence; try discriminate. }
  destruct (no_modules (gd_modules model)).
  { cbv zeta. destruct (w_active w) eqn:Ha; unfold errors, found; exec;
       repeat split; intros; try congruence; try discriminate. }
  cbv zeta. rewrite bind_run.
  pose proof (loop_facts request (the_modules (gd_modules model))) as L.
  destruct (w_active w) eqn:Ha; unfold _send_response, perform, ret; rewrite Ha; simpl.
  - destruct (ext E _ (w_ext w)) as [x [u|e]]; cbn [o_world o_trace o_result outcome].
    + match goal with |- context [for_each _ _ ?w1] => specialize (L w1) end.
      destruct (for_each _ _ _) as [w2 t2 r2]. cbn [o_world o_trace o_result w_active] in *.
      destruct L as (Lflag & Lerr & Lcount).
      repeat split; [assumption | | ].
      * intros e _. rewrite errors_app, Lerr. reflexivity.
      * intros _ Hr. rewrite sent_app, found_app, length_app, (Lcount eq_refl Hr).
        reflexivity.
    + repeat split; intros; try reflexivity; try discriminate; try assumption.
  - match goal with |- context [for_each _ _ ?w1] => specialize (L w1) end.
    destruct (for_each _ _ _) as [w2 t2 r2]. cbn [o_world o_trace o_result w_active] in *.
    destruct L as (Lflag & Lerr & Lcount).
    repeat split; intros; try congruence; try discriminate; try assumption.
Qed.

Lemma branch_keeps_flag (listener_id : string) (data : pydict) (request : Request)
    (m : M X unit) :
  branch E listener_id data request m -> keeps_flag m.
Proof.
  intros Hb w. destruct Hb;
    try (apply (get_data_facts data request w));
    destruct (w_active w) eqn:Ha; exec.
Qed.

Lemma branch_quiet (listener_id : string) (data : pydict) (request : Request)
    (m : M X unit) :
  branch E listener_id data request m -> quiet m.
Proof.
  intros Hb w. destruct Hb;
    try (apply (get_data_facts data request w));
    destruct (w_active w) eqn:Ha; unfold errors; exec.
Qed.

Lemma unknown_event_tags (event : string) :
  ~ In event known_events ->
  String.eqb event TYPE_EXIT_APPLICATION = false
  /\ String.eqb event TYPE_MEDIA_CONTROL = false
  /\ String.eqb event TYPE_GET_DATA = false.
Proof.
  intros H. repeat split; apply String.eqb_neq; intros ->; apply H;
    unfold known_events; simpl; tauto.
Qed.

Lemma branch_counts (listener_id : string) (data : pydict) (request : Request)
    (m : M X unit) (w : World X) :
  branch E listener_id data request m ->
  w_active w = true ->
  o_result (m w) = Ok tt ->
  length (sent (o_trace (m w))) =
    if String.eqb (req_event request) TYPE_EXIT_APPLICATION then 0
    else if String.eqb (req_event request) TYPE_MEDIA_CONTROL then
      (if media_control_ok E data then 0 else 1)
    else if String.eqb (req_event request) TYPE_GET_DATA then 1 + found (o_trace (m w))
    else 1.
Proof.
  intros Hb Ha. destruct Hb as [H|H|H|H|H|H|H|H|H|H|H|H|H|H|H|H|H|H|H|H|H|H|H|H|H].
  25: { destruct (unknown_event_tags _ H) as (-> & -> & ->). exec. }
  all: rewrite H; cbn [String.eqb Ascii.eqb Bool.eqb TYPE_EXIT_APPLICATION TYPE_MEDIA_CONTROL
                        TYPE_GET_DATA TYPE_APPLICATION_UPDATE].
  all: try (apply (get_data_facts data request w); assumption).
  all: unfold media_control_ok, needs_value; exec.
Qed.

End SessionFacts.

Section HandlerFacts.
Context {X : Type} (E : Env X).

Lemma api_key_differs_iff (given : option string) (api_key : string) :
  api_key_differs given api_key = false <-> given = Some api_key.
Proof.
  unfold api_key_differs. destruct given as [k|]; [|split; discriminate].
  rewrite negb_false_iff, String.eqb_eq. split; congruence.
Qed.

(** The world the body of the loop works in once [receive_json] has
    returned. *)
Lemma receive_keeps_active (item : inbound) (w : World X) :
  w_active w = true -> in_set_active item <> Some false ->
  o_world (receive item w) =
    {| w_active := true; w_listeners := w_listeners w; w_ext := w_ext w |}.
Proof.
  intros Ha Hs. unfold receive. simpl.
  destruct (in_set_active item) as [[|]|]; try congruence; unfold set_active;
    destruct w; simpl in *; congruence.
Qed.

(** The body of the loop up to the comparison of the api key. *)
Lemma handler_body_authenticates (listener_id : string) (item : inbound) (w : World X)
    (data : pydict) (request : Request) (api_key : string) (x1 : X) :
  w_active w = true ->
  in_set_active item <> Some false ->
  in_receive item = Ok (PDict data) ->
  Request_ E data = Ok request ->
  ext E settings_get_secret (w_ext w) = (x1, Ok api_key) ->
  _handler_body E listener_id item w =
    let w1 := {| w_active := true; w_listeners := w_listeners w; w_ext := x1 |} in
    let rest :=
      (if api_key_differs (req_api_key request) api_key then
         _send_response E
           (error_response (req_id request) SUBTYPE_BAD_API_KEY "Invalid api-key" []) ;;
         ret false
       else
         try_except (_handle_event E listener_id data request) is_Exception
           (on_dispatch_error E request) ;;
         ret true) w1 in
    {| o_world := o_world rest;
       o_trace := [Called receive_json (Ok (PDict data));
                   Called settings_get_secret (Ok (PStr api_key))] ++ o_trace rest;
       o_result := o_result rest |}.
Proof.
  intros Ha Hs Hrecv Hreq Hsecret.
  assert (Hw : match in_set_active item with
               | Some active => set_active active w
               | None => w
               end = {| w_active := true; w_listeners := w_listeners w; w_ext := w_ext w |}).
  { destruct (in_set_active item) as [[|]|]; try congruence; unfold set_active;
      destruct w; simpl in *; congruence. }
  unfold _handler_body, receive. unfold_session. cbv zeta.
  rewrite Hw, Hrecv. simpl. rewrite Hreq. simpl. rewrite Hsecret. simpl.
  repeat (simpl; case_step); reflexivity.
Qed.

Lemma handler_cons (listener_id : string) (item : inbound) (rest : list inbound)
    (w : World X) :
  w_active w = true ->
  _handler E listener_id (item :: rest) w =
    bind (_handler_body E listener_id item)
         (fun continue => if continue then _handler E listener_id rest else ret tt) w.
Proof. intros Ha. cbn [_handler]. now rewrite Ha. Qed.

End HandlerFacts.

(** C3.  A message that decodes into a request whose api key is not the
    configured secret: the session makes one send, the [bad_api_key] error
    with the id of the request; the loop ends there, whatever is left in the
    inbox; nothing is dispatched and the registry is as it was. *)
Theorem bad_api_key_ends_session :
  forall (X : Type) (E : Env X) (listener_id : string) (item : inbound)
         (rest : list inbound) (w : World X) (data : pydict) (request : Request)
         (api_key : string) (x1 : X),
    w_active w = true ->
    in_set_active item <> Some false ->
    in_receive item = Ok (PDict data) ->
    Request_ E data = Ok request ->
    ext E settings_get_secret (w_ext w) = (x1, Ok api_key) ->
    req_api_key request <> Some api_key ->
    let o := _handler E listener_id (item :: rest) w in
    let response :=
      error_response (req_id request) SUBTYPE_BAD_API_KEY "Invalid api-key" [] in
    calls (o_trace o) = [receive_json; settings_get_secret; send_json response]
    /\ (o_result o = Ok tt -> sent (o_trace o) = [response])
    /\ w_listeners (o_world o) = w_listeners w
    /\ (forall rest', _handler E listener_id (item :: rest') w = o).
Proof.
  intros X E listener_id item rest w data request api_key x1
         Ha Hs Hrecv Hreq Hsecret Hkey o response.
  assert (Hdiff : api_key_differs (req_api_key request) api_key = true).
  { destruct (api_key_differs (req_api_key request) api_key) eqn:Hd; [reflexivity|].
    apply api_key_differs_iff in Hd. contradiction. }
  assert (Hrun : forall rest0,
    _handler E listener_id (item :: rest0) w =
      let s := _send_response E response
                 {| w_active := true; w_listeners := w_listeners w; w_ext := x1 |} in
      {| o_world := o_world s;
         o_trace := [Called receive_json (Ok (PDict data));
                     Called settings_get_secret (Ok (PStr api_key))] ++ o_trace s;
         o_result := o_result s |}).
  { intros rest0. rewrite handler_cons by assumption. rewrite bind_run.
    rewrite (handler_body_authenticates E listener_id item w data request api_key x1)
      by assumption.
    cbv zeta. rewrite Hdiff. rewrite bind_run. fold response.
    destruct (_send_response E response _) as [w2 t2 [u|e]]; simpl; [|reflexivity].
    rewrite !app_nil_r. destruct u. reflexivity. }
  subst o. repeat split.
  - rewrite Hrun. unfold _send_response, perform. simpl.
    destruct (ext E _ x1) as [x2 r]. reflexivity.
  - rewrite Hrun. unfold _send_response, perform. simpl.
    destruct (ext E _ x1) as [x2 [u|e]]; simpl; [reflexivity | discriminate].
  - rewrite Hrun. unfold _send_response, perform. simpl.
    destruct (ext E _ x1) as [x2 r]. reflexivity.
  - intros rest'. now rewrite !Hrun.
Qed.

(** C4.  An authenticated request whose dispatch raises an exception (a
    subclass of [Exception]) on an active session whose connection takes the
    reply: the session sends the [unknown_event] error with the text of the
    exception and the id of the request, it is the only error response of
    that pass of the loop, and the loop goes on with the next message. *)
Theorem dispatch_exception_is_reported :
  forall (X : Type) (E : Env X) (listener_id : string) (item : inbound)
         (rest : list inbound) (w : World X) (data : pydict) (request : Request)
         (api_key : string) (x1 x3 : X) (w2 : World X) (t : trace) (e : exn),
    w_active w = true ->
    in_set_active item <> Some false ->
    in_receive item = Ok (PDict data) ->
    Request_ E data = Ok request ->
    ext E settings_get_secret (w_ext w) = (x1, Ok api_key) ->
    req_api_key request = Some api_key ->
    _handle_event E listener_id data request
      {| w_active := true; w_listeners := w_listeners w; w_ext := x1 |} =
      {| o_world := w2; o_trace := t; o_result := Raise e |} ->
    is_Exception e = true ->
    let response := error_response (req_id request) SUBTYPE_UNKNOWN_EVENT (str e) [] in
    ext E (send_json response) (w_ext w2) = (x3, Ok tt) ->
    let o := _handler E listener_id (item :: rest) w in
    let next :=
      _handler E listener_id rest
        {| w_active := true; w_listeners := w_listeners w2; w_ext := x3 |} in
    o_trace o =
      [Called receive_json (Ok (PDict data));
       Called settings_get_secret (Ok (PStr api_key))]
      ++ t ++ [Called (send_json response) (Ok PNone)] ++ o_trace next
    /\ o_result o = o_result next
    /\ o_world o = o_world next
    /\ errors (t ++ [Called (send_json response) (Ok PNone)]) = [response].
Proof.
  intros X E listener_id item rest w data request api_key x1 x3 w2 t e
         Ha Hs Hrecv Hreq Hsecret Hkey Hdispatch Hexn response Hsend o next.
  assert (Hsame : api_key_differs (req_api_key request) api_key = false)
    by now apply api_key_differs_iff.
  pose proof (branch_keeps_flag E listener_id data request _
                (handle_event_branch E listener_id data request)
                {| w_active := true; w_listeners := w_listeners w; w_ext := x1 |}) as Hflag.
  pose proof (branch_quiet E listener_id data request _
                (handle_event_branch E listener_id data request)
                {| w_active := true; w_listeners := w_listeners w; w_ext := x1 |} e) as Hquiet.
  rewrite Hdispatch in Hflag, Hquiet. cbn [o_world o_trace o_result w_active] in Hflag, Hquiet.
  specialize (Hquiet eq_refl).
  subst o. rewrite handler_cons by assumption. rewrite bind_run.
  rewrite (handler_body_authenticates E listener_id item w data request api_key x1)
    by assumption.
  cbv zeta. rewrite Hsame. rewrite bind_run. unfold try_except. rewrite Hdispatch, Hexn.
  unfold on_dispatch_error, _send_response, perform. fold response.
  rewrite Hflag. simpl. rewrite Hsend. simpl.
  fold next. destruct next as [w4 t4 r4]. simpl.
  repeat split.
  - rewrite app_nil_r, <- !app_assoc. reflexivity.
  - rewrite errors_app, Hquiet. reflexivity.
Qed.

(** C5.  Whatever the inbox holds and however [_handler] ends, [handler]
    ends by calling [remove_listener] for its own id: the id holds no
    registration afterwards, and no later notification is delivered to it. *)
Theorem handler_always_unregisters :
  forall (X : Type) (E : Env X) (listener_id : string) (inbox : list inbound)
         (w : World X),
    let o := handler E listener_id inbox w in
    (exists (t : trace) (existed : bool),
        o_trace o = t ++ [Called (remove_listener listener_id) (Ok (PBool existed))])
    /\ w_listeners (o_world o) !! listener_id = None
    /\ (forall category : string,
          ~ In listener_id (Listeners.notified category (w_listeners (o_world o)))).
Proof.
  intros X E listener_id inbox w o.
  assert (Hshape : exists w1 t1 r1 existed,
    o = {| o_world := {| w_active := w_active w1;
                         w_listeners := (Listeners.remove listener_id (w_listeners w1)).1;
                         w_ext := w_ext w1 |};
           o_trace := t1 ++ [Called (remove_listener listener_id) (Ok (PBool existed))];
           o_result := r1 |}).
  { subst o. unfold handler, try_finally.
    destruct (try_except _ _ _ w) as [w1 t1 r1].
    rewrite bind_run. unfold listeners_remove_listener.
    destruct (Listeners.remove listener_id (w_listeners w1)) as [reg existed] eqn:Hrm.
    simpl. exists w1, t1, r1, existed. rewrite ?app_nil_r, Hrm. reflexivity. }
  destruct Hshape as (w1 & t1 & r1 & existed & ->). simpl.
  assert (Hgone : (Listeners.remove listener_id (w_listeners w1)).1 !! listener_id = None).
  { unfold Listeners.remove. destruct (w_listeners w1 !! listener_id) eqn:Hl; simpl.
    - apply lookup_delete_eq.
    - assumption. }
  split; [eauto | split; [assumption | ]].
  intros category Hin. unfold Listeners.notified in Hin.
  apply in_map_iff in Hin. destruct Hin as ([k v] & Hk & Hin). simpl in Hk. subst k.
  apply list_elem_of_In, list_elem_of_filter in Hin. destruct Hin as [_ Hin].
  apply elem_of_map_to_list in Hin. congruence.
Qed.

(** The exit paths of [handler] on a session that holds a registration. *)

Example exit_when_the_connection_is_gone :
  let o := handler (Demo.env Demo.closed) "L"
             [Demo.message (Samples.envelope "1" TYPE_GET_SETTINGS "K" [])]
             Demo.registered in
  calls (o_trace o) =
    [ receive_json; settings_get_secret; settings_get_all;
      send_json (reply (Some "1") TYPE_SETTINGS_RESULT (Some "Got settings")
                   [(EVENT_DATA, PNone)]);
      send_json (error_response (Some "1") SUBTYPE_UNKNOWN_EVENT "closed" []);
      remove_listener "L" ]
  /\ sent (o_trace o) = []
  /\ o_result o = Ok tt
  /\ w_listeners (o_world o) !! "L" = None.
Proof. vm_compute. repeat split. Qed.

Example exit_when_the_owner_silences_the_session :
  let o := handler (Demo.env Demo.fine) "L"
             [ {| in_set_active := Some false;
                  in_receive := Ok (PDict (Samples.envelope "1" TYPE_GET_SETTINGS "K" [])) |};
               Demo.message (Samples.envelope "2" TYPE_GET_SETTINGS "K" []) ]
             Demo.registered in
  calls (o_trace o) =
    [receive_json; settings_get_secret; settings_get_all; remove_listener "L"]
  /\ o_result o = Ok tt
  /\ w_listeners (o_world o) !! "L" = None.
Proof. vm_compute. repeat split. Qed.

Example exit_on_a_message_that_is_not_json :
  let o := handler (Demo.env Demo.fine) "L"
             [ {| in_set_active := None;
                  in_receive := Raise {| exn_cls := JSONDecodeError;
                                         exn_msg := "Expecting value" |} |} ]
             Demo.registered in
  calls (o_trace o) =
    [ receive_json;
      send_json (error_response None SUBTYPE_BAD_JSON "Invalid JSON: Expecting value" []);
      remove_listener "L" ]
  /\ o_result o = Ok tt
  /\ w_listeners (o_world o) !! "L" = None.
Proof. vm_compute. repeat split. Qed.

Example exit_on_an_exception_nobody_catches :
  let o := handler (Demo.env Demo.fine) "L"
             [ {| in_set_active := None; in_receive := Ok (PList []) |} ]
             Demo.registered in
  calls (o_trace o) = [receive_json; remove_listener "L"]
  /\ o_result o = Raise {| exn_cls := TypeError;
                           exn_msg := "argument after ** must be a mapping" |}
  /\ w_listeners (o_world o) !! "L" = None.
Proof. vm_compute. repeat split. Qed.

Example exit_when_the_peer_disconnects :
  let o := handler (Demo.env Demo.fine) "L" [] Demo.registered in
  calls (o_trace o) = [receive_json; remove_listener "L"]
  /\ o_result o = Ok tt
  /\ w_listeners (o_world o) !! "L" = None.
Proof. vm_compute. repeat split. Qed.


Ltac pick_branch H := unfold _handle_event; cbv zeta; rewrite H; reflexivity.

Ltac settle :=
  simpl; repeat split; intros;
  repeat match goal with
         | H : In _ (_ :: _) |- _ => destruct H as [H|H]; [subst|]
         | H : In _ [] |- _ => destruct H
         | H : False |- _ => destruct H
         | H : _ = _ \/ _ |- _ => destruct H as [H|H]; [subst|]
         | H : Called _ _ = Called _ _ |- _ => inversion H; subst; clear H
         | H : send_json _ = send_json _ |- _ => inversion H; subst; clear H
         | H : send_json _ = _ |- _ => discriminate H
         | H : _ = send_json _ |- _ => discriminate H
         end;
  simpl in *; try congruence; try reflexivity; try discriminate; auto.

(** C8.  A register-data-listener request whose validated model has no
    modules ([None], or an empty list) on an active session: the dispatcher
    makes exactly one call, the send of the [missing_modules] error with the
    id of the request; [add_listener] is not called and the registry is as
    it was. *)
Theorem register_without_modules_is_rejected :
  forall (X : Type) (E : Env X) (listener_id : string) (data : pydict)
         (request : Request) (model : RegisterDataListener) (w : World X),
    req_event request = TYPE_REGISTER_DATA_LISTENER ->
    RegisterDataListener_ E data = Ok model ->
    rdl_modules model = None \/ rdl_modules model = Some [] ->
    w_active w = true ->
    let o := _handle_event E listener_id data request w in
    let response :=
      error_response (req_id request) SUBTYPE_MISSING_MODULES "No modules provided" [] in
    calls (o_trace o) = [send_json response]
    /\ (o_result o = Ok tt -> sent (o_trace o) = [response])
    /\ (forall c, In c (calls (o_trace o)) -> is_add_listener c = false)
    /\ w_listeners (o_world o) = w_listeners w.
Proof.
  intros X E listener_id data request model w Hev Hmodel Hmods Ha o response.
  assert (Hb : _handle_event E listener_id data request =
               on_register_data_listener E listener_id data request) by pick_branch Hev.
  subst o response. rewrite Hb. unfold on_register_data_listener, validated.
  rewrite Hmodel.
  assert (Hno : no_modules (rdl_modules model) = true)
    by (destruct Hmods as [-> | ->]; reflexivity).
  rewrite Hno. unfold _send_response, perform. rewrite Ha. simpl.
  destruct (ext E _ (w_ext w)) as [x [u|e]]; settle.
Qed.

(** C10.  An open request on an active session.  When the message has both
    a path and a url, the url is never opened; if the path validates and the
    branch returns, the calls are [open_path] and the send of the [opened]
    response that echoes the path, and that response is the only one.  A
    [missing_path_url] error is sent only when the message has neither, and
    then it is the only call. *)
Theorem open_prefers_path :
  forall (X : Type) (E : Env X) (listener_id : string) (data : pydict)
         (request : Request) (w : World X),
    req_event request = TYPE_OPEN ->
    w_active w = true ->
    let o := _handle_event E listener_id data request w in
    (dict_has "path" data = true -> dict_has "url" data = true ->
     (forall c, In c (calls (o_trace o)) -> is_open_url c = false)
     /\ (forall model, OpenPath_ E data = Ok model -> o_result o = Ok tt ->
         let response :=
           reply (req_id request) TYPE_OPENED (Some "Path opened")
             [(EVENT_PATH, PStr (op_path model))] in
         calls (o_trace o) = [open_path (op_path model); send_json response]
         /\ sent (o_trace o) = [response]))
    /\ (forall r, In (send_json r) (calls (o_trace o)) ->
        r_subtype r = Some SUBTYPE_MISSING_PATH_URL ->
        dict_has "path" data = false /\ dict_has "url" data = false)
    /\ (dict_has "path" data = false -> dict_has "url" data = false ->
        calls (o_trace o) =
          [send_json (error_response (req_id request) SUBTYPE_MISSING_PATH_URL
                        "No path or url provided" [])]).
Proof.
  intros X E listener_id data request w Hev Ha o.
  assert (Hb : _handle_event E listener_id data request = on_open E data request)
    by pick_branch Hev.
  subst o. rewrite Hb. clear Hb.
  unfold on_open, validated.
  destruct (dict_has "path" data) eqn:Hpath; [|destruct (dict_has "url" data) eqn:Hurl].
  - split; [intros _ _; split | split; [| intros; discriminate]].
    + intros c. exec; settle.
    + intros model Hmodel. rewrite Hmodel. exec; settle.
    + intros r. exec; settle.
  - split; [intros; discriminate | split; [| intros; discriminate]].
    intros r. exec; settle.
  - split; [intros; discriminate | split; [auto |]].
    intros _ _. exec; settle.
Qed.

(** C2, as amended.  A media-control request whose action is in the
    enumeration, with the value the action takes (for seek and repeat a
    value that [int] converts): the only call of the dispatch is the
    matching transport-control call, and no response is sent. *)
Theorem media_control_invokes_action_without_reply :
  forall (X : Type) (E : Env X) (listener_id : string) (data : pydict)
         (request : Request) (model : MediaControl) (a : MediaAction) (c : call)
         (w : World X),
    req_event request = TYPE_MEDIA_CONTROL ->
    MediaControl_ E data = Ok model ->
    mc_action model = Some (Member a) ->
    matching_control E a (mc_value model) = Some c ->
    let o := _handle_event E listener_id data request w in
    calls (o_trace o) = [c] /\ sent (o_trace o) = [].
Proof.
  intros X E listener_id data request model a c w Hev Hmodel Haction Hmatch o.
  assert (Hb : _handle_event E listener_id data request = on_media_control E data request)
    by pick_branch Hev.
  subst o. rewrite Hb. clear Hb.
  unfold on_media_control, validated. rewrite Hmodel, Haction.
  unfold matching_control in Hmatch.
  destruct a; try destruct (mc_value model) as [v|]; try discriminate;
    try destruct (py_int (int_of_str E) v) as [z|e0]; try discriminate;
    inversion Hmatch; subst; clear Hmatch;
    unfold bind, lift, ret, perform; simpl;
    destruct (ext E _ (w_ext w)) as [x [u|e]]; split; reflexivity.
Qed.

(** C1, as amended.  A request dispatched on an active session whose
    dispatch returns is answered by exactly one response (register and
    unregister success included), except that exit-application is answered
    by none, media-control with a valid action (and its value) by none, and
    get-data by one response plus one push for each read of the Store that
    found rows. *)
Theorem dispatch_response_count :
  forall (X : Type) (E : Env X) (listener_id : string) (data : pydict)
         (request : Request) (w : World X),
    w_active w = true ->
    o_result (_handle_event E listener_id data request w) = Ok tt ->
    length (sent (o_trace (_handle_event E listener_id data request w))) =
      if String.eqb (req_event request) TYPE_EXIT_APPLICATION then 0
      else if String.eqb (req_event request) TYPE_MEDIA_CONTROL then
        (if media_control_ok E data then 0 else 1)
      else if String.eqb (req_event request) TYPE_GET_DATA then
        1 + found (o_trace (_handle_event E listener_id data request w))
      else 1.
Proof.
  intros X E listener_id data request w Ha Hr.
  apply (branch_counts E listener_id data request); try assumption.
  apply handle_event_branch.
Qed.

(** C9.  When the registry calls [_data_changed] of an active session: for
    a module of [MODULES] the session makes exactly one call, the send of a
    [data-update] response with the module name and the data; for any other
    module it does nothing. *)
Theorem data_changed_pushes_known_modules_only :
  forall (X : Type) (E : Env X) (module : string) (data : pyval) (w : World X),
    w_active w = true ->
    (In module MODULES ->
     let response :=
       reply None TYPE_DATA_UPDATE (Some "Data changed")
         [(EVENT_MODULE, PStr module); (EVENT_DATA, data)] in
     calls (o_trace (_data_changed E module data w)) = [send_json response]
     /\ (o_result (_data_changed E module data w) = Ok tt ->
         sent (o_trace (_data_changed E module data w)) = [response]))
    /\ (~ In module MODULES -> _data_changed E module data w = ret tt w).
Proof.
  intros X E module data w Hactive. unfold _data_changed. split; intros Hin.
  - apply in_MODULES_In in Hin. rewrite Hin. simpl.
    unfold _send_response, perform. rewrite Hactive. simpl.
    destruct (ext E _ (w_ext w)) as [x [u|e]]; simpl; split;
      intros; try reflexivity; discriminate.
  - destruct (in_MODULES module) eqn:Hm; [|reflexivity].
    apply in_MODULES_In in Hm. contradiction.
Qed.

(** C9 at a change of cpu on an active session. *)
Lemma data_changed_pushes_known_modules_only_witness :
  calls (o_trace (_data_changed (Demo.env Demo.fine) "cpu" (PInt 7) (Demo.world true))) =
    [send_json (reply None TYPE_DATA_UPDATE (Some "Data changed")
                  [(EVENT_MODULE, PStr "cpu"); (EVENT_DATA, PInt 7)])].
Proof.
  refine (proj1 (proj1 (data_changed_pushes_known_modules_only unit (Demo.env Demo.fine)
                   "cpu" (PInt 7) (Demo.world true) _) _)).
  - reflexivity.
  - simpl. tauto.
Defined.

(** C8 at a request with an empty list of modules. *)
Lemma register_without_modules_is_rejected_witness :
  w_listeners
    (o_world (_handle_event (Demo.env Demo.fine) "L" Samples.no_modules_fields
                (Demo.request "1" TYPE_REGISTER_DATA_LISTENER) (Demo.world true))) = ∅.
Proof.
  refine (proj2 (proj2 (proj2
    (register_without_modules_is_rejected unit (Demo.env Demo.fine) "L"
       Samples.no_modules_fields (Demo.request "1" TYPE_REGISTER_DATA_LISTENER)
       {| rdl_modules := Some [] |} (Demo.world true) _ _ _ _)))).
  - reflexivity.
  - reflexivity.
  - right. reflexivity.
  - reflexivity.
Defined.

(** C10 at a request with both a path and a url. *)
Lemma open_prefers_path_witness :
  sent (o_trace (_handle_event (Demo.env Demo.fine) "L" Samples.open_fields
                   (Demo.request "1" TYPE_OPEN) (Demo.world true))) =
    [reply (Some "1") TYPE_OPENED (Some "Path opened")
       [(EVENT_PATH, PStr "/music/a.mp3")]].
Proof.
  refine (proj2 (proj2 (proj1
    (open_prefers_path unit (Demo.env Demo.fine) "L" Samples.open_fields
       (Demo.request "1" TYPE_OPEN) (Demo.world true) _ _) _ _)
       {| op_path := "/music/a.mp3" |} _ _)).
  all: reflexivity.
Defined.

(** C2, as amended, at the action play. *)
Lemma media_control_invokes_action_without_reply_witness :
  calls (o_trace (_handle_event (Demo.env Demo.fine) "L" Samples.play_fields
                    (Demo.request "1" TYPE_MEDIA_CONTROL) (Demo.world true))) =
    [control_play]
  /\ sent (o_trace (_handle_event (Demo.env Demo.fine) "L" Samples.play_fields
                      (Demo.request "1" TYPE_MEDIA_CONTROL) (Demo.world true))) = [].
Proof.
  refine (media_control_invokes_action_without_reply unit (Demo.env Demo.fine) "L"
            Samples.play_fields (Demo.request "1" TYPE_MEDIA_CONTROL)
            {| mc_action := Some (Member play); mc_value := None |} play control_play
            (Demo.world true) _ _ _ _).
  all: reflexivity.
Defined.

(** C1, as amended, at a get-data request for cpu and disk, of which the
    Store has cpu only. *)
Lemma dispatch_response_count_witness :
  length (sent (o_trace (_handle_event (Demo.env Demo.fine) "L" Samples.register_fields
                           (Demo.request "1" TYPE_GET_DATA) (Demo.world true)))) = 2.
Proof.
  refine (dispatch_response_count unit (Demo.env Demo.fine) "L" Samples.register_fields
            (Demo.request "1" TYPE_GET_DATA) (Demo.world true) _ _).
  all: reflexivity.
Defined.

(** C3 at a request with a wrong key followed by one with the right key. *)
Lemma bad_api_key_ends_session_witness :
  calls (o_trace (_handler (Demo.env Demo.fine) "L"
                    [Demo.message (Samples.envelope "3" TYPE_EXIT_APPLICATION "bad" []);
                     Demo.message (Samples.envelope "4" TYPE_EXIT_APPLICATION "K" [])]
                    (Demo.world true))) =
    [receive_json; settings_get_secret;
     send_json (error_response (Some "3") SUBTYPE_BAD_API_KEY "Invalid api-key" [])].
Proof.
  refine (proj1
    (bad_api_key_ends_session unit (Demo.env Demo.fine) "L"
       (Demo.message (Samples.envelope "3" TYPE_EXIT_APPLICATION "bad" []))
       [Demo.message (Samples.envelope "4" TYPE_EXIT_APPLICATION "K" [])]
       (Demo.world true)
       (Samples.envelope "3" TYPE_EXIT_APPLICATION "bad" [])
       {| req_id := Some "3"; req_event := TYPE_EXIT_APPLICATION; req_api_key := Some "bad" |}
       "K" tt _ _ _ _ _ _)).
  - reflexivity.
  - discriminate.
  - reflexivity.
  - reflexivity.
  - reflexivity.
  - discriminate.
Defined.

(** C4 at a seek whose value is not a number: [int] raises in the
    dispatch. *)
Lemma dispatch_exception_is_reported_witness :
  o_trace (_handler (Demo.env Demo.fine) "L"
             [Demo.message (Samples.envelope "2" TYPE_MEDIA_CONTROL "K" Samples.seek_fields)]
             (Demo.world true)) =
    [Called receive_json
       (Ok (PDict (Samples.envelope "2" TYPE_MEDIA_CONTROL "K" Samples.seek_fields)));
     Called settings_get_secret (Ok (PStr "K"))]
    ++ [] ++
    [Called (send_json (error_response (Some "2") SUBTYPE_UNKNOWN_EVENT
                          "invalid literal for int() with base 10: 'abc'" []))
            (Ok PNone)]
    ++ o_trace (_handler (Demo.env Demo.fine) "L" [] (Demo.world true)).
Proof.
  refine (proj1
    (dispatch_exception_is_reported unit (Demo.env Demo.fine) "L"
       (Demo.message (Samples.envelope "2" TYPE_MEDIA_CONTROL "K" Samples.seek_fields))
       [] (Demo.world true)
       (Samples.envelope "2" TYPE_MEDIA_CONTROL "K" Samples.seek_fields)
       (Demo.request "2" TYPE_MEDIA_CONTROL) "K" tt tt (Demo.world true) []
       {| exn_cls := ValueError;
          exn_msg := "invalid literal for int() with base 10: 'abc'" |}
       _ _ _ _ _ _ _ _ _)).
  - reflexivity.
  - discriminate.
  - reflexivity.
  - reflexivity.
  - reflexivity.
  - reflexivity.
  - reflexivity.
  - reflexivity.
  - reflexivity.
Defined.

(** C1, counterexample.  An exit-application request is answered by no
    response, and a successful register-data-listener request by one. *)
Lemma exit_application_sends_no_response :
  o_result (_handle_event (Demo.env Demo.fine) "L" []
              (Demo.request "1" TYPE_EXIT_APPLICATION) (Demo.world true)) = Ok tt
  /\ sent (o_trace (_handle_event (Demo.env Demo.fine) "L" []
                      (Demo.request "1" TYPE_EXIT_APPLICATION) (Demo.world true))) = []
  /\ o_result (_handle_event (Demo.env Demo.fine) "L" Samples.register_fields
                 (Demo.request "2" TYPE_REGISTER_DATA_LISTENER) (Demo.world true)) = Ok tt
  /\ sent (o_trace (_handle_event (Demo.env Demo.fine) "L" Samples.register_fields
                      (Demo.request "2" TYPE_REGISTER_DATA_LISTENER) (Demo.world true))) =
       [reply (Some "2") TYPE_DATA_LISTENER_REGISTERED (Some "Data listener registered")
          [(EVENT_MODULES, PList [PStr "cpu"; PStr "disk"])]].
Proof. vm_compute. repeat split. Qed.

(** C2, counterexample.  A media-control request with action play calls
    [control_play], returns, and sends no response. *)
Lemma media_control_play_is_not_acknowledged :
  o_trace (_handle_event (Demo.env Demo.fine) "L" Samples.play_fields
             (Demo.request "1" TYPE_MEDIA_CONTROL) (Demo.world true)) =
    [Called control_play (Ok PNone)]
  /\ o_result (_handle_event (Demo.env Demo.fine) "L" Samples.play_fields
                 (Demo.request "1" TYPE_MEDIA_CONTROL) (Demo.world true)) = Ok tt
  /\ sent (o_trace (_handle_event (Demo.env Demo.fine) "L" Samples.play_fields
                      (Demo.request "1" TYPE_MEDIA_CONTROL) (Demo.world true))) = [].
Proof. vm_compute. repeat split. Qed.

(** ** Facts about the scheduler *)

Import Scheduler.

Section SchedulerFacts.
Variable collector : string -> option exn.
Variable callback : string -> option exn.

#[local] Abbreviation step_task := (step_task collector callback).
#[local] Abbreviation steps := (steps collector callback).
#[local] Abbreviation completes := (completes collector callback).
#[local] Abbreviation run_code := (run_code collector callback).
#[local] Abbreviation gather := (gather collector callback).
#[local] Abbreviation linger := (linger collector callback).
#[local] Abbreviation drain := (drain collector callback).

(** The six ways a task of [_update] steps. *)
Lemma step_task_cases (t : task) (ev : sched_event) (r : option exn) (t' : task) :
  shaped t -> step_task t = Some (ev, r, t') ->
  t_name t' = t_name t /\
  ( (fresh t /\ ev = Starts (update_all_data (t_name t)) /\ r = None
     /\ t_code t' = _update (t_name t) /\ t_started t' = true)
  \/ (t_code t = _update (t_name t) /\ t_started t = true
      /\ collector (t_name t) = None
      /\ ev = Returns (update_all_data (t_name t)) /\ r = None
      /\ t_code t' = [updated_callback (t_name t)] /\ t_started t' = false)
  \/ (t_code t = _update (t_name t) /\ t_started t = true
      /\ exists e, collector (t_name t) = Some e
      /\ ev = Raised (update_all_data (t_name t)) e /\ r = Some e
      /\ t_code t' = [] /\ t_started t' = false)
  \/ (t_code t = [updated_callback (t_name t)] /\ t_started t = false
      /\ ev = Starts (updated_callback (t_name t)) /\ r = None
      /\ t_code t' = [updated_callback (t_name t)] /\ t_started t' = true)
  \/ (t_code t = [updated_callback (t_name t)] /\ t_started t = true
      /\ callback (t_name t) = None
      /\ ev = Returns (updated_callback (t_name t)) /\ r = None
      /\ t_code t' = [] /\ t_started t' = false)
  \/ (t_code t = [updated_callback (t_name t)] /\ t_started t = true
      /\ exists e, callback (t_name t) = Some e
      /\ ev = Raised (updated_callback (t_name t)) e /\ r = Some e
      /\ t_code t' = [] /\ t_started t' = false) ).
Proof.
  unfold shaped, fresh, Scheduler.step_task, _update.
  destruct t as [n started code]; simpl.
  intros [[-> ->] | [-> | ->]]; [discriminate | |].
  - destruct started; simpl.
    + destruct (callback n) as [e|] eqn:Hc; intros H; inversion H; subst; clear H; simpl;
        (split; [reflexivity|]).
      * do 5 right. repeat split; try reflexivity. exists e. auto.
      * do 4 right. left. auto 10.
    + intros H; inversion H; subst; clear H; simpl. split; [reflexivity|].
      do 3 right. left. auto 10.
  - destruct started; simpl.
    + destruct (collector n) as [e|] eqn:Hc; intros H; inversion H; subst; clear H; simpl;
        (split; [reflexivity|]).
      * do 2 right. left. repeat split; try reflexivity. exists e. auto.
      * right. left. auto 10.
    + intros H; inversion H; subst; clear H; simpl. split; [reflexivity|].
      left. auto 10.
Qed.

Lemma step_task_shaped (t : task) (ev : sched_event) (r : option exn) (t' : task) :
  shaped t -> step_task t = Some (ev, r, t') -> shaped t'.
Proof.
  intros Hs Hstep. destruct (step_task_cases t ev r t' Hs Hstep) as [Hn H].
  unfold shaped. rewrite Hn.
  destruct H as [H|[H|[H|[H|[H|H]]]]]; try (destruct H as (_ & _ & [e H])); intuition.
Qed.

Lemma steps_trans (tasks : list task) (ev1 : list sched_event) (tasks1 : list task)
    (ev2 : list sched_event) (tasks2 : list task) :
  steps tasks ev1 tasks1 -> steps tasks1 ev2 tasks2 -> steps tasks (ev1 ++ ev2) tasks2.
Proof.
  induction 1; intros H2; simpl; [assumption|].
  eapply steps_next; eauto.
Qed.

Lemma steps_cons (t0 : task) (tasks : list task) (events : list sched_event)
    (tasks' : list task) :
  steps tasks events tasks' -> steps (t0 :: tasks) events (t0 :: tasks').
Proof.
  induction 1; [constructor|].
  eapply (steps_next _ _ _ (S i)); eauto.
Qed.

(** A task run on its own takes its steps one after the other. *)
Lemma run_code_steps (n : string) (started : bool) (code : list await) (rest : list task) :
  (code = [] -> started = false) ->
  steps ({| t_name := n; t_started := started; t_code := code |} :: rest)
        (run_code started code).1
        ({| t_name := n; t_started := false; t_code := [] |} :: rest).
Proof.
  revert started. induction code as [|a code IH]; intros started Hwf.
  - rewrite Hwf by reflexivity. simpl. constructor.
  - cbn [Scheduler.run_code].
    assert (Hgo : forall evs,
      steps ({| t_name := n; t_started := true; t_code := a :: code |} :: rest) evs
            ({| t_name := n; t_started := false; t_code := [] |} :: rest) ->
      steps ({| t_name := n; t_started := started; t_code := a :: code |} :: rest)
            ((if started then [] else [Starts a]) ++ evs)
            ({| t_name := n; t_started := false; t_code := [] |} :: rest)).
    { intros evs H. destruct started; simpl; [assumption|].
      eapply (steps_next _ _ _ 0); [reflexivity | reflexivity | exact H]. }
    destruct (completes a) as [e|] eqn:Hc.
    + simpl. apply Hgo.
      eapply (steps_next _ _ _ 0); [reflexivity | | constructor].
      unfold Scheduler.step_task. simpl. rewrite Hc. reflexivity.
    + specialize (IH false (fun _ => eq_refl)).
      destruct (run_code false code) as [evs r]. simpl in *. apply Hgo.
      eapply (steps_next _ _ _ 0); [reflexivity | | exact IH].
      unfold Scheduler.step_task. simpl. rewrite Hc. reflexivity.
Qed.

Lemma drain_steps (tasks : list task) :
  Forall shaped tasks -> steps tasks (drain tasks).1.1 (drain tasks).2.
Proof.
  induction 1 as [|t tasks Ht Hts IH]; simpl; [constructor|].
  assert (Hwf : t_code t = [] -> t_started t = false).
  { destruct Ht as [[_ H]|[H|H]]; [auto | rewrite H; discriminate | rewrite H; discriminate]. }
  pose proof (run_code_steps (t_name t) (t_started t) (t_code t) tasks Hwf) as Hrun.
  destruct t as [n started code]. simpl in *.
  destruct (run_code started code) as [evs [e|]]; simpl in *; [exact Hrun|].
  destruct (drain tasks) as [[evs' r'] tasks']. simpl in *.
  eapply steps_trans; [exact Hrun|]. apply steps_cons. exact IH.
Qed.

Lemma linger_steps (schedule : list nat) (tasks : list task) :
  steps tasks (linger schedule tasks).1 (linger schedule tasks).2.
Proof.
  revert tasks. induction schedule as [|i schedule IH]; intros tasks; simpl; [constructor|].
  destruct (tasks !! i) as [t|] eqn:Hi; [|apply IH].
  destruct (step_task t) as [[[ev r] t']|] eqn:Hstep; [|apply IH].
  specialize (IH (<[i:=t']> tasks)). destruct (linger schedule _) as [evs tasks'].
  simpl in *. eapply steps_next; eauto.
Qed.

Lemma steps_shaped (tasks : list task) (events : list sched_event) (tasks' : list task) :
  steps tasks events tasks' -> Forall shaped tasks -> Forall shaped tasks'.
Proof.
  induction 1; intros Hs; [assumption|].
  apply IHsteps. apply Forall_insert; [assumption|].
  eapply step_task_shaped; [|eassumption].
  eapply Forall_lookup_1; eassumption.
Qed.

Lemma gather_steps (schedule : list nat) (tasks : list task) :
  Forall shaped tasks ->
  steps tasks (gather schedule tasks).1.1 (gather schedule tasks).2.
Proof.
  revert tasks. induction schedule as [|i schedule IH]; intros tasks Hs; simpl.
  - apply drain_steps. assumption.
  - destruct (tasks !! i) as [t|] eqn:Hi; [|apply IH; assumption].
    destruct (step_task t) as [[[ev [e|]] t']|] eqn:Hstep; [| |apply IH; assumption].
    + pose proof (linger_steps schedule (<[i:=t']> tasks)) as Hl.
      destruct (linger schedule _) as [evs tasks']. simpl in *.
      eapply steps_next; eauto.
    + assert (Hs' : Forall shaped (<[i:=t']> tasks)).
      { apply Forall_insert; [assumption|]. eapply step_task_shaped; [|eassumption].
        eapply Forall_lookup_1; eassumption. }
      specialize (IH _ Hs'). destruct (gather schedule _) as [[evs r] tasks'].
      simpl in *. eapply steps_next; eauto.
Qed.

Lemma insert_names (tasks : list task) (i : nat) (t t' : task) :
  tasks !! i = Some t -> t_name t' = t_name t ->
  map t_name (<[i:=t']> tasks) = map t_name tasks.
Proof.
  intros Hi Hn. change (t_name <$> <[i:=t']> tasks = t_name <$> tasks).
  rewrite list_fmap_insert, Hn. apply list_insert_id.
  rewrite list_lookup_fmap, Hi. reflexivity.
Qed.

Lemma steps_names (tasks : list task) (events : list sched_event) (tasks' : list task) :
  steps tasks events tasks' -> Forall shaped tasks ->
  map t_name tasks' = map t_name tasks.
Proof.
  induction 1 as [|tasks i t ev r t' events tasks' Hi Hstep Hrest IH]; intros Hs;
    [reflexivity|].
  assert (Ht : shaped t) by (eapply Forall_lookup_1; eassumption).
  destruct (step_task_cases t ev r t' Ht Hstep) as [Hn _].
  rewrite IH.
  - eapply insert_names; eassumption.
  - apply Forall_insert; [assumption|]. eapply step_task_shaped; eassumption.
Qed.

(** An invariant of single steps is an invariant of runs. *)
Lemma steps_invariant (P : list sched_event -> list task -> Prop) :
  (forall hist tasks i t ev r t',
      Forall shaped tasks -> P hist tasks ->
      tasks !! i = Some t -> step_task t = Some (ev, r, t') ->
      P (hist ++ [ev]) (<[i:=t']> tasks)) ->
  forall tasks events tasks',
    steps tasks events tasks' ->
    forall hist, Forall shaped tasks -> P hist tasks -> P (hist ++ events) tasks'.
Proof.
  intros Hstep1 tasks events tasks' Hsteps.
  induction Hsteps as [|tasks i t ev r t' events tasks' Hi Hstep Hrest IH];
    intros hist Hs HP.
  - now rewrite app_nil_r.
  - replace (hist ++ ev :: events) with ((hist ++ [ev]) ++ events)
      by (rewrite <- app_assoc; reflexivity).
    apply IH.
    + apply Forall_insert; [assumption|]. eapply step_task_shaped; [|eassumption].
      eapply Forall_lookup_1; eassumption.
    + eapply Hstep1; eassumption.
Qed.

End SchedulerFacts.

Lemma snoc_split {A : Type} (l1 l2 hist : list A) (x ev : A) :
  l1 ++ x :: l2 = hist ++ [ev] ->
  (l1 = hist /\ x = ev /\ l2 = [])
  \/ (exists l2', l2 = l2' ++ [ev] /\ hist = l1 ++ x :: l2').
Proof.
  revert hist. induction l1 as [|a l1 IH]; intros hist H; simpl in H.
  - destruct hist as [|h hist]; simpl in H.
    + inversion H. auto.
    + inversion H; subst. right. exists hist. auto.
  - destruct hist as [|h hist]; simpl in H.
    + inversion H. destruct l1; discriminate.
    + inversion H; subst. destruct (IH hist H2) as [(-> & -> & ->) | (l2' & -> & ->)].
      * left. auto.
      * right. exists l2'. auto.
Qed.

Lemma precedes_snoc {A : Type} (x y ev : A) (hist : list A) :
  precedes x y hist -> (ev = y -> In x hist) -> precedes x y (hist ++ [ev]).
Proof.
  intros Hp Hev l1 l2 H. destruct (snoc_split l1 l2 hist y ev (eq_sym H))
    as [(-> & -> & ->) | (l2' & -> & ->)].
  - apply Hev. reflexivity.
  - eapply Hp. reflexivity.
Qed.

Lemma at_most_once_snoc {A : Type} (x ev : A) (hist : list A) :
  at_most_once x hist -> (ev = x -> ~ In x hist) -> at_most_once x (hist ++ [ev]).
Proof.
  intros Hp Hev l1 l2 H. destruct (snoc_split l1 l2 hist x ev (eq_sym H))
    as [(-> & -> & ->) | (l2' & -> & ->)].
  - apply Hev. reflexivity.
  - eapply Hp. reflexivity.
Qed.

Lemma at_most_once_app_other {A : Type} (x : A) (l1 l2 : list A) :
  at_most_once x l1 -> ~ In x l2 -> at_most_once x (l1 ++ l2).
Proof.
  intros H1 H2 a b Heq.
  revert a b Heq. induction l2 as [|y l2 IH] using rev_ind; intros a b Heq.
  - rewrite app_nil_r in Heq. eapply H1; eassumption.
  - rewrite app_assoc in Heq.
    destruct (snoc_split a b (l1 ++ l2) x y (eq_sym Heq)) as [(-> & -> & ->) | (l2' & -> & Hh)].
    + exfalso. apply H2. apply in_or_app. right. left. reflexivity.
    + eapply IH; [|exact Hh]. intros Hin. apply H2. apply in_or_app. now left.
Qed.

Lemma in_snoc {A : Type} (x ev : A) (hist : list A) :
  In x (hist ++ [ev]) <-> In x hist \/ x = ev.
Proof.
  rewrite in_app_iff. simpl. intuition.
Qed.

Section RunInvariant.
Variable collector : string -> option exn.
Variable callback : string -> option exn.

#[local] Abbreviation step_task := (step_task collector callback).
#[local] Abbreviation steps := (steps collector callback).
#[local] Abbreviation run_inv := (@run_inv collector callback).
#[local] Abbreviation sound := (@sound collector callback).

Lemma distinct_names (tasks : list task) (i j : nat) (t u : task) :
  NoDup (map t_name tasks) ->
  tasks !! i = Some t -> tasks !! j = Some u -> t_name t = t_name u -> i = j.
Proof.
  intros Hnd Hi Hj Hn. change (NoDup (t_name <$> tasks)) in Hnd.
  eapply NoDup_lookup; [exact Hnd | |].
  - rewrite list_lookup_fmap, Hi. reflexivity.
  - rewrite list_lookup_fmap, Hj. simpl. now rewrite Hn.
Qed.

Lemma task_inv_other (hist : list sched_event) (ev : sched_event) (n : string) (u : task) :
  (ev = Starts (update_all_data n) \/ ev = Returns (update_all_data n)
   \/ ev = Starts (updated_callback n) \/ ev = Returns (updated_callback n)
   \/ exists a e, ev = Raised a e) ->
  t_name u <> n ->
  task_inv hist u -> task_inv (hist ++ [ev]) u.
Proof.
  intros Hev Hne (Hfresh & Hcb & Hdone & Hpending).
  repeat split.
  - intros Hf Hin. apply in_snoc in Hin. destruct Hin as [Hin|Hin]; [now apply Hfresh|].
    destruct Hev as [->|[->|[->|[->|(a & e & ->)]]]]; inversion Hin; congruence.
  - intros Hc. apply in_snoc. left. auto.
  - intros Hc. destruct (Hdone Hc) as [[H1 H2]|(a & e & Ha & Hin)].
    + left. split; apply in_snoc; auto.
    + right. exists a, e. split; [assumption|]. apply in_snoc. auto.
  - intros Hc Hin. apply in_snoc in Hin. destruct Hin as [Hin|Hin]; [now apply Hpending|].
    destruct Hev as [->|[->|[->|[->|(a & e & ->)]]]]; inversion Hin; congruence.
Qed.

(** A step keeps the invariant. *)
Lemma run_inv_step (hist : list sched_event) (tasks : list task) (i : nat)
    (t : task) (ev : sched_event) (r : option exn) (t' : task) :
  Forall shaped tasks -> run_inv hist tasks ->
  tasks !! i = Some t -> step_task t = Some (ev, r, t') ->
  run_inv (hist ++ [ev]) (<[i:=t']> tasks).
Proof.
  intros Hs (Hnd & Hord & Honce & Hsound & Htasks) Hi Hstep.
  assert (Ht : shaped t) by (eapply Forall_lookup_1; eassumption).
  destruct (step_task_cases collector callback t ev r t' Ht Hstep) as [Hn Hcase].
  pose proof (Htasks i t Hi) as (Hfresh & Hcb & Hdone & Hpending).
  assert (Hlt : i < length tasks) by (eapply lookup_lt_Some; eassumption).
  assert (Hev : ev = Starts (update_all_data (t_name t)) \/ ev = Returns (update_all_data (t_name t))
                \/ ev = Starts (updated_callback (t_name t))
                \/ ev = Returns (updated_callback (t_name t))
                \/ exists a e, ev = Raised a e).
  { destruct Hcase as [H|[H|[H|[H|[H|H]]]]];
      repeat match goal with
             | H : _ /\ _ |- _ => destruct H
             | H : exists _, _ |- _ => destruct H
             end; subst ev;
      first [ left; reflexivity
            | right; left; reflexivity
            | right; right; left; reflexivity
            | right; right; right; left; reflexivity
            | right; right; right; right; eexists; eexists; reflexivity ]. }
  assert (Hothers : forall j u, j <> i -> tasks !! j = Some u ->
                      task_inv (hist ++ [ev]) u).
  { intros j u Hji Hj. apply (task_inv_other hist ev (t_name t) u Hev); [|eauto].
    intros Heq. apply Hji. eapply distinct_names; eauto. }
  assert (Hmine : task_inv (hist ++ [ev]) t'
                  /\ (forall n, ev = Starts (updated_callback n) ->
                                In (Returns (update_all_data n)) hist)
                  /\ (forall n, ev = Starts (update_all_data n) ->
                                ~ In (Starts (update_all_data n)) hist)
                  /\ sound ev).
  { unfold task_inv, fresh. rewrite Hn.
    destruct Hcase as [H|[H|[H|[H|[H|H]]]]].
    - destruct H as ((Hc & Hst) & -> & -> & Hc' & Hst').
      rewrite Hc', Hst'. unfold _update in *.
      repeat split; try discriminate; try (intros [_ ?]; discriminate);
        try (intros; congruence).
      + intros _ Hin. apply in_snoc in Hin. destruct Hin as [Hin|Hin]; [|discriminate].
        apply Hpending; [rewrite Hc; discriminate | assumption].
      + intros n Heq. inversion Heq; subst. apply Hfresh. split; assumption.
    - destruct H as (Hc & Hst & Hcoll & -> & -> & Hc' & Hst').
      rewrite Hc', Hst'. unfold _update in *.
      repeat split; try discriminate; try (intros [? _]; discriminate);
        try (intros; congruence).
      + intros _. apply in_snoc. right. reflexivity.
      + intros _ Hin. apply in_snoc in Hin. destruct Hin as [Hin|Hin]; [|discriminate].
        apply Hpending; [rewrite Hc; discriminate | assumption].
      + simpl. assumption.
    - destruct H as (Hc & Hst & e & Hcoll & -> & -> & Hc' & Hst').
      rewrite Hc', Hst'. unfold _update in *.
      repeat split; try discriminate; try (intros [? _]; discriminate);
        try (intros; congruence).
      + intros _. right. exists (update_all_data (t_name t)), e. split; [reflexivity|].
        apply in_snoc. right. reflexivity.
      + simpl. assumption.
    - destruct H as (Hc & Hst & -> & -> & Hc' & Hst').
      rewrite Hc', Hst'. unfold _update in *.
      repeat split; try discriminate; try (intros [? _]; discriminate);
        try (intros; congruence).
      + intros _. apply in_snoc. left. auto.
      + intros _ Hin. apply in_snoc in Hin. destruct Hin as [Hin|Hin]; [|discriminate].
        apply Hpending; [rewrite Hc; discriminate | assumption].
      + intros n Heq. inversion Heq; subst. auto.
    - destruct H as (Hc & Hst & Hcall & -> & -> & Hc' & Hst').
      rewrite Hc', Hst'. unfold _update in *.
      repeat split; try discriminate; try (intros [? _]; discriminate);
        try (intros; congruence).
      + intros _. left. split; apply in_snoc; [left; auto | right; reflexivity].
      + simpl. assumption.
    - destruct H as (Hc & Hst & e & Hcall & -> & -> & Hc' & Hst').
      rewrite Hc', Hst'. unfold _update in *.
      repeat split; try discriminate; try (intros [? _]; discriminate);
        try (intros; congruence).
      + intros _. right. exists (updated_callback (t_name t)), e. split; [reflexivity|].
        apply in_snoc. right. reflexivity.
      + simpl. assumption. }
  destruct Hmine as (Hmine & Hbegin_cb & Hbegin_up & Hsnd).
  split; [|split; [|split; [|split]]].
  - erewrite insert_names; eassumption.
  - intros n. apply precedes_snoc; [apply Hord | apply Hbegin_cb].
  - intros n. apply at_most_once_snoc; [apply Honce | apply Hbegin_up].
  - intros ev0 Hin. apply in_snoc in Hin. destruct Hin as [Hin| ->]; auto.
  - intros j u Hj. destruct (decide (j = i)) as [->|Hji].
    + rewrite list_lookup_insert_eq in Hj by assumption. inversion Hj; subst. exact Hmine.
    + rewrite list_lookup_insert_ne in Hj by auto. apply (Hothers j u Hji Hj).
Qed.

End RunInvariant.

Lemma precedes_app_other {A : Type} (x y : A) (l1 l2 : list A) :
  precedes x y l1 -> ~ In y l2 -> precedes x y (l1 ++ l2).
Proof.
  intros H1 H2.
  induction l2 as [|z l2 IH] using rev_ind.
  - now rewrite app_nil_r.
  - rewrite app_assoc. apply precedes_snoc.
    + apply IH. intros Hin. apply H2. apply in_or_app. now left.
    + intros ->. exfalso. apply H2. apply in_or_app. right. now left.
Qed.

Lemma in_cancel_all (ev : sched_event) (tasks : list task) :
  In ev (cancel_all tasks) <->
  exists t, In t tasks /\ t_code t <> [] /\ ev = Cancelled (t_name t).
Proof.
  unfold cancel_all. rewrite in_map_iff. split.
  - intros (t & <- & Hin). apply list_elem_of_In, list_elem_of_filter in Hin.
    destruct Hin as [Hc Hin]. exists t. rewrite <- list_elem_of_In. auto.
  - intros (t & Hin & Hc & ->). exists t. split; [reflexivity|].
    apply list_elem_of_In, list_elem_of_filter. rewrite list_elem_of_In. auto.
Qed.

Lemma shaped_task_of (names : list string) : Forall shaped (map task_of names).
Proof.
  induction names; simpl; constructor; auto. right. right. reflexivity.
Qed.

Lemma names_task_of (names : list string) : map t_name (map task_of names) = names.
Proof. induction names; simpl; congruence. Qed.

Section Runs.
Variable collector : string -> option exn.
Variable callback : string -> option exn.

#[local] Abbreviation step_task := (step_task collector callback).
#[local] Abbreviation steps := (steps collector callback).
#[local] Abbreviation run_inv := (@run_inv collector callback).
#[local] Abbreviation sound := (@sound collector callback).
#[local] Abbreviation completes := (completes collector callback).
#[local] Abbreviation run_code := (run_code collector callback).
#[local] Abbreviation gather := (gather collector callback).
#[local] Abbreviation linger := (linger collector callback).
#[local] Abbreviation drain := (drain collector callback).

Lemma run_inv_initial (names : list string) :
  NoDup names -> run_inv [] (map task_of names).
Proof.
  intros Hnd. split; [|split; [|split; [|split]]].
  - now rewrite names_task_of.
  - intros n l1 l2 H. destruct l1; discriminate.
  - intros n l1 l2 H. destruct l1; discriminate.
  - intros ev [].
  - intros i t Hi. change (map task_of names) with (task_of <$> names) in Hi.
    rewrite list_lookup_fmap in Hi. destruct (names !! i) as [n|]; [|discriminate].
    inversion Hi; subst. unfold task_inv, task_of, completed, failed; simpl.
    repeat split; try discriminate; auto.
Qed.

Lemma steps_run_inv (names : list string) (events : list sched_event) (tasks' : list task) :
  NoDup names -> steps (map task_of names) events tasks' -> run_inv events tasks'.
Proof.
  intros Hnd Hsteps.
  apply (steps_invariant collector callback run_inv (run_inv_step collector callback)
           _ _ _ Hsteps []).
  - apply shaped_task_of.
  - now apply run_inv_initial.
Qed.

(** The invariant once [asyncio.run] has cancelled the pending tasks. *)
Lemma with_cancels (hist : list sched_event) (tasks pending : list task) :
  run_inv hist tasks ->
  (forall t, In t pending -> In t tasks) ->
  let events := hist ++ cancel_all pending in
  (forall n, precedes (Returns (update_all_data n)) (Starts (updated_callback n)) events)
  /\ (forall n, at_most_once (Starts (update_all_data n)) events)
  /\ (forall n, In (Cancelled n) events -> ~ In (Returns (updated_callback n)) events)
  /\ (forall a, In (Returns a) events -> completes a = None)
  /\ (forall t, In t pending ->
        completed (t_name t) events \/ failed (t_name t) events
        \/ In (Cancelled (t_name t)) events).
Proof.
  intros (Hnd & Hord & Honce & Hsound & Htasks) Hsub events.
  assert (Hcancel : forall ev, In ev (cancel_all pending) -> exists n, ev = Cancelled n).
  { intros ev Hin. apply in_cancel_all in Hin. destruct Hin as (t & _ & _ & ->). eauto. }
  assert (Hinv : forall t, In t tasks -> task_inv hist t).
  { intros t Hin. apply list_elem_of_In, list_elem_of_lookup in Hin.
    destruct Hin as [i Hi]. eauto. }
  subst events. split; [|split; [|split; [|split]]].
  - intros n. apply precedes_app_other; [apply Hord|].
    intros Hin. destruct (Hcancel _ Hin). discriminate.
  - intros n. apply at_most_once_app_other; [apply Honce|].
    intros Hin. destruct (Hcancel _ Hin). discriminate.
  - intros n Hc He. apply in_app_iff in Hc. destruct Hc as [Hc|Hc].
    + apply (Hsound _ Hc).
    + apply in_cancel_all in Hc. destruct Hc as (t & Hin & Hcode & Heq).
      inversion Heq; subst. apply in_app_iff in He. destruct He as [He|He].
      * destruct (Hinv t (Hsub t Hin)) as (_ & _ & _ & Hp). now apply Hp.
      * destruct (Hcancel _ He). discriminate.
  - intros a Hin. apply in_app_iff in Hin. destruct Hin as [Hin|Hin].
    + apply (Hsound _ Hin).
    + destruct (Hcancel _ Hin). discriminate.
  - intros t Hin. destruct (t_code t) as [|a code] eqn:Hcode.
    + destruct (Hinv t (Hsub t Hin)) as (_ & _ & Hd & _).
      destruct (Hd Hcode) as [[H1 H2]|(a & e & Ha & Hr)].
      * left. split; apply in_or_app; auto.
      * right. left. exists a, e. split; [assumption|]. apply in_or_app. auto.
    + right. right. apply in_or_app. right. apply in_cancel_all.
      exists t. rewrite Hcode. split; [assumption | split; [discriminate | reflexivity]].
Qed.

(** *** What the result of [gather] says about its events *)

Lemma step_ok_not_raised (t : task) (ev : sched_event) (t' : task) :
  step_task t = Some (ev, None, t') -> forall a e, ev <> Raised a e.
Proof.
  unfold Scheduler.step_task. destruct (t_code t) as [|a0 code]; [discriminate|].
  destruct (t_started t); [destruct (completes a0)|]; intros H; inversion H; discriminate.
Qed.

Lemma step_raise_raised (t : task) (ev : sched_event) (e : exn) (t' : task) :
  step_task t = Some (ev, Some e, t') -> exists a, ev = Raised a e.
Proof.
  unfold Scheduler.step_task. destruct (t_code t) as [|a0 code]; [discriminate|].
  destruct (t_started t); [destruct (completes a0)|]; intros H; inversion H; eauto.
Qed.

Lemma run_code_result (started : bool) (code : list await) :
  match (run_code started code).2 with
  | None => forall a e, ~ In (Raised a e) (run_code started code).1
  | Some e => exists a, In (Raised a e) (run_code started code).1
  end.
Proof.
  revert started. induction code as [|a0 code IH]; intros started; simpl.
  - intros a e [].
  - destruct (completes a0) as [e0|] eqn:Hc; simpl.
    + exists a0. apply in_or_app. right. now left.
    + specialize (IH false). destruct (run_code false code) as [evs [e1|]]; simpl in *.
      * destruct IH as [a Ha]. exists a. apply in_or_app. right. now right.
      * intros a e Hin. apply in_app_iff in Hin. destruct Hin as [Hin|[Hin|Hin]].
        -- destruct started; [destruct Hin | destruct Hin as [Hin|[]]; discriminate].
        -- discriminate.
        -- now apply (IH a e).
Qed.

Lemma drain_result (tasks : list task) :
  match (drain tasks).1.2 with
  | None => (forall a e, ~ In (Raised a e) (drain tasks).1.1)
            /\ Forall (fun t => t_code t = []) (drain tasks).2
  | Some e => exists a, In (Raised a e) (drain tasks).1.1
  end.
Proof.
  induction tasks as [|t tasks IH]; simpl.
  - split; [intros a e [] | constructor].
  - pose proof (run_code_result (t_started t) (t_code t)) as Hrun.
    destruct (run_code (t_started t) (t_code t)) as [evs [e|]]; simpl in *; [exact Hrun|].
    destruct (drain tasks) as [[evs' [e'|]] tasks']; simpl in *.
    + destruct IH as [a Ha]. exists a. apply in_or_app. now right.
    + destruct IH as [IH1 IH2]. split.
      * intros a e Hin. apply in_app_iff in Hin. destruct Hin; [now apply (Hrun a e) | now apply (IH1 a e)].
      * constructor; [reflexivity | assumption].
Qed.

Lemma gather_result (schedule : list nat) (tasks : list task) :
  match (gather schedule tasks).1.2 with
  | None => (forall a e, ~ In (Raised a e) (gather schedule tasks).1.1)
            /\ Forall (fun t => t_code t = []) (gather schedule tasks).2
  | Some e => exists a, In (Raised a e) (gather schedule tasks).1.1
  end.
Proof.
  revert tasks. induction schedule as [|i schedule IH]; intros tasks; simpl.
  - apply drain_result.
  - destruct (tasks !! i) as [t|] eqn:Hi; [|apply IH].
    destruct (step_task t) as [[[ev [e|]] t']|] eqn:Hstep; [| |apply IH].
    + destruct (linger schedule _) as [evs tasks']. simpl.
      destruct (step_raise_raised _ _ _ _ Hstep) as [a ->]. exists a. now left.
    + specialize (IH (<[i:=t']> tasks)).
      destruct (gather schedule _) as [[evs [e|]] tasks']; simpl in *.
      * destruct IH as [a Ha]. exists a. now right.
      * destruct IH as [IH1 IH2]. split; [|assumption].
        intros a e [Hin|Hin]; [|now apply (IH1 a e)].
        now apply (step_ok_not_raised _ _ _ Hstep a e).
Qed.

End Runs.

Lemma prefix_split {A : Type} (p rest l1 l2 : list A) (y : A) :
  p ++ rest = l1 ++ y :: l2 -> ~ In y p -> exists l, l1 = p ++ l.
Proof.
  revert l1. induction p as [|a p IH]; intros l1 Heq Hnot.
  - exists l1. reflexivity.
  - destruct l1 as [|b l1]; simpl in Heq; inversion Heq; subst.
    + exfalso. apply Hnot. now left.
    + destruct (IH l1 H1) as [l ->].
      * intros Hin. apply Hnot. now right.
      * exists l. reflexivity.
Qed.

Lemma classes_distinct : NoDup _classes.
Proof.
  unfold _classes. repeat (constructor; [rewrite list_elem_of_In; simpl; intuition discriminate|]).
  constructor.
Qed.

Lemma classes_frequent_distinct : NoDup ("sensors" :: _classes_frequent).
Proof.
  unfold _classes_frequent.
  repeat (constructor; [rewrite list_elem_of_In; simpl; intuition discriminate|]).
  constructor.
Qed.

Lemma sensors_not_frequent : ~ In "sensors" _classes_frequent.
Proof. unfold _classes_frequent. simpl. intuition discriminate. Qed.

Section TriggerFacts.
Variable collector : string -> option exn.
Variable callback : string -> option exn.

#[local] Abbreviation steps := (steps collector callback).
#[local] Abbreviation run_inv := (@run_inv collector callback).
#[local] Abbreviation run_code := (run_code collector callback).
#[local] Abbreviation gather := (gather collector callback).
#[local] Abbreviation update_data := (update_data collector callback).
#[local] Abbreviation update_frequent_data := (update_frequent_data collector callback).
#[local] Abbreviation run_of := (run_of collector callback).

Lemma update_data_run (schedule : list nat) :
  run_of _classes (update_data schedule)
  /\ map t_name (update_data schedule).2 = _classes.
Proof.
  unfold Scheduler.update_data.
  pose proof (gather_steps collector callback schedule (map task_of _classes)
                (shaped_task_of _)) as Hsteps.
  pose proof (gather_result collector callback schedule (map task_of _classes)) as Hres.
  split.
  - exists (gather schedule (map task_of _classes)).2.
    split; [assumption | split; [auto | split]].
    + intros Hr. rewrite Hr in Hres. tauto.
    + intros e Hr. rewrite Hr in Hres. assumption.
  - rewrite (steps_names collector callback _ _ _ Hsteps (shaped_task_of _)).
    apply names_task_of.
Qed.

Lemma update_frequent_data_run (schedule : list nat) :
  run_of ("sensors" :: _classes_frequent) (update_frequent_data schedule)
  /\ ( (exists e, (update_frequent_data schedule).1.2 = Some e
         /\ (collector "sensors" <> None \/ callback "sensors" <> None)
         /\ (update_frequent_data schedule).2 = []
         /\ forall n, In (Starts (update_all_data n)) (update_frequent_data schedule).1.1 ->
                      n = "sensors")
       \/ (collector "sensors" = None /\ callback "sensors" = None
           /\ map t_name (update_frequent_data schedule).2 = _classes_frequent
           /\ exists events,
               (update_frequent_data schedule).1.1 = sensors_done ++ events) ).
Proof.
  unfold Scheduler.update_frequent_data, Scheduler.run_of.
  pose proof (gather_steps collector callback schedule (map task_of _classes_frequent)
                (shaped_task_of _)) as Hsteps.
  pose proof (gather_result collector callback schedule
                (map task_of _classes_frequent)) as Hres.
  pose proof (steps_names collector callback _ _ _ Hsteps (shaped_task_of _)) as Hnames.
  rewrite names_task_of in Hnames.
  pose proof (run_code_steps collector callback "sensors" false (_update "sensors")
                (map task_of _classes_frequent) ltac:(discriminate)) as Hsens.
  pose proof (run_code_result collector callback false (_update "sensors")) as Hsres.
  change (map task_of ("sensors" :: _classes_frequent))
    with (task_of "sensors" :: map task_of _classes_frequent).
  change (Scheduler.run_code collector callback false
            [update_all_data "sensors"; updated_callback "sensors"])
    with (run_code false (_update "sensors")).
  remember (map task_of _classes_frequent) as six eqn:Hsix.
  destruct (gather schedule six) as [[evs r] tasks'] eqn:Hg.
  cbn [fst snd] in Hsteps, Hres, Hnames.
  destruct (run_code false (_update "sensors")) as [sens [e|]] eqn:Hrun;
    cbn [fst snd] in *.
  - split.
    + exists (sensors_finished :: six). cbn [fst snd].
      split; [exact Hsens | split; [intros t [] | split; [discriminate|]]].
      intros e0 He0. inversion He0; subst. assumption.
    + left. exists e. split; [reflexivity | split; [|split; [reflexivity|]]].
      * revert Hrun. unfold _update. simpl.
        destruct (collector "sensors"); [left; discriminate|].
        destruct (callback "sensors"); [right; discriminate | discriminate].
      * intros n Hin. revert Hrun Hin. unfold _update. simpl.
        destruct (collector "sensors"); [intros H; inversion H; subst; simpl |].
        -- intros [Hin|[Hin|[]]]; inversion Hin; reflexivity.
        -- destruct (callback "sensors"); intros H; inversion H; subst; simpl.
           intros [Hin|[Hin|[Hin|[Hin|[]]]]]; inversion Hin; reflexivity.
  - assert (Hboth : collector "sensors" = None /\ callback "sensors" = None
                    /\ sens = sensors_done).
    { revert Hrun. unfold _update. simpl.
      destruct (collector "sensors"); [discriminate|].
      destruct (callback "sensors"); [discriminate|].
      intros H; inversion H. auto. }
    destruct Hboth as (Hc1 & Hc2 & ->).
    split.
    + exists (sensors_finished :: tasks'). cbn [fst snd].
      split; [|split; [intros t Hin; now right | split]].
      * eapply steps_trans; [exact Hsens|]. apply steps_cons. exact Hsteps.
      * intros ->. destruct Hres as [Hno Hall]. split.
        -- constructor; [reflexivity | assumption].
        -- intros a e Hin. apply in_app_iff in Hin. destruct Hin as [Hin|Hin].
           ++ now apply (Hsres a e).
           ++ now apply (Hno a e).
      * intros e ->. destruct Hres as [a Ha]. exists a. apply in_or_app. now right.
    + right. split; [assumption | split; [assumption | split]].
      * assumption.
      * exists evs. reflexivity.
Qed.

(** What a trigger run by [asyncio.run] leaves behind. *)
Lemma asyncio_run_facts (names : list string)
    (main : list sched_event * option exn * list task) :
  NoDup names -> run_of names main ->
  let events := (asyncio_run main).1 in
  let r := (asyncio_run main).2 in
  (forall n, precedes (Returns (update_all_data n)) (Starts (updated_callback n)) events)
  /\ (forall n, at_most_once (Starts (update_all_data n)) events)
  /\ (forall n, In (Cancelled n) events -> ~ In (Returns (updated_callback n)) events)
  /\ (forall a, In (Returns a) events -> completes collector callback a = None)
  /\ (forall n, In n (map t_name main.2) ->
        completed n events \/ failed n events \/ In (Cancelled n) events)
  /\ (r = Ok tt -> forall n, In n names -> completed n events)
  /\ (forall e, r = Raise e -> exists a, In (Raised a e) events).
Proof.
  intros Hnd (tasks' & Hsteps & Hsub & Hok & Hraise) events r.
  pose proof (steps_run_inv collector callback names _ _ Hnd Hsteps) as Hinv.
  pose proof (with_cancels collector callback _ _ main.2 Hinv Hsub)
    as (H1 & H2 & H3 & H4 & H5).
  subst events r. destruct main as [[evs r0] pending]. simpl in *.
  split; [exact H1 | split; [exact H2 | split; [exact H3 | split; [exact H4 | split; [|split]]]]].
  - intros n Hin. apply in_map_iff in Hin. destruct Hin as (t & <- & Hin).
    apply H5. assumption.
  - intros Hr n Hn. destruct r0; [discriminate|].
    destruct (Hok eq_refl) as [Hall Hno].
    assert (Hnames : map t_name tasks' = names).
    { rewrite (steps_names collector callback _ _ _ Hsteps (shaped_task_of _)).
      apply names_task_of. }
    rewrite <- Hnames in Hn. apply in_map_iff in Hn. destruct Hn as (t & <- & Hin).
    destruct Hinv as (_ & _ & _ & _ & Htasks).
    assert (Hin' := Hin). apply list_elem_of_In, list_elem_of_lookup in Hin'.
    destruct Hin' as [i Hi].
    destruct (Htasks i t Hi) as (_ & _ & Hd & _).
    assert (Hcode : t_code t = []).
    { exact (Forall_lookup_1 _ _ _ _ Hall Hi). }
    destruct (Hd Hcode) as [[Ha Hb]|(a & e & _ & Hr')].
    + split; apply in_or_app; auto.
    + exfalso. now apply (Hno a e).
  - intros e Hr. destruct r0 as [e0|]; [|discriminate]. inversion Hr; subst.
    destruct (Hraise e eq_refl) as [a Ha]. exists a. apply in_or_app. auto.
Qed.

End TriggerFacts.

(** A category whose collector raises brings its trigger down, and its
    notification never starts. *)
Lemma failing_member (collector callback : string -> option exn) (names : list string)
    (main : list sched_event * option exn * list task) (name : string) (e : exn) :
  NoDup names -> run_of collector callback names main ->
  In name names -> collector name = Some e ->
  (exists a e', (asyncio_run main).2 = Raise e' /\ In (Raised a e') (asyncio_run main).1)
  /\ ~ In (Starts (updated_callback name)) (asyncio_run main).1.
Proof.
  intros Hnd Hrun Hin Hc.
  destruct (asyncio_run_facts collector callback names main Hnd Hrun)
    as (Hord & _ & _ & Hend & _ & Hok & Hraise).
  split.
  - destruct (asyncio_run main).2 as [[]|e'] eqn:Hr.
    + destruct (Hok eq_refl name Hin) as [Hup _].
      apply Hend in Hup. simpl in Hup. congruence.
    + destruct (Hraise e' eq_refl) as [a Ha]. eauto.
  - intros Hb. apply in_split in Hb. destruct Hb as (l1 & l2 & Heq).
    pose proof (Hord name l1 l2 Heq) as Hup.
    assert (Hup' : In (Returns (update_all_data name)) (asyncio_run main).1).
    { rewrite Heq. apply in_or_app. now left. }
    apply Hend in Hup'. simpl in Hup'. congruence.
Qed.

(** C6.  Every run of the frequent trigger, whatever the loop's schedule
    and whatever raises: a refresh of one of the six frequent categories
    starts only after the refresh and the notification of sensors have both
    completed; the notification of a category starts only after its refresh
    has returned; the trigger returns normally only when all seven
    categories have refreshed and notified; and the six run concurrently:
    for any two of them there is a schedule in which both refreshes have
    started before either returns. *)
Theorem frequent_trigger_refreshes_sensors_first :
  forall (collector callback : string -> option exn) (schedule : list nat),
    let run := UpdateFrequentThread_run collector callback schedule in
    (forall name l1 l2,
        In name _classes_frequent ->
        run.1 = l1 ++ Starts (update_all_data name) :: l2 ->
        exists l, l1 = sensors_done ++ l)
    /\ (forall name,
          precedes (Returns (update_all_data name)) (Starts (updated_callback name)) run.1)
    /\ (run.2 = Ok tt ->
        forall name, In name ("sensors" :: _classes_frequent) -> completed name run.1)
    /\ (forall c1 c2,
          In c1 _classes_frequent -> In c2 _classes_frequent -> c1 <> c2 ->
          exists schedule' rest,
            (UpdateFrequentThread_run (fun _ => None) (fun _ => None) schedule').1 =
              sensors_done
              ++ Starts (update_all_data c1) :: Starts (update_all_data c2) :: rest).
Proof.
  intros collector callback schedule run.
  destruct (update_frequent_data_run collector callback schedule) as [Hrun Hshape].
  destruct (asyncio_run_facts collector callback _ _ classes_frequent_distinct Hrun)
    as (Hord & _ & _ & _ & _ & Hok & _).
  split; [|split; [exact Hord | split; [exact Hok|]]].
  - intros name l1 l2 Hin Heq. subst run.
    unfold UpdateFrequentThread_run, asyncio_run in Heq.
    destruct (update_frequent_data collector callback schedule) as [[evs r] pending].
    simpl in *.
    destruct Hshape as [(e & _ & _ & -> & Honly) | (_ & _ & _ & events & ->)].
    + exfalso. apply sensors_not_frequent.
      rewrite <- (Honly name); [assumption|].
      unfold cancel_all in Heq. simpl in Heq. rewrite app_nil_r in Heq.
      rewrite Heq. apply in_or_app. right. now left.
    + apply (prefix_split sensors_done (events ++ cancel_all pending) l1 l2 _ Heq).
      unfold sensors_done. simpl.
      intros [H|[H|[H|[H|[]]]]]; inversion H; subst.
      now apply sensors_not_frequent.
  - intros c1 c2 H1 H2 Hne. unfold _classes_frequent in H1, H2. simpl in H1, H2.
    repeat match goal with
           | H : _ \/ _ |- _ => destruct H as [H|H]
           | H : False |- _ => destruct H
           end; subst; try congruence.
    all: match goal with
         | |- context [Starts (update_all_data ?c1) :: Starts (update_all_data ?c2) :: _] =>
             exists [position c1 _classes_frequent; position c2 _classes_frequent]
         end; eexists; vm_compute; reflexivity.
Qed.

(** A task that has steps left has not raised. *)
Lemma steps_pending_clean (collector callback : string -> option exn)
    (names : list string) (events : list sched_event) (tasks' : list task) :
  NoDup names -> steps collector callback (map task_of names) events tasks' ->
  forall t, In t tasks' -> t_code t <> [] ->
  forall a e, In (Raised a e) events -> await_name a <> t_name t.
Proof.
  intros Hnd Hsteps.
  pose (P := fun (hist : list sched_event) (tasks : list task) =>
    NoDup (map t_name tasks)
    /\ forall i t, tasks !! i = Some t -> t_code t <> [] ->
       forall a e, In (Raised a e) hist -> await_name a <> t_name t).
  assert (Hstep : forall hist tasks i t ev r t',
    Forall shaped tasks -> P hist tasks ->
    tasks !! i = Some t -> step_task collector callback t = Some (ev, r, t') ->
    P (hist ++ [ev]) (<[i:=t']> tasks)).
  { intros hist tasks i t ev r t' Hs [Hnames Hclean] Hi Hst.
    assert (Ht : shaped t) by (eapply Forall_lookup_1; eassumption).
    destruct (step_task_cases collector callback t ev r t' Ht Hst) as [Hn Hcase].
    assert (Hlt : i < length tasks) by (eapply lookup_lt_Some; eassumption).
    assert (Hcode : t_code t <> []).
    { unfold Scheduler.step_task in Hst. destruct (t_code t); [discriminate|discriminate]. }
    assert (Hev : forall a e, ev = Raised a e -> await_name a = t_name t /\ t_code t' = []).
    { intros a e ->. destruct Hcase as [H|[H|[H|[H|[H|H]]]]];
        repeat match goal with
               | H : _ /\ _ |- _ => destruct H
               | H : exists _, _ |- _ => destruct H
               end; try discriminate;
        match goal with H : Raised _ _ = Raised _ _ |- _ => inversion H; subst end;
        (split; [reflexivity | assumption]). }
    split; [erewrite insert_names; eassumption|].
    intros j u Hj Hu a e Hin. apply in_snoc in Hin.
    destruct (decide (j = i)) as [->|Hji].
    - rewrite list_lookup_insert_eq in Hj by assumption. inversion Hj; subst u.
      rewrite Hn. destruct Hin as [Hin|Hin].
      + exact (Hclean i t Hi Hcode a e Hin).
      + destruct (Hev a e (eq_sym Hin)) as [_ Hdone]. contradiction.
    - rewrite list_lookup_insert_ne in Hj by auto. destruct Hin as [Hin|Hin].
      + exact (Hclean j u Hj Hu a e Hin).
      + destruct (Hev a e (eq_sym Hin)) as [Hname _]. rewrite Hname.
        intros Heq. apply Hji. symmetry. eapply distinct_names; eauto. }
  pose proof (steps_invariant collector callback P Hstep _ _ _ Hsteps []
                (shaped_task_of names)) as Hinv.
  destruct Hinv as [_ Hclean].
  { split; [now rewrite names_task_of | intros i t _ _ a e []]. }
  intros t Hin Hcode a e Hr.
  apply list_elem_of_In, list_elem_of_lookup in Hin. destruct Hin as [i Hi].
  exact (Hclean i t Hi Hcode a e Hr).
Qed.

(** A category that is cancelled has not raised. *)
Lemma cancelled_never_raised (collector callback : string -> option exn)
    (names : list string) (main : list sched_event * option exn * list task) (n : string) :
  NoDup names -> run_of collector callback names main ->
  In (Cancelled n) (asyncio_run main).1 -> ~ failed n (asyncio_run main).1.
Proof.
  intros Hnd (tasks' & Hsteps & Hsub & _) Hc (a & e & Hname & Hr).
  pose proof (steps_run_inv collector callback names _ _ Hnd Hsteps)
    as (_ & _ & _ & Hsound & _).
  destruct main as [[evs r] pending]. simpl in *.
  apply in_app_iff in Hc. destruct Hc as [Hc|Hc]; [exact (Hsound _ Hc)|].
  apply in_cancel_all in Hc. destruct Hc as (t & Ht & Hcode & Heq).
  injection Heq as Hn. rewrite Hn in Hname.
  apply in_app_iff in Hr. destruct Hr as [Hr|Hr].
  - exact (steps_pending_clean collector callback names evs tasks' Hnd Hsteps
             t (Hsub t Ht) Hcode a e Hr Hname).
  - apply in_cancel_all in Hr. destruct Hr as (t0 & _ & _ & Heq). discriminate.
Qed.

(** C7, as amended.  A category of a trigger whose collector raises: the
    trigger run by its thread raises an exception that one of its members
    raised (the scheduler catches nothing), and the notification of the
    failing category never starts.  The failure stops no sibling by itself:
    every member ends completed, failed or cancelled, the ones cancelled
    being those [asyncio.run] finds unfinished when the trigger has ended; a
    cancelled member has neither raised nor completed its notification.
    Nothing is retried: no refresh starts twice.  If sensors fails in the
    frequent trigger, none of the six starts. *)
Theorem collector_failure_aborts_trigger :
  forall (collector callback : string -> option exn) (schedule : list nat)
         (name : string) (e : exn),
    collector name = Some e ->
    (In name _classes ->
     let run := UpdateThread_run collector callback schedule in
     (exists a e', run.2 = Raise e' /\ In (Raised a e') run.1)
     /\ ~ In (Starts (updated_callback name)) run.1
     /\ (forall n, In n _classes ->
           completed n run.1 \/ failed n run.1 \/ In (Cancelled n) run.1)
     /\ (forall n, In (Cancelled n) run.1 ->
           ~ In (Returns (updated_callback n)) run.1 /\ ~ failed n run.1)
     /\ (forall n, at_most_once (Starts (update_all_data n)) run.1))
    /\ (In name ("sensors" :: _classes_frequent) ->
        let run := UpdateFrequentThread_run collector callback schedule in
        (exists a e', run.2 = Raise e' /\ In (Raised a e') run.1)
        /\ ~ In (Starts (updated_callback name)) run.1
        /\ (name = "sensors" ->
            run = ([Starts (update_all_data "sensors");
                    Raised (update_all_data "sensors") e], Raise e))
        /\ (collector "sensors" = None -> callback "sensors" = None ->
            forall n, In n _classes_frequent ->
              completed n run.1 \/ failed n run.1 \/ In (Cancelled n) run.1)
        /\ (forall n, In (Cancelled n) run.1 ->
              ~ In (Returns (updated_callback n)) run.1 /\ ~ failed n run.1)
        /\ (forall n, at_most_once (Starts (update_all_data n)) run.1)).
Proof.
  intros collector callback schedule name e Hc. split; intros Hin run.
  - destruct (update_data_run collector callback schedule) as [Hrun Hnames].
    destruct (asyncio_run_facts collector callback _ _ classes_distinct Hrun)
      as (_ & Honce & Hcancel & _ & Hacc & _ & _).
    destruct (failing_member collector callback _ _ name e classes_distinct Hrun Hin Hc)
      as [Hraise Hnever].
    split; [exact Hraise | split; [exact Hnever | split; [|split; [|assumption]]]].
    + intros n Hn. apply Hacc. rewrite Hnames. assumption.
    + intros n Hn. split; [exact (Hcancel n Hn)|].
      exact (cancelled_never_raised collector callback _ _ n classes_distinct Hrun Hn).
  - destruct (update_frequent_data_run collector callback schedule) as [Hrun Hshape].
    destruct (asyncio_run_facts collector callback _ _ classes_frequent_distinct Hrun)
      as (_ & Honce & Hcancel & _ & Hacc & _ & _).
    destruct (failing_member collector callback _ _ name e classes_frequent_distinct
                Hrun Hin Hc) as [Hraise Hnever].
    split; [exact Hraise | split; [exact Hnever | split; [|split; [|split; [|assumption]]]]].
    + intros ->. subst run.
      unfold UpdateFrequentThread_run, update_frequent_data, asyncio_run. simpl.
      rewrite Hc. reflexivity.
    + intros Hs1 Hs2 n Hn. apply Hacc.
      destruct Hshape as [(e0 & _ & [Hf|Hf] & _) | (_ & _ & Hnames & _)];
        [contradiction | contradiction | ].
      rewrite Hnames. assumption.
    + intros n Hn. split; [exact (Hcancel n Hn)|].
      exact (cancelled_never_raised collector callback _ _ n classes_frequent_distinct
               Hrun Hn).
Qed.

(** C6 at a run in which nothing raises. *)
Lemma frequent_trigger_refreshes_sensors_first_witness :
  completed "gpu"
    (UpdateFrequentThread_run (fun _ => None) (fun _ => None) [1; 1; 0; 5; 7; 2]).1.
Proof.
  refine (proj1 (proj2 (proj2
    (frequent_trigger_refreshes_sensors_first (fun _ => None) (fun _ => None)
       [1; 1; 0; 5; 7; 2]))) _ "gpu" _).
  - reflexivity.
  - simpl. tauto.
Defined.

(** C7 at a full trigger whose disk collector raises. *)
Lemma collector_failure_aborts_trigger_witness :
  exists a e',
    (UpdateThread_run disk_fails (fun _ => None) [0; 2; 1; 1]).2 = Raise e'
    /\ In (Raised a e') (UpdateThread_run disk_fails (fun _ => None) [0; 2; 1; 1]).1.
Proof.
  refine (proj1 (proj1
    (collector_failure_aborts_trigger disk_fails (fun _ => None) [0; 2; 1; 1] "disk"
       {| exn_cls := OtherException; exn_msg := "no such device" |} _) _)).
  - reflexivity.
  - simpl. tauto.
Defined.

(** C7, counterexample.  The disk collector raises when the three
    refreshes have started.  The trigger raises, but battery and system are
    not aborted: both go on, refresh and notify, and nothing is left to
    cancel. *)
Lemma siblings_run_on_after_a_failure :
  UpdateThread_run disk_fails (fun _ => None) [0; 1; 2; 1; 0; 0; 0; 2; 2; 2] =
    ([ Starts (update_all_data "battery"); Starts (update_all_data "disk");
       Starts (update_all_data "system");
       Raised (update_all_data "disk")
         {| exn_cls := OtherException; exn_msg := "no such device" |};
       Returns (update_all_data "battery"); Starts (updated_callback "battery");
       Returns (updated_callback "battery");
       Returns (update_all_data "system"); Starts (updated_callback "system");
       Returns (updated_callback "system") ],
     Raise {| exn_cls := OtherException; exn_msg := "no such device" |}).
Proof. vm_compute. reflexivity. Qed.

(** The run of C7 above, with one more step of a sibling after the
    failure. *)
Example disk_failure_run :
  UpdateThread_run disk_fails (fun _ => None) [0; 2; 1; 1; 0] =
    ([ Starts (update_all_data "battery"); Starts (update_all_data "system");
       Starts (update_all_data "disk");
       Raised (update_all_data "disk")
         {| exn_cls := OtherException; exn_msg := "no such device" |};
       Returns (update_all_data "battery");
       Cancelled "battery"; Cancelled "system" ],
     Raise {| exn_cls := OtherException; exn_msg := "no such device" |}).
Proof. vm_compute. reflexivity. Qed.

(** ** Further facts about the session *)

Lemma calls_app (t1 t2 : trace) : calls (t1 ++ t2) = calls t1 ++ calls t2.
Proof. unfold calls. apply map_app. Qed.

Ltac resolve := intros; simpl in *; settle.

Section MoreSessionFacts.
Context {X : Type} (E : Env X).

(** The loop of the get-data branch: it reads the Store once per module, in
    the order of the request, and besides that only sends. *)
Lemma loop_shape (request : Request) (modules : list string) (w : World X) :
  let o := for_each modules (push_module E request) w in
  w_listeners (o_world o) = w_listeners w
  /\ (forall c, In c (calls (o_trace o)) -> is_get_data_dict c = true \/ is_send_json c = true)
  /\ (w_active w = false -> forall c, In c (calls (o_trace o)) -> is_send_json c = false)
  /\ (o_result o = Ok tt ->
      List.filter is_get_data_dict (calls (o_trace o)) =
        map (fun module => get_data_dict (TABLE_MAP_get E module)) modules).
Proof.
  revert w. induction modules as [|module rest IH]; intros w.
  - simpl. repeat split; intros; try contradiction; reflexivity.
  - cbn [for_each]. rewrite bind_run.
    destruct (push_module E request module w) as [w1 t1 r1] eqn:Hpush.
    assert (Hfirst : w_listeners w1 = w_listeners w /\ w_active w1 = w_active w
              /\ (forall c, In c (calls t1) -> is_get_data_dict c = true \/ is_send_json c = true)
              /\ (w_active w = false -> forall c, In c (calls t1) -> is_send_json c = false)
              /\ (forall u, r1 = Ok u ->
                  List.filter is_get_data_dict (calls t1) =
                    [get_data_dict (TABLE_MAP_get E module)])).
    { revert Hpush. destruct (w_active w) eqn:Ha; exec;
        match goal with H : Build_Outcome _ _ _ _ _ = Build_Outcome _ _ _ _ _ |- _ =>
          inversion H; subst; clear H end; simpl;
        repeat split; intros; try congruence; try discriminate; auto;
        repeat match goal with
               | H : _ \/ _ |- _ => destruct H as [H|H]; [subst|]
               | H : False |- _ => destruct H
               end; simpl; auto. }
    destruct Hfirst as (Hreg & Hflag & Honly & Hsilent & Hreads).
    destruct r1 as [u|e]; cbn [o_world o_trace o_result].
    + specialize (IH w1). destruct (for_each rest (push_module E request) w1) as [w2 t2 r2].
      cbn [o_world o_trace o_result] in *.
      destruct IH as (IHreg & IHonly & IHsilent & IHreads).
      rewrite calls_app. repeat split.
      * congruence.
      * intros c Hin. apply in_app_or in Hin. destruct Hin; auto.
      * intros Ha c Hin. apply in_app_or in Hin. destruct Hin; [auto|].
        apply IHsilent; congruence.
      * intros Hr. rewrite List.filter_app, (Hreads u eq_refl), (IHreads Hr). reflexivity.
    + repeat split; auto. intros Hr. discriminate.
Qed.

Lemma get_data_shape (data : pydict) (request : Request) (w : World X) :
  let o := on_get_data E data request w in
  w_listeners (o_world o) = w_listeners w
  /\ (forall c, In c (calls (o_trace o)) -> is_get_data_dict c = true \/ is_send_json c = true)
  /\ (w_active w = false -> forall c, In c (calls (o_trace o)) -> is_send_json c = false).
Proof.
  unfold on_get_data, validated.
  destruct (GetData_ E data) as [model|e0].
  2: { cbv zeta. destruct (w_active w) eqn:Ha; exec; repeat split; resolve. }
  destruct (no_modules (gd_modules model)).
  { cbv zeta. destruct (w_active w) eqn:Ha; exec; repeat split; resolve. }
  cbv zeta. rewrite bind_run.
  pose proof (loop_shape request (the_modules (gd_modules model))) as L.
  destruct (w_active w) eqn:Ha; unfold _send_response, perform, ret; rewrite Ha; simpl.
  - destruct (ext E _ (w_ext w)) as [x [u|e]]; cbn [o_world o_trace o_result outcome].
    + match goal with |- context [for_each _ _ ?w1] => specialize (L w1) end.
      destruct (for_each _ _ _) as [w2 t2 r2]. cbn [o_world o_trace o_result w_active] in *.
      destruct L as (Lreg & Lonly & Lsilent & _).
      repeat split; [assumption | | intros; discriminate].
      intros c Hin. rewrite calls_app in Hin. apply in_app_or in Hin.
      destruct Hin as [Hin|Hin]; [|auto]. simpl in Hin. destruct Hin as [<-|[]]. auto.
    + repeat split; intros; resolve.
  - match goal with |- context [for_each _ _ ?w1] => specialize (L w1) end.
    destruct (for_each _ _ _) as [w2 t2 r2]. cbn [o_world o_trace o_result w_active] in *.
    destruct L as (Lreg & Lonly & Lsilent & _).
    repeat split; intros; auto.
Qed.

(** A session that has been silenced sends nothing, whatever it is asked. *)
Lemma branch_silent (listener_id : string) (data : pydict) (request : Request)
    (m : M X unit) (w : World X) :
  branch E listener_id data request m ->
  w_active w = false ->
  forall c, In c (calls (o_trace (m w))) -> is_send_json c = false.
Proof.
  intros Hb Ha. destruct Hb;
    try (apply (get_data_shape data request w); assumption);
    exec; resolve.
Qed.

(** Only the two branches of the registry touch it. *)
Lemma branch_keeps_registry (listener_id : string) (data : pydict) (request : Request)
    (m : M X unit) (w : World X) :
  branch E listener_id data request m ->
  req_event request <> TYPE_REGISTER_DATA_LISTENER ->
  req_event request <> TYPE_UNREGISTER_DATA_LISTENER ->
  w_listeners (o_world (m w)) = w_listeners w
  /\ forall c, In c (calls (o_trace (m w))) -> is_registry_call c = false.
Proof.
  intros Hb Hr Hu. destruct Hb; try contradiction.
  8: { destruct (get_data_shape data request w) as (Hreg & Honly & _). split; [assumption|].
       intros c Hin. destruct (Honly c Hin) as [Hc|Hc]; destruct c; simpl in *; congruence. }
  all: destruct (w_active w) eqn:Ha; exec; resolve.
Qed.

End MoreSessionFacts.

Ltac exec_both :=
  unfold silenced_like, set_active, without_sends, muted; unfold_session;
  repeat (simpl; use_flag; case_step);
  simpl; try reflexivity; try congruence.

Lemma without_sends_app (t1 t2 : trace) :
  without_sends (t1 ++ t2) = without_sends t1 ++ without_sends t2.
Proof. unfold without_sends. apply List.filter_app. Qed.

Section SilencedFacts.
Context {X : Type} (E : Env X).

Lemma loop_silenced (request : Request) (modules : list string) (w : World X) :
  w_active w = true ->
  silenced_like (for_each modules (push_module E request))
                (for_each modules (push_module (muted E) request)) w
  /\ w_active (o_world (for_each modules (push_module (muted E) request) w)) = true.
Proof.
  revert w. induction modules as [|module rest IH]; intros w Ha.
  - split; [reflexivity | assumption].
  - unfold silenced_like. cbn [for_each]. rewrite !bind_run.
    assert (Hfirst : silenced_like (push_module E request module)
                                   (push_module (muted E) request module) w
                     /\ w_active (o_world (push_module (muted E) request module w)) = true).
    { destruct w as [a reg x]. simpl in Ha. subst a. split; exec_both. }
    destruct Hfirst as [Hfirst Hflag]. unfold silenced_like in Hfirst. rewrite !Hfirst.
    cbn [o_result o_world o_trace].
    destruct (push_module (muted E) request module w) as [w1 t1 [u|e]];
      cbn [o_result o_world o_trace] in *; [|split; [reflexivity | assumption]].
    destruct (IH w1 Hflag) as [IHs IHflag]. unfold silenced_like in IHs. rewrite !IHs.
    cbn [o_result o_world o_trace].
    rewrite without_sends_app. split; [reflexivity | assumption].
Qed.

Lemma get_data_silenced (data : pydict) (request : Request) (w : World X) :
  w_active w = true ->
  silenced_like (on_get_data E data request) (on_get_data (muted E) data request) w.
Proof.
  intros Ha. unfold on_get_data, validated.
  change (GetData_ (muted E) data) with (GetData_ E data).
  destruct (GetData_ E data) as [model|e0].
  2: { destruct w as [a reg x]. simpl in Ha. subst a. exec_both. }
  destruct (no_modules (gd_modules model)).
  { destruct w as [a reg x]. simpl in Ha. subst a. exec_both. }
  cbv zeta. unfold silenced_like. rewrite !bind_run.
  set (ack := reply _ _ _ _).
  assert (Hs : _send_response E ack (set_active false w) =
               {| o_world := set_active false w; o_trace := []; o_result := Ok tt |})
    by reflexivity.
  assert (Hsa : _send_response (muted E) ack w =
                {| o_world := w; o_trace := [Called (send_json ack) (Ok PNone)];
                   o_result := Ok tt |}).
  { unfold _send_response, perform. rewrite Ha. simpl.
    destruct w; simpl in *; subst; reflexivity. }
  rewrite !Hs, !Hsa. cbn [o_result o_world o_trace].
  destruct (loop_silenced request (the_modules (gd_modules model)) w Ha) as [Hl _].
  unfold silenced_like in Hl. rewrite !Hl. reflexivity.
Qed.

Lemma handle_event_silenced (listener_id : string) (data : pydict) (request : Request)
    (w : World X) :
  w_active w = true ->
  silenced_like (_handle_event E listener_id data request)
                (_handle_event (muted E) listener_id data request) w.
Proof.
  intros Ha. unfold _handle_event. cbv zeta.
  repeat match goal with
         | |- context [String.eqb ?a ?b] =>
             destruct (String.eqb a b);
               [ solve [ apply get_data_silenced; assumption
                       | destruct w as [a' reg x]; simpl in Ha; subst a'; exec_both ] | ]
         end.
  destruct w as [a' reg x]; simpl in Ha; subst a'; exec_both.
Qed.

End SilencedFacts.

(** X1.  A session that has been silenced ([set_active(False)]) sends
    nothing and does everything else.  Whatever the request, the dispatcher
    makes no [send_json] call and the flag stays off, and [_data_changed]
    does nothing for any module.  The other calls of the branch are still
    made: the trace of the dispatch is the trace of the same dispatch on an
    active session whose connection takes every message at once, with the
    sends taken out, so every other call is made in the same order with
    the same outcome; the result is the same, and so is the world but for
    the flag. *)
Theorem silenced_session_sends_nothing :
  forall (X : Type) (E : Env X) (listener_id : string) (data : pydict)
         (request : Request) (w : World X),
    w_active w = false ->
    let o := _handle_event E listener_id data request w in
    let a := _handle_event (muted E) listener_id data request (set_active true w) in
    (forall c, In c (calls (o_trace o)) -> is_send_json c = false)
    /\ sent (o_trace o) = []
    /\ w_active (o_world o) = false
    /\ (forall module changed, _data_changed E module changed w = ret tt w)
    /\ o_trace o = without_sends (o_trace a)
    /\ o_result o = o_result a
    /\ o_world o = set_active false (o_world a).
Proof.
  intros X E listener_id data request w Ha o a.
  pose proof (handle_event_branch E listener_id data request) as Hb.
  assert (Hsilent : forall c, In c (calls (o_trace o)) -> is_send_json c = false)
    by (apply (branch_silent E listener_id data request); assumption).
  assert (Hlike : o = {| o_world := set_active false (o_world a);
                         o_trace := without_sends (o_trace a);
                         o_result := o_result a |}).
  { pose proof (handle_event_silenced E listener_id data request (set_active true w)
                  eq_refl) as H.
    unfold silenced_like in H. subst o a. rewrite <- H. f_equal.
    destruct w as [active reg x]. simpl in Ha. subst active. reflexivity. }
  split; [assumption | split; [|split; [|split]]].
  - clear Hb Hlike. revert Hsilent. generalize (o_trace o). intros t.
    induction t as [|[c r] t IH]; intros H; [reflexivity|].
    unfold sent. cbn [omap]. specialize (H c (or_introl eq_refl)) as Hc.
    destruct c; try discriminate; simpl;
      apply IH; intros c' Hin; apply H; right; assumption.
  - subst o. rewrite (branch_keeps_flag E listener_id data request _ Hb w). assumption.
  - intros module changed. unfold _data_changed.
    destruct (negb (in_MODULES module)); [reflexivity|].
    unfold _send_response. rewrite Ha. reflexivity.
  - rewrite Hlike. repeat split.
Qed.

(** X2.  Apart from register-data-listener and unregister-data-listener, no
    request changes the registry or calls it. *)
Theorem dispatch_leaves_registry_alone :
  forall (X : Type) (E : Env X) (listener_id : string) (data : pydict)
         (request : Request) (w : World X),
    req_event request <> TYPE_REGISTER_DATA_LISTENER ->
    req_event request <> TYPE_UNREGISTER_DATA_LISTENER ->
    let o := _handle_event E listener_id data request w in
    w_listeners (o_world o) = w_listeners w
    /\ (forall c, In c (calls (o_trace o)) -> is_registry_call c = false).
Proof.
  intros X E listener_id data request w Hr Hu o.
  apply (branch_keeps_registry E listener_id data request); try assumption.
  apply handle_event_branch.
Qed.

(** X3.  A request whose model the constructor rejects.  If the exception
    is a [ValueError], an active session answers with the [bad_request]
    error that carries its text and the id of the request, and does nothing
    else; any other exception leaves the dispatcher, which has made no
    call. *)
Theorem rejected_model_is_a_bad_request :
  forall (X : Type) (E : Env X) (listener_id : string) (data : pydict)
         (request : Request) (e : exn) (w : World X),
    In (req_event request, Some e) (model_checks E data) ->
    let o := _handle_event E listener_id data request w in
    let response :=
      error_response (req_id request) SUBTYPE_BAD_REQUEST ("Invalid request: " ++ str e) [] in
    (is_ValueError e = true -> w_active w = true ->
     calls (o_trace o) = [send_json response]
     /\ (o_result o = Ok tt -> sent (o_trace o) = [response])
     /\ w_listeners (o_world o) = w_listeners w)
    /\ (is_ValueError e = false -> o = raise e w).
Proof.
  intros X E listener_id data request e w Hin o response.
  unfold model_checks in Hin. simpl in Hin.
  assert (Hr : forall A (r : result A), raised r = Some e -> r = Raise e).
  { intros A [a|e0] H; simpl in H; congruence. }
  subst o response.
  repeat match type of Hin with
         | _ \/ _ => destruct Hin as [Hin|Hin]
         | False => destruct Hin
         end;
    injection Hin as Hev Hraised;
    (assert (Hb : req_event request = _) by (symmetry; exact Hev));
    clear Hev;
    unfold _handle_event; cbv zeta; rewrite Hb; simpl;
    try (apply Hr in Hraised; unfold_session; rewrite Hraised);
    try (unfold on_open;
         destruct (dict_has "path" data); [|destruct (dict_has "url" data); [|discriminate]];
         apply Hr in Hraised; unfold_session; rewrite Hraised).
  all: split; [intros HV Ha; rewrite HV, Ha; simpl;
                destruct (ext E _ (w_ext w)) as [x [u|e1]]; resolve
              | intros HV; rewrite HV; reflexivity].
Qed.

(** X4.  An event the chain does not know, on an active session: the only
    call is the send of the [unknown_event] error that echoes the id and
    the event name. *)
Theorem unknown_event_is_reported :
  forall (X : Type) (E : Env X) (listener_id : string) (data : pydict)
         (request : Request) (w : World X),
    ~ In (req_event request) known_events ->
    w_active w = true ->
    let o := _handle_event E listener_id data request w in
    let response :=
      error_response (req_id request) SUBTYPE_UNKNOWN_EVENT "Unknown event"
        [(EVENT_EVENT, PStr (req_event request))] in
    calls (o_trace o) = [send_json response]
    /\ (o_result o = Ok tt -> sent (o_trace o) = [response]).
Proof.
  intros X E listener_id data request w Hun Ha o response.
  assert (Hb : _handle_event E listener_id data request = on_unknown_event E request).
  { pose proof (handle_event_branch E listener_id data request) as Hb.
    inversion Hb as [H|H|H|H|H|H|H|H|H|H|H|H|H|H|H|H|H|H|H|H|H|H|H|H|H Heq];
      try (exfalso; apply Hun; rewrite H; unfold known_events; simpl; tauto).
    reflexivity. }
  subst o response. rewrite Hb. exec; resolve.
Qed.

(** X5.  A validated request that lacks the field its family requires
    (the key, the text, the action or its value, the title, the modules of
    get-data), or whose action is not in the enumeration: an active session
    makes one call, the send of the error with the subtype of that family
    and the id of the request; the host is not touched. *)
Theorem missing_field_is_rejected :
  forall (X : Type) (E : Env X) (listener_id : string) (data : pydict)
         (request : Request) (sub : subtype) (message : string) (w : World X),
    missing_field E data (req_event request) sub message ->
    w_active w = true ->
    let o := _handle_event E listener_id data request w in
    let response := error_response (req_id request) sub message [] in
    calls (o_trace o) = [send_json response]
    /\ (o_result o = Ok tt -> sent (o_trace o) = [response]).
Proof.
  intros X E listener_id data request sub message w Hm Ha o response.
  subst o response.
  inversion Hm as [model Hmodel Hnone Hev|model Hmodel Hnone Hev|model Hmodel Hnone Hev
                  |model raw Hmodel Hnone Hev|model a Hmodel Hact Hneeds Hnone Hev
                  |model Hmodel Hnone Hev|model Hmodel Hnone Hev];
    subst sub message; symmetry in Hev;
    unfold _handle_event; cbv zeta; rewrite Hev; simpl;
    unfold_session; rewrite Hmodel; try rewrite Hact; rewrite Hnone.
  5: destruct a; try discriminate Hneeds.
  all: rewrite Ha; simpl; destruct (ext E _ (w_ext w)) as [x [u|e1]]; resolve.
Qed.

(** X6.  The six power events.  An active session sends the reply and then
    performs the action; if the send raises, the action is not performed.
    A silenced session performs the action without a reply. *)
Theorem power_reply_precedes_action :
  forall (X : Type) (E : Env X) (listener_id : string) (data : pydict)
         (request : Request) (progress : response_type) (message : string)
         (action : call) (w : World X),
    In (req_event request, (progress, message, action)) power_events ->
    let o := _handle_event E listener_id data request w in
    let response := reply (req_id request) progress (Some message) [] in
    (w_active w = false -> calls (o_trace o) = [action])
    /\ (w_active w = true ->
        match snd (ext E (send_json response) (w_ext w)) with
        | Ok _ => calls (o_trace o) = [send_json response; action]
        | Raise e => calls (o_trace o) = [send_json response] /\ o_result o = Raise e
        end).
Proof.
  intros X E listener_id data request progress message action w Hin o response.
  subst o response. unfold power_events in Hin. simpl in Hin.
  repeat match type of Hin with
         | _ \/ _ => destruct Hin as [Hin|Hin]
         | False => destruct Hin
         end;
    injection Hin as Hev <- <- <-; symmetry in Hev;
    unfold _handle_event; cbv zeta; rewrite Hev; simpl;
    (split; intros Ha; unfold_session; rewrite Ha; simpl;
     [ destruct (ext E _ (w_ext w)) as [x [u|e1]]; reflexivity
     | destruct (ext E (send_json _) (w_ext w)) as [x [u|e1]]; simpl;
       [ destruct (ext E _ x) as [x' [u'|e']]; reflexivity | split; reflexivity ] ]).
Qed.

(** X7.  A keyboard-keypress request with a key, on an active session.  The
    key is pressed first.  If the host rejects it with a [ValueError] (one
    that carries a message, as every exception here does: the branch logs
    it), the session answers with the [missing_key] error ["Invalid key"]
    and sends no [key-pressed] response; any other exception leaves the
    dispatcher unanswered; if the key was pressed the reply echoes it. *)
Theorem keypress_reports_an_invalid_key :
  forall (X : Type) (E : Env X) (listener_id : string) (data : pydict)
         (request : Request) (model : KeyboardKey) (key : string) (w : World X),
    req_event request = TYPE_KEYBOARD_KEYPRESS ->
    KeyboardKey_ E data = Ok model ->
    kk_key model = Some key ->
    w_active w = true ->
    let o := _handle_event E listener_id data request w in
    let invalid := error_response (req_id request) SUBTYPE_MISSING_KEY "Invalid key" [] in
    let pressed :=
      reply (req_id request) TYPE_KEYBOARD_KEY_PRESSED (Some "Key pressed")
        [(Key "key", PStr key)] in
    match snd (ext E (keyboard_keypress key) (w_ext w)) with
    | Ok _ => calls (o_trace o) = [keyboard_keypress key; send_json pressed]
    | Raise e =>
        if is_ValueError e
        then calls (o_trace o) = [keyboard_keypress key; send_json invalid]
             /\ (o_result o = Ok tt -> sent (o_trace o) = [invalid])
        else calls (o_trace o) = [keyboard_keypress key] /\ o_result o = Raise e
    end.
Proof.
  intros X E listener_id data request model key w Hev Hmodel Hkey Ha o invalid pressed.
  assert (Hb : _handle_event E listener_id data request = on_keyboard_keypress E data request)
    by pick_branch Hev.
  subst o invalid pressed. rewrite Hb. clear Hb.
  unfold_session. rewrite Hmodel, Hkey. simpl.
  destruct (ext E (keyboard_keypress key) (w_ext w)) as [x [u|e]]; simpl.
  - rewrite Ha. simpl. destruct (ext E _ x) as [x' [u'|e']]; reflexivity.
  - destruct (is_ValueError e); [|split; reflexivity].
    rewrite Ha. simpl. destruct (ext E _ x) as [x' [u'|e']]; resolve.
Qed.

(** X8.  An update-setting request on an active session whose dispatch
    returns: the setting is stored and the reply sent first; autostart is
    touched only when the setting is the autostart key, and then it is
    enabled when the value is [True] itself and disabled for every other
    value. *)
Theorem update_setting_toggles_autostart :
  forall (X : Type) (E : Env X) (listener_id : string) (data : pydict)
         (request : Request) (model : UpdateSetting) (w : World X),
    req_event request = TYPE_UPDATE_SETTING ->
    UpdateSetting_ E data = Ok model ->
    w_active w = true ->
    let o := _handle_event E listener_id data request w in
    let response :=
      reply (req_id request) TYPE_SETTING_UPDATED (Some "Setting updated")
        [(EVENT_SETTING, PStr (us_setting model)); (EVENT_VALUE, us_value model)] in
    o_result o = Ok tt ->
    calls (o_trace o) =
      [settings_set (us_setting model) (us_value model); send_json response]
      ++ (if String.eqb (us_setting model) (SETTING_AUTOSTART E)
          then [if is_True (us_value model) then autostart_enable else autostart_disable]
          else []).
Proof.
  intros X E listener_id data request model w Hev Hmodel Ha o response.
  assert (Hb : _handle_event E listener_id data request = on_update_setting E data request)
    by pick_branch Hev.
  subst o response. rewrite Hb. clear Hb.
  unfold_session. rewrite Hmodel. simpl.
  destruct (ext E (settings_set _ _) (w_ext w)) as [x [u|e]]; simpl; [|discriminate].
  rewrite Ha. simpl.
  destruct (ext E (send_json _) x) as [x' [u'|e']]; simpl; [|discriminate].
  destruct (String.eqb (us_setting model) (SETTING_AUTOSTART E)); simpl; [|reflexivity].
  destruct (is_True (us_value model)); simpl;
    destruct (ext E _ x') as [x'' [u''|e'']]; simpl; intros; reflexivity || discriminate.
Qed.

(** X9.  A get-data request with modules, on an active session whose
    dispatch returns: the acknowledgement is the first call, and the Store
    is read once for each requested module, in the order of the request,
    with the table the module maps to ([None] for a module the table map
    does not know); every other call is a send. *)
Theorem get_data_reads_each_module_once :
  forall (X : Type) (E : Env X) (listener_id : string) (data : pydict)
         (request : Request) (model : GetData) (w : World X),
    req_event request = TYPE_GET_DATA ->
    GetData_ E data = Ok model ->
    no_modules (gd_modules model) = false ->
    w_active w = true ->
    let o := _handle_event E listener_id data request w in
    let modules := the_modules (gd_modules model) in
    let ack :=
      reply (req_id request) TYPE_DATA_GET (Some "Getting data")
        [(EVENT_MODULES, strs modules)] in
    o_result o = Ok tt ->
    (exists rest, calls (o_trace o) = send_json ack :: rest)
    /\ List.filter is_get_data_dict (calls (o_trace o)) =
         map (fun module => get_data_dict (TABLE_MAP_get E module)) modules
    /\ (forall c, In c (calls (o_trace o)) ->
        is_get_data_dict c = true \/ is_send_json c = true).
Proof.
  intros X E listener_id data request model w Hev Hmodel Hmods Ha o modules ack.
  assert (Hb : _handle_event E listener_id data request = on_get_data E data request)
    by pick_branch Hev.
  subst o. rewrite Hb. clear Hb.
  unfold on_get_data, validated. rewrite Hmodel, Hmods. cbv zeta. fold modules. fold ack.
  rewrite bind_run, !(send_when_active E ack w Ha). unfold perform.
  destruct (ext E (send_json ack) (w_ext w)) as [x [u|e]];
    cbn [o_world o_trace o_result outcome]; [|discriminate].
  pose proof (loop_shape E request modules
                {| w_active := w_active w; w_listeners := w_listeners w; w_ext := x |}) as L.
  cbv zeta in L. destruct (for_each modules (push_module E request) _) as [w2 t2 r2].
  cbn [o_world o_trace o_result] in *. destruct L as (_ & Lonly & _ & Lreads).
  intros Hr. rewrite ?calls_app. simpl. repeat split.
  - eauto.
  - auto.
  - intros c [<-|Hin]; auto.
Qed.

Ltac traced :=
  intros; simpl in *;
  repeat match goal with
         | H : _ \/ _ |- _ => destruct H as [H|H]
         | H : False |- _ => destruct H
         | H : get_files _ _ = get_files _ _ |- _ => injection H as -> ->
         | H : get_file _ _ = get_file _ _ |- _ => injection H as -> ->
         | H : negb ?b = false |- _ => apply negb_false_iff in H; subst b
         end;
  try discriminate; repeat split; simpl; tauto.

Section FileFacts.
Context {X : Type} (E : Env X).

Lemma branch_checks_paths (listener_id : string) (data : pydict) (request : Request)
    (m : M X unit) (w : World X) :
  branch E listener_id data request m ->
  (forall base path, In (get_files base path) (calls (o_trace (m w))) ->
     In (Called (os_path_exists path) (Ok (PBool true))) (o_trace (m w))
     /\ In (Called (os_path_isdir path) (Ok (PBool true))) (o_trace (m w)))
  /\ (forall root path, In (get_file root path) (calls (o_trace (m w))) ->
     In (Called (os_path_exists root) (Ok (PBool true))) (o_trace (m w))
     /\ In (Called (os_path_exists path) (Ok (PBool true))) (o_trace (m w))
     /\ In (Called (os_path_isfile path) (Ok (PBool true))) (o_trace (m w))).
Proof.
  intros Hb. destruct Hb.
  10: { destruct (get_data_shape E data request w) as (_ & Honly & _).
        split; intros ? ? Hin; destruct (Honly _ Hin); discriminate. }
  all: split; intros ? ?; destruct (w_active w) eqn:Ha; exec; traced.
Qed.

End FileFacts.

(** X10.  The dispatcher lists a directory only after [os.path.exists] and
    [os.path.isdir] have returned true for that very path, and reads a file
    only after its root and the path exist and [os.path.isfile] has returned
    true for the path. *)
Theorem files_are_read_after_the_checks :
  forall (X : Type) (E : Env X) (listener_id : string) (data : pydict)
         (request : Request) (w : World X),
    let o := _handle_event E listener_id data request w in
    (forall base path, In (get_files base path) (calls (o_trace o)) ->
       In (Called (os_path_exists path) (Ok (PBool true))) (o_trace o)
       /\ In (Called (os_path_isdir path) (Ok (PBool true))) (o_trace o))
    /\ (forall root path, In (get_file root path) (calls (o_trace o)) ->
       In (Called (os_path_exists root) (Ok (PBool true))) (o_trace o)
       /\ In (Called (os_path_exists path) (Ok (PBool true))) (o_trace o)
       /\ In (Called (os_path_isfile path) (Ok (PBool true))) (o_trace o)).
Proof.
  intros X E listener_id data request w o.
  apply (branch_checks_paths E listener_id data request).
  apply handle_event_branch.
Qed.

Lemma sent_cons (ev : event) (t : trace) :
  sent (ev :: t) =
    match sent_response ev with
    | Some r => r :: sent t
    | None => sent t
    end.
Proof. reflexivity. Qed.

Section RegistryFacts.
Context {X : Type} (E : Env X).

Lemma perform_flag (c : call) (w : World X) :
  w_active (o_world (perform E c w)) = w_active w.
Proof. unfold perform. destruct (ext E c (w_ext w)) as [x r]. reflexivity. Qed.

Lemma perform_world (c : call) (w : World X) :
  w_listeners (o_world (perform E c w)) = w_listeners w.
Proof. unfold perform. destruct (ext E c (w_ext w)) as [x r]. reflexivity. Qed.

Lemma perform_sent (r : Response) (w : World X) :
  o_result (perform E (send_json r) w) = Ok tt ->
  sent (o_trace (perform E (send_json r) w)) = [r].
Proof.
  unfold perform. destruct (ext E (send_json r) (w_ext w)) as [x [u|e]]; simpl;
    [reflexivity | discriminate].
Qed.

(** The register branch once the model is validated and names modules. *)
Lemma register_run (listener_id : string) (data : pydict) (request : Request)
    (model : RegisterDataListener) (w : World X) :
  req_event request = TYPE_REGISTER_DATA_LISTENER ->
  RegisterDataListener_ E data = Ok model ->
  no_modules (rdl_modules model) = false ->
  w_active w = true ->
  let modules := the_modules (rdl_modules model) in
  let added := Listeners.add listener_id modules (w_listeners w) in
  let response :=
    if snd added then
      error_response (req_id request) SUBTYPE_LISTENER_ALREADY_REGISTERED
        "Listener already registered with this connection" [(EVENT_MODULES, strs modules)]
    else
      reply (req_id request) TYPE_DATA_LISTENER_REGISTERED
        (Some "Data listener registered") [(EVENT_MODULES, strs modules)] in
  let s := perform E (send_json response)
             {| w_active := true; w_listeners := fst added; w_ext := w_ext w |} in
  _handle_event E listener_id data request w =
    {| o_world := o_world s;
       o_trace := Called (add_listener listener_id modules) (Ok (PBool (snd added)))
                  :: o_trace s;
       o_result := o_result s |}.
Proof.
  intros Hev Hmodel Hmods Ha modules added response s.
  assert (Hb : _handle_event E listener_id data request =
               on_register_data_listener E listener_id data request) by pick_branch Hev.
  rewrite Hb. unfold on_register_data_listener, validated. rewrite Hmodel, Hmods.
  cbv zeta. fold modules. rewrite bind_run. unfold listeners_add_listener.
  fold added. destruct added as [reg already] eqn:Hadd. subst s response.
  cbn [o_world o_trace o_result fst snd]. rewrite Ha.
  destruct already; rewrite send_when_active by reflexivity; reflexivity.
Qed.

(** The unregister branch. *)
Lemma unregister_run (listener_id : string) (data : pydict) (request : Request)
    (w : World X) :
  req_event request = TYPE_UNREGISTER_DATA_LISTENER ->
  w_active w = true ->
  let removed := Listeners.remove listener_id (w_listeners w) in
  let response :=
    if snd removed then
      reply (req_id request) TYPE_DATA_LISTENER_UNREGISTERED
        (Some "Data listener unregistered") []
    else
      error_response (req_id request) SUBTYPE_LISTENER_NOT_REGISTERED
        "Listener not registered with this connection" [] in
  let s := perform E (send_json response)
             {| w_active := true; w_listeners := fst removed; w_ext := w_ext w |} in
  _handle_event E listener_id data request w =
    {| o_world := o_world s;
       o_trace := Called (remove_listener listener_id) (Ok (PBool (snd removed)))
                  :: o_trace s;
       o_result := o_result s |}.
Proof.
  intros Hev Ha removed response s.
  assert (Hb : _handle_event E listener_id data request =
               on_unregister_data_listener E listener_id request) by pick_branch Hev.
  rewrite Hb. unfold on_unregister_data_listener.
  rewrite bind_run. unfold listeners_remove_listener.
  fold removed. destruct removed as [reg existed] eqn:Hrm. subst s response.
  cbn [o_world o_trace o_result fst snd]. rewrite Ha.
  destruct existed; simpl; rewrite send_when_active by reflexivity; reflexivity.
Qed.

End RegistryFacts.

(** X11.  A register-data-listener request that names modules, on an
    active session.  If the connection holds no registration, the modules
    are stored for it and the reply is [listener-registered].  If it holds
    one, that one is kept as it is and the answer is the
    [listener_already_registered] error; in both cases the answer echoes
    the modules of the request and follows the call of the registry. *)
Theorem registration_is_stored_once :
  forall (X : Type) (E : Env X) (listener_id : string) (data : pydict)
         (request : Request) (model : RegisterDataListener) (w : World X),
    req_event request = TYPE_REGISTER_DATA_LISTENER ->
    RegisterDataListener_ E data = Ok model ->
    no_modules (rdl_modules model) = false ->
    w_active w = true ->
    let o := _handle_event E listener_id data request w in
    let modules := the_modules (rdl_modules model) in
    match w_listeners w !! listener_id with
    | None =>
        w_listeners (o_world o) = <[listener_id := modules]> (w_listeners w)
        /\ calls (o_trace o) =
             [add_listener listener_id modules;
              send_json (reply (req_id request) TYPE_DATA_LISTENER_REGISTERED
                           (Some "Data listener registered") [(EVENT_MODULES, strs modules)])]
    | Some _ =>
        w_listeners (o_world o) = w_listeners w
        /\ calls (o_trace o) =
             [add_listener listener_id modules;
              send_json (error_response (req_id request) SUBTYPE_LISTENER_ALREADY_REGISTERED
                           "Listener already registered with this connection"
                           [(EVENT_MODULES, strs modules)])]
    end.
Proof.
  intros X E listener_id data request model w Hev Hmodel Hmods Ha o modules.
  subst o. rewrite (register_run E listener_id data request model w Hev Hmodel Hmods Ha).
  cbv zeta. fold modules. unfold Listeners.add.
  destruct (w_listeners w !! listener_id) as [old|]; cbn [fst snd o_world o_trace];
    (split; [rewrite (perform_world E); reflexivity | cbn [calls map]; f_equal; apply (perform_calls E)]).
Qed.

(** X12.  An unregister-data-listener request on an active session.  If
    the connection holds a registration it is removed and the reply is
    [listener-unregistered]; if it holds none the registry is as it was and
    the answer is the [listener_not_registered] error. *)
Theorem unregister_reports_a_missing_registration :
  forall (X : Type) (E : Env X) (listener_id : string) (data : pydict)
         (request : Request) (w : World X),
    req_event request = TYPE_UNREGISTER_DATA_LISTENER ->
    w_active w = true ->
    let o := _handle_event E listener_id data request w in
    match w_listeners w !! listener_id with
    | Some _ =>
        w_listeners (o_world o) = delete listener_id (w_listeners w)
        /\ calls (o_trace o) =
             [remove_listener listener_id;
              send_json (reply (req_id request) TYPE_DATA_LISTENER_UNREGISTERED
                           (Some "Data listener unregistered") [])]
    | None =>
        w_listeners (o_world o) = w_listeners w
        /\ calls (o_trace o) =
             [remove_listener listener_id;
              send_json (error_response (req_id request) SUBTYPE_LISTENER_NOT_REGISTERED
                           "Listener not registered with this connection" [])]
    end.
Proof.
  intros X E listener_id data request w Hev Ha o.
  subst o. rewrite (unregister_run E listener_id data request w Hev Ha).
  cbv zeta. unfold Listeners.remove.
  destruct (w_listeners w !! listener_id) as [old|]; cbn [fst snd o_world o_trace];
    (split; [rewrite (perform_world E); reflexivity | cbn [calls map]; f_equal; apply (perform_calls E)]).
Qed.

(** X13.  Register, then unregister, on an active session whose connection
    held no registration: the registry is again what it was, and if both
    sends return the two responses are [listener-registered] with the
    modules and [listener-unregistered]. *)
Theorem register_then_unregister_restores_registry :
  forall (X : Type) (E : Env X) (listener_id : string) (data data' : pydict)
         (request request' : Request) (model : RegisterDataListener) (w : World X),
    req_event request = TYPE_REGISTER_DATA_LISTENER ->
    RegisterDataListener_ E data = Ok model ->
    no_modules (rdl_modules model) = false ->
    req_event request' = TYPE_UNREGISTER_DATA_LISTENER ->
    w_active w = true ->
    w_listeners w !! listener_id = None ->
    let o := _handle_event E listener_id data request w in
    let o' := _handle_event E listener_id data' request' (o_world o) in
    w_listeners (o_world o') = w_listeners w
    /\ (o_result o = Ok tt -> o_result o' = Ok tt ->
        sent (o_trace o ++ o_trace o') =
          [reply (req_id request) TYPE_DATA_LISTENER_REGISTERED
             (Some "Data listener registered")
             [(EVENT_MODULES, strs (the_modules (rdl_modules model)))];
           reply (req_id request') TYPE_DATA_LISTENER_UNREGISTERED
             (Some "Data listener unregistered") []]).
Proof.
  intros X E listener_id data data' request request' model w
         Hev Hmodel Hmods Hev' Ha Hfree o o'.
  pose proof (register_run E listener_id data request model w Hev Hmodel Hmods Ha) as Hrun.
  cbv zeta in Hrun. unfold Listeners.add in Hrun. rewrite Hfree in Hrun.
  cbn [fst snd] in Hrun. fold o in Hrun.
  set (s := perform E _ _) in Hrun.
  assert (Hw : w_active (o_world o) = true
               /\ w_listeners (o_world o) =
                    <[listener_id := the_modules (rdl_modules model)]> (w_listeners w)).
  { rewrite Hrun. cbn [o_world]. subst s. split; [rewrite (perform_flag E) | rewrite (perform_world E)]; reflexivity. }
  destruct Hw as [Ha1 Hreg1].
  pose proof (unregister_run E listener_id data' request' (o_world o) Hev' Ha1) as Hrun'.
  cbv zeta in Hrun'. unfold Listeners.remove in Hrun'. rewrite Hreg1 in Hrun'.
  rewrite lookup_insert_eq in Hrun'. cbn [fst snd] in Hrun'. fold o' in Hrun'.
  set (s' := perform E _ _) in Hrun'.
  split.
  - rewrite Hrun'. cbn [o_world]. subst s'.
    rewrite (perform_world E). cbn [w_listeners].
    rewrite delete_insert_eq. apply delete_id. assumption.
  - rewrite Hrun, Hrun'. cbn [o_result o_trace]. intros Hr Hr'.
    pose proof (perform_sent E _ _ Hr : sent (o_trace s) = _) as Hs.
    pose proof (perform_sent E _ _ Hr' : sent (o_trace s') = _) as Hs'.
    clearbody s s'.
    rewrite sent_app, !sent_cons. cbn [sent_response]. rewrite Hs, Hs'. reflexivity.
Qed.

Section MoreHandlerFacts.
Context {X : Type} (E : Env X).

Lemma handler_inactive (listener_id : string) (inbox : list inbound) (w : World X) :
  w_active w = false -> _handler E listener_id inbox w = ret tt w.
Proof. intros Ha. destruct inbox; cbn [_handler]; rewrite Ha; reflexivity. Qed.

(** The body of the loop on a message that does not decode. *)
Lemma handler_body_undecodable (listener_id : string) (item : inbound) (w : World X)
    (e : exn) :
  w_active w = true ->
  in_set_active item <> Some false ->
  decode E item = Raise e ->
  _handler_body E listener_id item w =
    let w1 := {| w_active := true; w_listeners := w_listeners w; w_ext := w_ext w |} in
    if is_ValueError e then
      let s := perform E (send_json (decode_error e)) w1 in
      {| o_world := o_world s;
         o_trace := Called receive_json (in_receive item) :: o_trace s;
         o_result := match o_result s with Ok _ => Ok false | Raise e' => Raise e' end |}
    else
      {| o_world := w1; o_trace := [Called receive_json (in_receive item)];
         o_result := Raise e |}.
Proof.
  intros Ha Hs Hdec.
  assert (Hw : match in_set_active item with
               | Some active => set_active active w
               | None => w
               end = {| w_active := true; w_listeners := w_listeners w; w_ext := w_ext w |}).
  { destruct (in_set_active item) as [[|]|]; try congruence; unfold set_active;
      destruct w; simpl in *; congruence. }
  unfold decode in Hdec. unfold _handler_body, receive, decode_error.
  unfold_session. cbv zeta. rewrite Hw.
  destruct (in_receive item) as [v|e0]; simpl.
  - destruct (as_mapping v) as [d|e1]; simpl.
    + destruct (Request_ E d) as [rq|e2]; [discriminate|]. injection Hdec as ->. simpl.
      destruct (is_ValueError e) eqn:HV; [|reflexivity].
      destruct (is_JSONDecodeError e); simpl;
        destruct (ext E _ (w_ext w)) as [x [u|e']]; reflexivity.
    + injection Hdec as ->.
      destruct (is_ValueError e) eqn:HV; [|reflexivity].
      destruct (is_JSONDecodeError e); simpl;
        destruct (ext E _ (w_ext w)) as [x [u|e']]; reflexivity.
  - injection Hdec as ->.
    destruct (is_ValueError e) eqn:HV; [|reflexivity].
    destruct (is_JSONDecodeError e); simpl;
      destruct (ext E _ (w_ext w)) as [x [u|e']]; reflexivity.
Qed.

(** The body of the loop when the owner silences the session while it
    waits for the message. *)
Lemma handler_body_silenced (listener_id : string) (item : inbound) (w : World X) :
  in_set_active item = Some false ->
  let b := _handler_body E listener_id item w in
  w_active (o_world b) = false
  /\ (forall c, In c (calls (o_trace b)) -> is_send_json c = false)
  /\ (forall data request api_key x1,
        decode E item = Ok (data, request) ->
        ext E settings_get_secret (w_ext w) = (x1, Ok api_key) ->
        req_api_key request = Some api_key ->
        calls (o_trace b) =
          receive_json :: settings_get_secret
          :: calls (o_trace (_handle_event E listener_id data request
                               {| w_active := false; w_listeners := w_listeners w;
                                  w_ext := x1 |}))).
Proof.
  intros Hs b. subst b.
  unfold decode, _handler_body, receive. rewrite Hs. unfold set_active.
  unfold_session. cbv zeta.
  destruct (in_receive item) as [v|e0]; simpl.
  2: { repeat (simpl; case_step); simpl; (split; [reflexivity|split]); resolve. }
  destruct (as_mapping v) as [d|e1]; simpl.
  2: { repeat (simpl; case_step); simpl; (split; [reflexivity|split]); resolve. }
  destruct (Request_ E d) as [rq|e2]; simpl.
  2: { repeat (simpl; case_step); simpl; (split; [reflexivity|split]); resolve. }
  destruct (ext E settings_get_secret (w_ext w)) as [x [k|e3]] eqn:Hsecret; simpl.
  2: { (split; [reflexivity|split]); resolve. }
  destruct (api_key_differs (req_api_key rq) k) eqn:Hkey; simpl.
  { split; [reflexivity|split]; [resolve|].
    intros data request api_key x1 Hd He Hk. injection Hd as <- <-.
    injection He as <- <-. apply api_key_differs_iff in Hk. congruence. }
  set (w1 := {| w_active := false; w_listeners := w_listeners w; w_ext := x |}).
  pose proof (handle_event_branch E listener_id d rq) as Hb.
  pose proof (branch_keeps_flag E listener_id d rq _ Hb w1) as Hflag.
  pose proof (branch_silent E listener_id d rq _ w1 Hb eq_refl) as Hsilent.
  destruct (_handle_event E listener_id d rq w1) as [w2 t2 [u|e4]] eqn:Hrun;
    unfold w1 in Hrun; cbn [o_world o_trace o_result w_active w1] in *.
  - rewrite !app_nil_r. split; [assumption|split].
    + intros c [<-|[<-|Hin]]; auto.
    + intros data request api_key x1 Hd He _. injection Hd as <- <-.
      injection He as <- <-. rewrite Hrun. reflexivity.
  - destruct (is_Exception e4); simpl; rewrite ?Hflag; simpl; rewrite ?app_nil_r.
    + split; [assumption|split].
      * intros c [<-|[<-|Hin]]; auto.
      * intros data request api_key x1 Hd He _. injection Hd as <- <-.
        injection He as <- <-. rewrite Hrun. reflexivity.
    + split; [reflexivity|split].
      * intros c [<-|[<-|Hin]]; auto.
      * intros data request api_key x1 Hd He _. injection Hd as <- <-.
        injection He as <- <-. rewrite Hrun. reflexivity.
Qed.

End MoreHandlerFacts.

(** X14.  A message that does not decode into a request (the text is not
    JSON, or the request model rejects it) on an active session.  For a
    [ValueError] the session sends one error without an id, [bad_json] for
    a [JSONDecodeError] and [bad_request] otherwise, and the loop ends
    there: the secret is not read, nothing is dispatched, the registry is as
    it was, and what is left in the inbox is not received.  Any other
    exception leaves [_handler] unanswered. *)
Theorem undecodable_message_ends_session :
  forall (X : Type) (E : Env X) (listener_id : string) (item : inbound)
         (rest : list inbound) (w : World X) (e : exn),
    w_active w = true ->
    in_set_active item <> Some false ->
    decode E item = Raise e ->
    let o := _handler E listener_id (item :: rest) w in
    (is_ValueError e = true ->
     calls (o_trace o) = [receive_json; send_json (decode_error e)]
     /\ (o_result o = Ok tt -> sent (o_trace o) = [decode_error e])
     /\ w_listeners (o_world o) = w_listeners w
     /\ (forall rest', _handler E listener_id (item :: rest') w = o))
    /\ (is_ValueError e = false ->
        calls (o_trace o) = [receive_json] /\ o_result o = Raise e).
Proof.
  intros X E listener_id item rest w e Ha Hs Hdec o.
  assert (Hrun : forall rest0,
    _handler E listener_id (item :: rest0) w =
      bind (_handler_body E listener_id item)
           (fun continue => if continue then _handler E listener_id rest0 else ret tt) w)
    by (intros; apply handler_cons; assumption).
  subst o. split; intros HV.
  - assert (Hout : forall rest0,
      _handler E listener_id (item :: rest0) w =
        let s := perform E (send_json (decode_error e))
                   {| w_active := true; w_listeners := w_listeners w; w_ext := w_ext w |} in
        {| o_world := o_world s;
           o_trace := Called receive_json (in_receive item) :: o_trace s;
           o_result := o_result s |}).
    { intros rest0. rewrite Hrun, bind_run.
      rewrite (handler_body_undecodable E listener_id item w e Ha Hs Hdec).
      cbv zeta. rewrite HV. cbn [o_world o_trace o_result].
      destruct (perform E _ _) as [w2 t2 [u|e']]; simpl; [|reflexivity].
      rewrite app_nil_r. destruct u. reflexivity. }
    rewrite Hout. cbv zeta. cbn [o_world o_trace o_result]. repeat split.
    + cbn [calls map]. f_equal. apply (perform_calls E).
    + intros Hr. rewrite sent_cons. cbn [sent_response].
      destruct (in_receive item); apply (perform_sent E); assumption.
    + rewrite (perform_world E). reflexivity.
    + intros rest'. rewrite Hout. reflexivity.
  - rewrite Hrun, bind_run.
    rewrite (handler_body_undecodable E listener_id item w e Ha Hs Hdec).
    cbv zeta. rewrite HV. split; reflexivity.
Qed.

(** X15.  The owner silences the session ([set_active(False)]) while it
    waits for a message.  The message is still received, checked against
    the secret and dispatched, but nothing is sent, not even an error; then
    the loop ends, and what is left in the inbox is not received. *)
Theorem silenced_while_receiving :
  forall (X : Type) (E : Env X) (listener_id : string) (item : inbound)
         (rest : list inbound) (w : World X),
    w_active w = true ->
    in_set_active item = Some false ->
    let o := _handler E listener_id (item :: rest) w in
    (forall c, In c (calls (o_trace o)) -> is_send_json c = false)
    /\ (forall rest', _handler E listener_id (item :: rest') w = o)
    /\ (forall data request api_key x1,
          decode E item = Ok (data, request) ->
          ext E settings_get_secret (w_ext w) = (x1, Ok api_key) ->
          req_api_key request = Some api_key ->
          calls (o_trace o) =
            receive_json :: settings_get_secret
            :: calls (o_trace (_handle_event E listener_id data request
                                 {| w_active := false; w_listeners := w_listeners w;
                                    w_ext := x1 |}))).
Proof.
  intros X E listener_id item rest w Ha Hs o.
  pose proof (handler_body_silenced E listener_id item w Hs) as Hbody. cbv zeta in Hbody.
  assert (Hrun : forall rest0,
    _handler E listener_id (item :: rest0) w =
      let b := _handler_body E listener_id item w in
      {| o_world := o_world b; o_trace := o_trace b;
         o_result := match o_result b with Ok _ => Ok tt | Raise e => Raise e end |}).
  { intros rest0. rewrite handler_cons by assumption. rewrite bind_run. cbv zeta.
    destruct Hbody as (Hflag & _).
    destruct (_handler_body E listener_id item w) as [w1 t1 [continue|e]];
      cbn [o_world o_trace o_result] in *; [|reflexivity].
    destruct continue; [rewrite handler_inactive by assumption|];
      simpl; rewrite app_nil_r; reflexivity. }
  subst o. rewrite Hrun. cbv zeta. cbn [o_trace].
  destruct Hbody as (_ & Hsilent & Hcalls).
  split; [assumption | split; [|assumption]].
  intros rest'. rewrite Hrun. reflexivity.
Qed.

(** X16.  [handler] keeps a lost connection to itself: when it raises, the
    exception is neither a [ConnectionError] nor a [WebSocketDisconnect],
    and it is the one [_handler] raised; the registry's
    [remove_listener] has been called all the same. *)
Theorem handler_swallows_a_lost_connection :
  forall (X : Type) (E : Env X) (listener_id : string) (inbox : list inbound)
         (w : World X) (e : exn),
    o_result (handler E listener_id inbox w) = Raise e ->
    is_connection_closed e = false
    /\ o_result (_handler E listener_id inbox w) = Raise e
    /\ In (remove_listener listener_id) (calls (o_trace (handler E listener_id inbox w))).
Proof.
  intros X E listener_id inbox w e. unfold handler, try_finally, try_except.
  destruct (_handler E listener_id inbox w) as [w1 t1 [u|e1]]; cbn [o_result].
  - rewrite bind_run. unfold listeners_remove_listener.
    destruct (Listeners.remove listener_id (w_listeners w1)); simpl. discriminate.
  - destruct (is_connection_closed e1) eqn:Hc; simpl.
    + rewrite bind_run. unfold listeners_remove_listener.
      destruct (Listeners.remove listener_id (w_listeners w1)); simpl. discriminate.
    + rewrite bind_run. unfold listeners_remove_listener.
      destruct (Listeners.remove listener_id (w_listeners w1)); simpl.
      intros H. injection H as <-. repeat split; [assumption|].
      rewrite calls_app. apply in_or_app. right. simpl. auto.
Qed.

(** ** Further facts about the scheduler *)

Section MoreTriggerFacts.
Variable collector : string -> option exn.
Variable callback : string -> option exn.

(** The events of a run are about its own tasks. *)
Lemma steps_event_names (tasks : list task) (events : list sched_event)
    (tasks' : list task) :
  steps collector callback tasks events tasks' -> Forall shaped tasks ->
  forall ev, In ev events -> In (event_name ev) (map t_name tasks).
Proof.
  intros Hsteps Hs.
  pose proof (steps_invariant collector callback
    (fun hist ts =>
       map t_name ts = map t_name tasks
       /\ forall ev, In ev hist -> In (event_name ev) (map t_name tasks))) as Hinv.
  cbv beta in Hinv.
  assert (Hstep : forall hist ts i t ev r t',
    Forall shaped ts ->
    (map t_name ts = map t_name tasks
     /\ forall ev0, In ev0 hist -> In (event_name ev0) (map t_name tasks)) ->
    ts !! i = Some t -> step_task collector callback t = Some (ev, r, t') ->
    map t_name (<[i:=t']> ts) = map t_name tasks
    /\ forall ev0, In ev0 (hist ++ [ev]) -> In (event_name ev0) (map t_name tasks)).
  { intros hist ts i t ev r t' Hsh [Hnames Hhist] Hi Hst.
    assert (Ht : shaped t) by (eapply Forall_lookup_1; eassumption).
    destruct (step_task_cases collector callback t ev r t' Ht Hst) as [Hn Hcase].
    split; [rewrite <- Hnames; eapply insert_names; eassumption|].
    intros ev0 Hin. apply in_snoc in Hin. destruct Hin as [Hin| ->]; [auto|].
    assert (Hname : event_name ev = t_name t).
    { destruct Hcase as [H|[H|[H|[H|[H|H]]]]];
        repeat match goal with
               | H : _ /\ _ |- _ => destruct H
               | H : exists _, _ |- _ => destruct H
               end; subst ev; reflexivity. }
    rewrite Hname, <- Hnames. apply in_map. apply list_elem_of_In.
    eapply list_elem_of_lookup_2; eassumption. }
  destruct (Hinv Hstep tasks events tasks' Hsteps [] Hs) as [_ H].
  - split; [reflexivity | intros ev []].
  - exact H.
Qed.

Lemma run_event_names (names : list string)
    (main : list sched_event * option exn * list task) :
  run_of collector callback names main ->
  forall ev, In ev (asyncio_run main).1 -> In (event_name ev) names.
Proof.
  intros (tasks' & Hsteps & Hsub & _) ev Hin.
  destruct main as [[evs r] pending]. simpl in *.
  apply in_app_iff in Hin. destruct Hin as [Hin|Hin].
  - rewrite <- (names_task_of names).
    eapply steps_event_names; [exact Hsteps | apply shaped_task_of | exact Hin].
  - apply in_cancel_all in Hin. destruct Hin as (t & Ht & _ & ->). simpl.
    rewrite <- (names_task_of names).
    rewrite <- (steps_names collector callback _ _ _ Hsteps (shaped_task_of _)).
    apply in_map. auto.
Qed.

(** An await that raised in a run did raise, and a run that returns has
    cancelled nothing. *)
Lemma run_raised_sound (names : list string)
    (main : list sched_event * option exn * list task) :
  NoDup names -> run_of collector callback names main ->
  (forall a e, In (Raised a e) (asyncio_run main).1 -> completes collector callback a = Some e)
  /\ ((asyncio_run main).2 = Ok tt ->
      forall ev, In ev (asyncio_run main).1 ->
        (forall n, ev <> Cancelled n) /\ (forall a e, ev <> Raised a e)).
Proof.
  intros Hnd (tasks' & Hsteps & Hsub & Hok & _).
  pose proof (steps_run_inv collector callback names _ _ Hnd Hsteps)
    as (_ & _ & _ & Hsound & _).
  destruct main as [[evs r] pending]. simpl in *. split.
  - intros a e Hin. apply in_app_iff in Hin. destruct Hin as [Hin|Hin].
    + apply (Hsound _ Hin).
    + apply in_cancel_all in Hin. destruct Hin as (t & _ & _ & Heq). discriminate.
  - intros Hr ev Hin. destruct r as [e|]; [discriminate|].
    destruct (Hok eq_refl) as [Hall Hno].
    apply in_app_iff in Hin. destruct Hin as [Hin|Hin].
    + split.
      * intros n ->. apply (Hsound _ Hin).
      * intros a e ->. apply (Hno a e Hin).
    + apply in_cancel_all in Hin. destruct Hin as (t & Ht & Hcode & _).
      exfalso. apply Hcode. apply Hsub in Ht.
      apply list_elem_of_In, list_elem_of_lookup in Ht. destruct Ht as [i Hi].
      exact (Forall_lookup_1 _ _ _ _ Hall Hi).
Qed.

(** A trigger in which nothing raises returns, with every category
    refreshed and notified. *)
Lemma quiet_run (names : list string)
    (main : list sched_event * option exn * list task) :
  NoDup names -> run_of collector callback names main ->
  (forall n, In n names -> collector n = None /\ callback n = None) ->
  (asyncio_run main).2 = Ok tt.
Proof.
  intros Hnd Hrun Hquiet.
  destruct (asyncio_run_facts collector callback names main Hnd Hrun)
    as (_ & _ & _ & _ & _ & _ & Hraise).
  destruct (run_raised_sound names main Hnd Hrun) as [Hsound _].
  destruct (asyncio_run main).2 as [[]|e] eqn:Hr; [reflexivity|].
  destruct (Hraise e eq_refl) as [a Ha].
  pose proof (run_event_names names main Hrun _ Ha) as Hn. simpl in Hn.
  apply Hsound in Ha. destruct (Hquiet _ Hn) as [H1 H2].
  destruct a; simpl in *; congruence.
Qed.

(** A category whose notification raises brings its trigger down. *)
Lemma failing_callback (names : list string)
    (main : list sched_event * option exn * list task) (name : string) (e : exn) :
  NoDup names -> run_of collector callback names main ->
  In name names -> callback name = Some e ->
  (exists a e', (asyncio_run main).2 = Raise e' /\ In (Raised a e') (asyncio_run main).1)
  /\ ~ In (Returns (updated_callback name)) (asyncio_run main).1.
Proof.
  intros Hnd Hrun Hin Hc.
  destruct (asyncio_run_facts collector callback names main Hnd Hrun)
    as (_ & _ & _ & Hend & _ & Hok & Hraise).
  assert (Hnever : ~ In (Returns (updated_callback name)) (asyncio_run main).1).
  { intros H. apply Hend in H. simpl in H. congruence. }
  split; [|exact Hnever].
  destruct (asyncio_run main).2 as [[]|e'] eqn:Hr.
  - destruct (Hok eq_refl name Hin) as [_ Hcb]. contradiction.
  - destruct (Hraise e' eq_refl) as [a Ha]. eauto.
Qed.

End MoreTriggerFacts.

Lemma classes_in_MODULES (name : string) :
  In name _classes \/ In name frequent_names -> in_MODULES name = true.
Proof.
  unfold _classes, frequent_names, _classes_frequent. simpl.
  intros H.
  repeat match goal with
         | H : _ \/ _ |- _ => destruct H as [H|H]
         | H : False |- _ => destruct H
         end; subst; reflexivity.
Qed.

(** X17.  Every run of the full trigger, whatever the schedule and
    whatever raises: the notification of a category starts only after its
    refresh has returned; the trigger returns normally only when battery,
    disk and system have all refreshed and notified; no refresh starts
    twice; and the three run concurrently: for any two of them there is a
    schedule in which both refreshes have started before either returns. *)
Theorem full_trigger_notifies_after_refresh :
  forall (collector callback : string -> option exn) (schedule : list nat),
    let run := UpdateThread_run collector callback schedule in
    (forall name,
        precedes (Returns (update_all_data name)) (Starts (updated_callback name)) run.1)
    /\ (run.2 = Ok tt -> forall name, In name _classes -> completed name run.1)
    /\ (forall name, at_most_once (Starts (update_all_data name)) run.1)
    /\ (forall c1 c2,
          In c1 _classes -> In c2 _classes -> c1 <> c2 ->
          exists schedule' rest,
            (UpdateThread_run (fun _ => None) (fun _ => None) schedule').1 =
              Starts (update_all_data c1) :: Starts (update_all_data c2) :: rest).
Proof.
  intros collector callback schedule run.
  destruct (update_data_run collector callback schedule) as [Hrun _].
  destruct (asyncio_run_facts collector callback _ _ classes_distinct Hrun)
    as (Hord & Honce & _ & _ & _ & Hok & _).
  split; [exact Hord | split; [exact Hok | split; [exact Honce|]]].
  intros c1 c2 H1 H2 Hne. unfold _classes in H1, H2. simpl in H1, H2.
  repeat match goal with
         | H : _ \/ _ |- _ => destruct H as [H|H]
         | H : False |- _ => destruct H
         end; subst; try congruence.
  all: match goal with
       | |- context [Starts (update_all_data ?c1) :: Starts (update_all_data ?c2) :: _] =>
           exists [position c1 _classes; position c2 _classes]
       end; eexists; vm_compute; reflexivity.
Qed.

(** X18.  A category whose notification callback raises: the trigger run by
    its thread raises an exception one of its members raised, and the
    notification of that category never returns.  If it is the
    notification of sensors (whose refresh returned), the frequent trigger
    ends there and none of the six starts. *)
Theorem callback_failure_aborts_trigger :
  forall (collector callback : string -> option exn) (schedule : list nat)
         (name : string) (e : exn),
    callback name = Some e ->
    (In name _classes ->
     let run := UpdateThread_run collector callback schedule in
     (exists a e', run.2 = Raise e' /\ In (Raised a e') run.1)
     /\ ~ In (Returns (updated_callback name)) run.1)
    /\ (In name frequent_names ->
        let run := UpdateFrequentThread_run collector callback schedule in
        (exists a e', run.2 = Raise e' /\ In (Raised a e') run.1)
        /\ ~ In (Returns (updated_callback name)) run.1
        /\ (name = "sensors" -> collector "sensors" = None ->
            run = ([Starts (update_all_data "sensors"); Returns (update_all_data "sensors");
                    Starts (updated_callback "sensors");
                    Raised (updated_callback "sensors") e], Raise e))).
Proof.
  intros collector callback schedule name e Hc. split; intros Hin run.
  - destruct (update_data_run collector callback schedule) as [Hrun _].
    exact (failing_callback collector callback _ _ name e classes_distinct Hrun Hin Hc).
  - destruct (update_frequent_data_run collector callback schedule) as [Hrun _].
    destruct (failing_callback collector callback _ _ name e classes_frequent_distinct
                Hrun Hin Hc) as [Hraise Hnever].
    split; [exact Hraise | split; [exact Hnever|]].
    intros -> Hs. subst run.
    unfold UpdateFrequentThread_run, update_frequent_data, asyncio_run. simpl.
    rewrite Hs, Hc. reflexivity.
Qed.

(** X19.  The events of a trigger concern its own categories only: those
    of the full trigger are about battery, disk and system, those of the
    frequent trigger about sensors and the six frequent categories.  So the
    two triggers never refresh or notify the same category, and every
    category they notify is one [_data_changed] pushes. *)
Theorem triggers_keep_to_their_categories :
  forall (collector callback : string -> option exn) (schedule schedule' : list nat),
    let full := UpdateThread_run collector callback schedule in
    let frequent := UpdateFrequentThread_run collector callback schedule' in
    (forall ev, In ev full.1 -> In (event_name ev) _classes)
    /\ (forall ev, In ev frequent.1 -> In (event_name ev) frequent_names)
    /\ (forall ev ev', In ev full.1 -> In ev' frequent.1 -> event_name ev <> event_name ev')
    /\ (forall ev, In ev full.1 \/ In ev frequent.1 -> in_MODULES (event_name ev) = true).
Proof.
  intros collector callback schedule schedule' full frequent.
  destruct (update_data_run collector callback schedule) as [Hrun _].
  destruct (update_frequent_data_run collector callback schedule') as [Hrun' _].
  pose proof (run_event_names collector callback _ _ Hrun) as Hfull.
  pose proof (run_event_names collector callback _ _ Hrun') as Hfreq.
  fold full in Hfull. fold frequent in Hfreq. fold frequent_names in Hfreq.
  split; [exact Hfull | split; [exact Hfreq | split]].
  - intros ev ev' Hin Hin' Heq. apply Hfull in Hin. apply Hfreq in Hin'.
    rewrite <- Heq in Hin'. revert Hin Hin'.
    unfold _classes, frequent_names, _classes_frequent. simpl.
    intros H H'.
    repeat match goal with
           | H : _ \/ _ |- _ => destruct H as [H|H]
           | H : False |- _ => destruct H
           end; congruence.
  - intros ev [Hin|Hin]; apply classes_in_MODULES; auto.
Qed.

(** X20.  A trigger none of whose collectors and notifications raises
    returns normally under every schedule: every category is refreshed and
    notified, nothing raises and nothing is cancelled. *)
Theorem trigger_without_failure_completes :
  forall (collector callback : string -> option exn) (schedule : list nat),
    ((forall n, In n _classes -> collector n = None /\ callback n = None) ->
     let run := UpdateThread_run collector callback schedule in
     run.2 = Ok tt
     /\ (forall n, In n _classes -> completed n run.1)
     /\ (forall ev, In ev run.1 ->
           (forall n, ev <> Cancelled n) /\ (forall a e, ev <> Raised a e)))
    /\ ((forall n, In n frequent_names -> collector n = None /\ callback n = None) ->
        let run := UpdateFrequentThread_run collector callback schedule in
        run.2 = Ok tt
        /\ (forall n, In n frequent_names -> completed n run.1)
        /\ (forall ev, In ev run.1 ->
              (forall n, ev <> Cancelled n) /\ (forall a e, ev <> Raised a e))).
Proof.
  intros collector callback schedule. split; intros Hquiet run.
  - destruct (update_data_run collector callback schedule) as [Hrun _].
    pose proof (quiet_run collector callback _ _ classes_distinct Hrun Hquiet) as Hr.
    destruct (asyncio_run_facts collector callback _ _ classes_distinct Hrun)
      as (_ & _ & _ & _ & _ & Hok & _).
    destruct (run_raised_sound collector callback _ _ classes_distinct Hrun) as [_ Hclean].
    split; [exact Hr | split; [exact (Hok Hr) | exact (Hclean Hr)]].
  - destruct (update_frequent_data_run collector callback schedule) as [Hrun _].
    pose proof (quiet_run collector callback _ _ classes_frequent_distinct Hrun Hquiet) as Hr.
    destruct (asyncio_run_facts collector callback _ _ classes_frequent_distinct Hrun)
      as (_ & _ & _ & _ & _ & Hok & _).
    destruct (run_raised_sound collector callback _ _ classes_frequent_distinct Hrun)
      as [_ Hclean].
    split; [exact Hr | split; [exact (Hok Hr) | exact (Hclean Hr)]].
Qed.

(** ** Facts about the sensors collector *)

Section StoreFacts.
Context {D : Type} (update_data : SensorsUpdate.DatabaseModel -> D -> D * option exn).

(** The loop writes the rows in order and stops at the first write that
    raises. *)
Lemma write_prefix (rows : list SensorsUpdate.DatabaseModel) (d : D) :
  let out := SensorsUpdate.write update_data rows d in
  (exists rest, rows = out.1.2 ++ rest)
  /\ (out.2 = Ok tt -> out.1.2 = rows)
  /\ (forall e, out.2 = Raise e ->
      exists before r d0 d1,
        out.1.2 = before ++ [r] /\ update_data r d0 = (d1, Some e)).
Proof.
  revert d. induction rows as [|r rows IH]; intros d; simpl.
  - split; [exists []; reflexivity | split; [reflexivity | discriminate]].
  - destruct (update_data r d) as [d1 [e|]] eqn:Hw; simpl.
    + split; [exists rows; reflexivity | split; [discriminate|]].
      intros e0 He. injection He as <-. exists [], r, d, d1. auto.
    + specialize (IH d1). destruct (SensorsUpdate.write update_data rows d1)
        as [[d2 written] res]. simpl in *.
      destruct IH as ([rest Hrest] & Hall & Hraise).
      split; [exists rest; congruence | split].
      * intros Hr. rewrite (Hall Hr). reflexivity.
      * intros e He. destruct (Hraise e He) as (before & r0 & d0 & d3 & -> & Hw0).
        exists (r :: before), r0, d0, d3. auto.
Qed.

End StoreFacts.

Lemma rows_of_In (group : string) (data : SensorsUpdate.readings)
    (r : SensorsUpdate.DatabaseModel) :
  In r (SensorsUpdate.rows_of group data) <->
  exists key items item subkey subvalue,
    In (key, items) data /\ In item items /\ In (subkey, subvalue) item
    /\ r = SensorsUpdate.row group key subkey subvalue.
Proof.
  unfold SensorsUpdate.rows_of, SensorsUpdate.rows_of_reading. rewrite in_flat_map. split.
  - intros ([key items] & Hd & Hin). simpl in Hin. apply in_flat_map in Hin.
    destruct Hin as (item & Hi & Hin). apply in_map_iff in Hin.
    destruct Hin as ([subkey subvalue] & <- & Hf). simpl.
    exists key, items, item, subkey, subvalue. auto.
  - intros (key & items & item & subkey & subvalue & Hd & Hi & Hf & ->).
    exists (key, items). split; [assumption|]. simpl. apply in_flat_map.
    exists item. split; [assumption|]. apply in_map_iff.
    exists (subkey, subvalue). auto.
Qed.

Lemma truthy_rows (group : string) (data : option SensorsUpdate.readings) :
  match SensorsUpdate.truthy data with
  | Some d => SensorsUpdate.rows_of group d
  | None => []
  end =
  match data with
  | Some d => SensorsUpdate.rows_of group d
  | None => []
  end.
Proof. destruct data as [[|entry d]|]; reflexivity. Qed.

(** X21.  [update_fans] and [update_temperatures] write one row for each
    field of each reading of each hardware entry, in the order psutil gives
    them, and nothing else: the rows written are a prefix of that list, all
    of it when the coroutine returns, and when it raises the exception is
    the one the last write raised.  Without readings ([None], or an empty
    [dict]) nothing is written. *)
Theorem sensor_rows_follow_the_readings :
  forall (D : Type) (update_data : SensorsUpdate.DatabaseModel -> D -> D * option exn)
         (data : option SensorsUpdate.readings) (d : D),
    let rows group :=
      match data with Some items => SensorsUpdate.rows_of group items | None => [] end in
    let check group (out : D * list SensorsUpdate.DatabaseModel * result unit) :=
      (exists rest, rows group = out.1.2 ++ rest)
      /\ (out.2 = Ok tt -> out.1.2 = rows group)
      /\ (forall e, out.2 = Raise e ->
          exists before r d0 d1,
            out.1.2 = before ++ [r] /\ update_data r d0 = (d1, Some e))
      /\ (data = None \/ data = Some [] -> out = (d, [], Ok tt)) in
    check "fans" (SensorsUpdate.update_fans update_data data d)
    /\ check "temperatures" (SensorsUpdate.update_temperatures update_data data d).
Proof.
  intros D update_data data d rows check.
  assert (H : forall group,
    check group
      match SensorsUpdate.truthy data with
      | Some items => SensorsUpdate.write update_data (SensorsUpdate.rows_of group items) d
      | None => (d, [], Ok tt)
      end).
  { intros group. subst check rows. cbv beta.
    rewrite <- (truthy_rows group data).
    destruct (SensorsUpdate.truthy data) as [items|] eqn:Ht.
    - destruct (write_prefix update_data (SensorsUpdate.rows_of group items) d)
        as (H1 & H2 & H3).
      split; [exact H1 | split; [exact H2 | split; [exact H3|]]].
      intros [-> | ->]; discriminate.
    - simpl. split; [exists []; reflexivity | split; [reflexivity | split]].
      + discriminate.
      + reflexivity. }
  split; apply H.
Qed.

(** X22.  A row is written for a field of a reading and for nothing else,
    and it carries the hardware name twice, the field name twice and the
    value; the rows of the fans and those of the temperatures never have a
    key in common. *)
Theorem sensor_rows_have_their_own_keys :
  forall (fans temperatures : SensorsUpdate.readings)
         (r r' : SensorsUpdate.DatabaseModel),
    (In r (SensorsUpdate.rows_of "fans" fans) <->
     exists key items item subkey subvalue,
       In (key, items) fans /\ In item items /\ In (subkey, subvalue) item
       /\ r = {| SensorsUpdate.key := "fans_" ++ key ++ "_" ++ subkey;
                 SensorsUpdate.type := subkey;
                 SensorsUpdate.name := subkey;
                 SensorsUpdate.hardware_type := key;
                 SensorsUpdate.hardware_name := key;
                 SensorsUpdate.value := subvalue |})
    /\ (In r (SensorsUpdate.rows_of "fans" fans) ->
        In r' (SensorsUpdate.rows_of "temperatures" temperatures) ->
        SensorsUpdate.key r <> SensorsUpdate.key r').
Proof.
  intros fans temperatures r r'. split.
  - apply rows_of_In.
  - intros Hin Hin'. apply rows_of_In in Hin, Hin'.
    destruct Hin as (k & items & item & sk & sv & _ & _ & _ & ->).
    destruct Hin' as (k' & items' & item' & sk' & sv' & _ & _ & _ & ->).
    simpl. discriminate.
Qed.

Lemma rows_of_app (group : string) (d1 d2 : SensorsUpdate.readings) :
  SensorsUpdate.rows_of group (d1 ++ d2) =
    SensorsUpdate.rows_of group d1 ++ SensorsUpdate.rows_of group d2.
Proof. unfold SensorsUpdate.rows_of. apply flat_map_app. Qed.

(** X23.  The key of a row names the hardware entry and the field, not the
    reading: when a hardware entry has two readings with a field of the
    same name (two fans of one chip, two cores of one sensor), two of the
    rows written have the same key. *)
Theorem readings_of_one_hardware_share_keys :
  forall (group key field : string) (data : SensorsUpdate.readings)
         (l1 l2 l3 : list SensorsUpdate.reading) (item item' : SensorsUpdate.reading)
         (v v' : pyval),
    In (key, l1 ++ item :: l2 ++ item' :: l3) data ->
    In (field, v) item ->
    In (field, v') item' ->
    exists rows1 rows2 rows3 r r',
      SensorsUpdate.rows_of group data = rows1 ++ r :: rows2 ++ r' :: rows3
      /\ SensorsUpdate.key r = SensorsUpdate.key r'
      /\ SensorsUpdate.value r = v /\ SensorsUpdate.value r' = v'.
Proof.
  intros group key field data l1 l2 l3 item item' v v' Hd Hf Hf'.
  apply in_split in Hd. destruct Hd as (d1 & d2 & ->).
  apply in_split in Hf. destruct Hf as (f1 & f2 & ->).
  apply in_split in Hf'. destruct Hf' as (f1' & f2' & ->).
  set (rr := SensorsUpdate.rows_of_reading group key).
  exists (SensorsUpdate.rows_of group d1 ++ flat_map rr l1 ++ rr f1),
         (rr f2 ++ flat_map rr l2 ++ rr f1'),
         (rr f2' ++ flat_map rr l3 ++ SensorsUpdate.rows_of group d2),
         (SensorsUpdate.row group key field v), (SensorsUpdate.row group key field v').
  split; [|repeat split].
  rewrite rows_of_app. unfold SensorsUpdate.rows_of at 2. cbn [flat_map fst snd].
  fold (SensorsUpdate.rows_of group d2). fold rr.
  rewrite !flat_map_app. cbn [flat_map]. rewrite !flat_map_app. cbn [flat_map].
  assert (Hrr : forall a f x b,
    rr (a ++ (f, x) :: b) = rr a ++ SensorsUpdate.row group key f x :: rr b).
  { intros. unfold rr, SensorsUpdate.rows_of_reading. rewrite map_app. reflexivity. }
  rewrite !Hrr. clearbody rr.
  repeat (rewrite <- ?app_assoc; cbn [app]). reflexivity.
Qed.

(** ** Authentication *)

Section AuthFacts.
Context {X : Type} (E : Env X).

Lemma loop_no_loop_calls (request : Request) (modules : list string) (w : World X) :
  forall c, In c (calls (o_trace (for_each modules (push_module E request) w))) ->
    is_loop_call c = false.
Proof.
  intros c Hin. destruct (loop_shape E request modules w) as (_ & Honly & _).
  destruct (Honly c Hin); destruct c; simpl in *; congruence.
Qed.

(** The dispatcher neither receives nor reads the secret. *)
Lemma branch_no_loop_calls (listener_id : string) (data : pydict) (request : Request)
    (m : M X unit) (w : World X) :
  branch E listener_id data request m ->
  forall c, In c (calls (o_trace (m w))) -> is_loop_call c = false.
Proof.
  intros Hb. destruct Hb.
  10: { intros c Hin. destruct (get_data_shape E data request w) as (_ & Honly & _).
        destruct (Honly c Hin); destruct c; simpl in *; congruence. }
  all: destruct (w_active w) eqn:Ha; exec; resolve.
Qed.

Lemma authorised_dispatch (last : option pydict) (t rest : trace) :
  (forall c, In c (calls t) -> is_loop_call c = false) ->
  authorised E last true (t ++ rest) = authorised E last true rest.
Proof.
  induction t as [|[c r] t IH]; intros H; [reflexivity|].
  assert (Hc : is_loop_call c = false) by (apply H; left; reflexivity).
  assert (IH' : authorised E last true (t ++ rest) = authorised E last true rest)
    by (apply IH; intros c' Hin; apply H; right; assumption).
  destruct c; try discriminate Hc; simpl; exact IH'.
Qed.

Lemma authorised_send (last : option pydict) (ok : bool) (r : Response) (w : World X)
    (rest : trace) :
  authorised E last ok (o_trace (_send_response E r w) ++ rest) = authorised E last ok rest.
Proof.
  unfold _send_response. destruct (negb (w_active w)); [reflexivity|].
  unfold perform. destruct (ext E (send_json r) (w_ext w)) as [x res]. reflexivity.
Qed.

(** One pass of the loop, followed by a trace that starts afresh. *)
Lemma authorised_body (listener_id : string) (item : inbound) (w : World X)
    (last : option pydict) (ok : bool) (rest : trace) :
  (forall last' ok', authorised E last' ok' rest = true) ->
  authorised E last ok (o_trace (_handler_body E listener_id item w) ++ rest) = true.
Proof.
  intros Hrest.
  pose proof (fun d rq w1 =>
    branch_no_loop_calls listener_id d rq _ w1 (handle_event_branch E listener_id d rq))
    as Hhost.
  assert (H : forall chk, chk = authorised E last ok ->
            chk (o_trace (_handler_body E listener_id item w) ++ rest) = true);
    [|apply H; reflexivity].
  intros chk Hchk.
  unfold _handler_body, receive, as_mapping, set_active. unfold_session.
  repeat (simpl; case_step); subst chk; simpl;
    unfold carries_secret;
    repeat match goal with
           | H : Request_ E _ = _ |- _ => rewrite H
           | H : api_key_differs _ _ = _ |- _ => rewrite H
           end; simpl;
    try match goal with
        | H : _handle_event E listener_id ?d ?rq ?w1 = _ |- _ =>
            specialize (Hhost d rq w1); rewrite H in Hhost; simpl in Hhost;
            rewrite ?app_nil_r, <- ?app_assoc; rewrite authorised_dispatch by exact Hhost
        end; simpl; try apply Hrest.
Qed.

Lemma authorised_handler (listener_id : string) (inbox : list inbound) (w : World X)
    (last : option pydict) (ok : bool) :
  authorised E last ok (o_trace (_handler E listener_id inbox w)) = true.
Proof.
  revert w last ok. induction inbox as [|item rest IH]; intros w last ok;
    cbn [_handler]; destruct (w_active w); try reflexivity.
  rewrite bind_run.
  pose proof (authorised_body listener_id item w last ok) as Hbody.
  destruct (_handler_body E listener_id item w) as [w1 t1 [continue|e]];
    cbn [o_result o_trace o_world] in *.
  - destruct continue.
    + apply Hbody. intros last' ok'. apply IH.
    + cbn [ret o_trace]. apply Hbody. reflexivity.
  - rewrite <- (app_nil_r t1). apply Hbody. reflexivity.
Qed.

End AuthFacts.

(** X24.  In every run of [_handler], whatever the inbox holds and
    whatever the calls return, a call other than a receive, a read of the
    secret or a send is made only after the secret has been read for the
    message received last and the request in that message carried it: no
    request is acted on without the api key.  A trace that calls the host
    first does not pass the check. *)
Theorem host_calls_are_authenticated :
  forall (X : Type) (E : Env X) (listener_id : string) (inbox : list inbound)
         (w : World X),
    authorised E None false (o_trace (_handler E listener_id inbox w)) = true
    /\ authorised E None false [Called sleep (Ok PNone)] = false.
Proof.
  intros X E listener_id inbox w. split; [apply authorised_handler | reflexivity].
Qed.

(** X25.  An authenticated request whose dispatch returns, on an active
    session: the pass consists of the receive, the read of the secret and
    the calls of the dispatch, nothing is added to them, and the loop goes
    on with the rest of the inbox in the world the dispatch left. *)
Theorem authenticated_request_is_dispatched :
  forall (X : Type) (E : Env X) (listener_id : string) (item : inbound)
         (rest : list inbound) (w : World X) (data : pydict) (request : Request)
         (api_key : string) (x1 : X) (w2 : World X) (t : trace),
    w_active w = true ->
    in_set_active item <> Some false ->
    in_receive item = Ok (PDict data) ->
    Request_ E data = Ok request ->
    ext E settings_get_secret (w_ext w) = (x1, Ok api_key) ->
    req_api_key request = Some api_key ->
    _handle_event E listener_id data request
      {| w_active := true; w_listeners := w_listeners w; w_ext := x1 |} =
      {| o_world := w2; o_trace := t; o_result := Ok tt |} ->
    let o := _handler E listener_id (item :: rest) w in
    let next := _handler E listener_id rest w2 in
    o_trace o =
      [Called receive_json (Ok (PDict data));
       Called settings_get_secret (Ok (PStr api_key))] ++ t ++ o_trace next
    /\ o_result o = o_result next
    /\ o_world o = o_world next
    /\ w_active w2 = true.
Proof.
  intros X E listener_id item rest w data request api_key x1 w2 t
         Ha Hs Hrecv Hreq Hsecret Hkey Hdispatch o next.
  assert (Hsame : api_key_differs (req_api_key request) api_key = false)
    by now apply api_key_differs_iff.
  pose proof (branch_keeps_flag E listener_id data request _
                (handle_event_branch E listener_id data request)
                {| w_active := true; w_listeners := w_listeners w; w_ext := x1 |}) as Hflag.
  rewrite Hdispatch in Hflag. cbn [o_world w_active] in Hflag.
  subst o. rewrite handler_cons by assumption. rewrite bind_run.
  rewrite (handler_body_authenticates E listener_id item w data request api_key x1)
    by assumption.
  cbv zeta. rewrite Hsame. rewrite bind_run. unfold try_except. rewrite Hdispatch.
  cbn [o_world o_trace o_result ret]. fold next.
  destruct next as [w4 t4 r4]. cbn [o_world o_trace o_result].
  rewrite app_nil_r, <- app_assoc. repeat split. assumption.
Qed.

(** ** The further properties at concrete inputs *)

(** X1 at a power-lock request on a silenced session: the host is locked
    and nothing is sent. *)
Lemma silenced_session_sends_nothing_witness :
  o_trace (_handle_event (Demo.env Demo.fine) "L" []
             (Demo.request "1" TYPE_POWER_LOCK) (Demo.world false)) =
    [Called lock (Ok PNone)].
Proof.
  refine (proj1 (proj2 (proj2 (proj2 (proj2
    (silenced_session_sends_nothing unit (Demo.env Demo.fine) "L" []
       (Demo.request "1" TYPE_POWER_LOCK) (Demo.world false) _)))))).
  reflexivity.
Defined.

(** X2 at a get-settings request on a session that holds a registration. *)
Lemma dispatch_leaves_registry_alone_witness :
  w_listeners (o_world (_handle_event (Demo.env Demo.fine) "L" []
                          (Demo.request "1" TYPE_GET_SETTINGS) Demo.registered)) =
    w_listeners Demo.registered.
Proof.
  refine (proj1
    (dispatch_leaves_registry_alone unit (Demo.env Demo.fine) "L" []
       (Demo.request "1" TYPE_GET_SETTINGS) Demo.registered _ _)).
  - discriminate.
  - discriminate.
Defined.

(** X3 at an open request whose path is not a string. *)
Lemma rejected_model_is_a_bad_request_witness :
  calls (o_trace (_handle_event (Demo.env Demo.fine) "L" More.bad_path_fields
                    (Demo.request "1" TYPE_OPEN) (Demo.world true))) =
    [send_json (error_response (Some "1") SUBTYPE_BAD_REQUEST
                  "Invalid request: path: field required" [])].
Proof.
  refine (proj1 (proj1
    (rejected_model_is_a_bad_request unit (Demo.env Demo.fine) "L" More.bad_path_fields
       (Demo.request "1" TYPE_OPEN)
       {| exn_cls := ValueError; exn_msg := "path: field required" |}
       (Demo.world true) _) _ _)).
  - simpl. tauto.
  - reflexivity.
  - reflexivity.
Defined.

(** X4 at an event that does not exist. *)
Lemma unknown_event_is_reported_witness :
  calls (o_trace (_handle_event (Demo.env Demo.fine) "L" []
                    (Demo.request "1" "bogus") (Demo.world true))) =
    [send_json (error_response (Some "1") SUBTYPE_UNKNOWN_EVENT "Unknown event"
                  [(EVENT_EVENT, PStr "bogus")])].
Proof.
  refine (proj1
    (unknown_event_is_reported unit (Demo.env Demo.fine) "L" []
       (Demo.request "1" "bogus") (Demo.world true) _ _)).
  - simpl. intuition discriminate.
  - reflexivity.
Defined.

(** X5 at a keyboard-keypress request without a key. *)
Lemma missing_field_is_rejected_witness :
  calls (o_trace (_handle_event (Demo.env Demo.fine) "L" More.no_fields
                    (Demo.request "1" TYPE_KEYBOARD_KEYPRESS) (Demo.world true))) =
    [send_json (error_response (Some "1") SUBTYPE_MISSING_KEY "No key provided" [])].
Proof.
  refine (proj1
    (missing_field_is_rejected unit (Demo.env Demo.fine) "L" More.no_fields
       (Demo.request "1" TYPE_KEYBOARD_KEYPRESS) SUBTYPE_MISSING_KEY "No key provided"
       (Demo.world true) _ _)).
  - exact (no_key (Demo.env Demo.fine) More.no_fields {| kk_key := None |} eq_refl eq_refl).
  - reflexivity.
Defined.

(** X6 at a power-lock request on an active session. *)
Lemma power_reply_precedes_action_witness :
  calls (o_trace (_handle_event (Demo.env Demo.fine) "L" []
                    (Demo.request "1" TYPE_POWER_LOCK) (Demo.world true))) =
    [send_json (reply (Some "1") TYPE_POWER_LOCKING (Some "Locking") []); lock].
Proof.
  refine (proj2
    (power_reply_precedes_action unit (Demo.env Demo.fine) "L" []
       (Demo.request "1" TYPE_POWER_LOCK) TYPE_POWER_LOCKING "Locking" lock
       (Demo.world true) _) _).
  - simpl. tauto.
  - reflexivity.
Defined.

(** X7 at a key the host does not know. *)
Lemma keypress_reports_an_invalid_key_witness :
  calls (o_trace (_handle_event (Demo.env More.bad_key) "L" More.key_fields
                    (Demo.request "1" TYPE_KEYBOARD_KEYPRESS) (Demo.world true))) =
    [keyboard_keypress "f13";
     send_json (error_response (Some "1") SUBTYPE_MISSING_KEY "Invalid key" [])].
Proof.
  refine (proj1
    (keypress_reports_an_invalid_key unit (Demo.env More.bad_key) "L" More.key_fields
       (Demo.request "1" TYPE_KEYBOARD_KEYPRESS) {| kk_key := Some "f13" |} "f13"
       (Demo.world true) _ _ _ _)).
  all: reflexivity.
Defined.

(** X8 at autostart set to [1]: the value is not [True], autostart is
    disabled. *)
Lemma update_setting_toggles_autostart_witness :
  calls (o_trace (_handle_event (Demo.env Demo.fine) "L" More.autostart_fields
                    (Demo.request "1" TYPE_UPDATE_SETTING) (Demo.world true))) =
    [settings_set "autostart" (PInt 1);
     send_json (reply (Some "1") TYPE_SETTING_UPDATED (Some "Setting updated")
                  [(EVENT_SETTING, PStr "autostart"); (EVENT_VALUE, PInt 1)]);
     autostart_disable].
Proof.
  refine (update_setting_toggles_autostart unit (Demo.env Demo.fine) "L"
            More.autostart_fields (Demo.request "1" TYPE_UPDATE_SETTING)
            {| us_setting := "autostart"; us_value := PInt 1 |} (Demo.world true) _ _ _ _).
  all: reflexivity.
Defined.

(** X9 at a request for cpu and for a module the table map does not
    know. *)
Lemma get_data_reads_each_module_once_witness :
  List.filter is_get_data_dict
    (calls (o_trace (_handle_event (Demo.env Demo.fine) "L" More.cpu_fields
                       (Demo.request "1" TYPE_GET_DATA) (Demo.world true)))) =
    [get_data_dict (Some "cpu"); get_data_dict None].
Proof.
  refine (proj1 (proj2
    (get_data_reads_each_module_once unit (Demo.env Demo.fine) "L" More.cpu_fields
       (Demo.request "1" TYPE_GET_DATA) {| gd_modules := Some ["cpu"; "nope"] |}
       (Demo.world true) _ _ _ _ _))).
  all: reflexivity.
Defined.

(** X10 at a get-files request for a directory that is there. *)
Lemma files_are_read_after_the_checks_witness :
  In (Called (os_path_isdir "/music/a") (Ok (PBool true)))
     (o_trace (_handle_event (Demo.env Demo.fine) "L" More.files_fields
                 (Demo.request "1" TYPE_GET_FILES) (Demo.world true))).
Proof.
  refine (proj2 (proj1
    (files_are_read_after_the_checks unit (Demo.env Demo.fine) "L" More.files_fields
       (Demo.request "1" TYPE_GET_FILES) (Demo.world true)) "music" "/music/a" _)).
  vm_compute. tauto.
Defined.

(** X11 at a second registration of a connection that registered for cpu. *)
Lemma registration_is_stored_once_witness :
  w_listeners (o_world (_handle_event (Demo.env Demo.fine) "L" Samples.register_fields
                          (Demo.request "1" TYPE_REGISTER_DATA_LISTENER) Demo.registered)) =
    w_listeners Demo.registered.
Proof.
  refine (proj1
    (registration_is_stored_once unit (Demo.env Demo.fine) "L" Samples.register_fields
       (Demo.request "1" TYPE_REGISTER_DATA_LISTENER)
       {| rdl_modules := Some ["cpu"; "disk"] |} Demo.registered _ _ _ _)).
  all: reflexivity.
Defined.

(** X12 at a connection that never registered. *)
Lemma unregister_reports_a_missing_registration_witness :
  calls (o_trace (_handle_event (Demo.env Demo.fine) "L" []
                    (Demo.request "1" TYPE_UNREGISTER_DATA_LISTENER) (Demo.world true))) =
    [remove_listener "L";
     send_json (error_response (Some "1") SUBTYPE_LISTENER_NOT_REGISTERED
                  "Listener not registered with this connection" [])].
Proof.
  refine (proj2
    (unregister_reports_a_missing_registration unit (Demo.env Demo.fine) "L" []
       (Demo.request "1" TYPE_UNREGISTER_DATA_LISTENER) (Demo.world true) _ _)).
  all: reflexivity.
Defined.

(** X13 at a registration for cpu and disk that is taken back. *)
Lemma register_then_unregister_restores_registry_witness :
  w_listeners
    (o_world
       (_handle_event (Demo.env Demo.fine) "L" []
          (Demo.request "2" TYPE_UNREGISTER_DATA_LISTENER)
          (o_world (_handle_event (Demo.env Demo.fine) "L" Samples.register_fields
                      (Demo.request "1" TYPE_REGISTER_DATA_LISTENER) (Demo.world true))))) =
    w_listeners (Demo.world true).
Proof.
  refine (proj1
    (register_then_unregister_restores_registry unit (Demo.env Demo.fine) "L"
       Samples.register_fields [] (Demo.request "1" TYPE_REGISTER_DATA_LISTENER)
       (Demo.request "2" TYPE_UNREGISTER_DATA_LISTENER)
       {| rdl_modules := Some ["cpu"; "disk"] |} (Demo.world true) _ _ _ _ _ _)).
  all: reflexivity.
Defined.

(** X14 at a message that is not JSON, followed by a valid one. *)
Lemma undecodable_message_ends_session_witness :
  calls (o_trace (_handler (Demo.env Demo.fine) "L"
                    [More.garbage;
                     Demo.message (Samples.envelope "4" TYPE_EXIT_APPLICATION "K" [])]
                    (Demo.world true))) =
    [receive_json;
     send_json (error_response None SUBTYPE_BAD_JSON "Invalid JSON: Expecting value" [])].
Proof.
  refine (proj1 (proj1
    (undecodable_message_ends_session unit (Demo.env Demo.fine) "L" More.garbage
       [Demo.message (Samples.envelope "4" TYPE_EXIT_APPLICATION "K" [])]
       (Demo.world true)
       {| exn_cls := JSONDecodeError; exn_msg := "Expecting value" |} _ _ _) _)).
  - reflexivity.
  - discriminate.
  - reflexivity.
  - reflexivity.
Defined.

(** X15 at a get-settings request during whose receive the session is
    silenced. *)
Lemma silenced_while_receiving_witness :
  calls (o_trace (_handler (Demo.env Demo.fine) "L"
                    [More.silenced (Samples.envelope "4" TYPE_GET_SETTINGS "K" []);
                     Demo.message (Samples.envelope "5" TYPE_EXIT_APPLICATION "K" [])]
                    (Demo.world true))) =
    [receive_json; settings_get_secret; settings_get_all].
Proof.
  refine (proj2 (proj2
    (silenced_while_receiving unit (Demo.env Demo.fine) "L"
       (More.silenced (Samples.envelope "4" TYPE_GET_SETTINGS "K" []))
       [Demo.message (Samples.envelope "5" TYPE_EXIT_APPLICATION "K" [])]
       (Demo.world true) _ _))
    (Samples.envelope "4" TYPE_GET_SETTINGS "K" [])
    {| req_id := Some "4"; req_event := TYPE_GET_SETTINGS; req_api_key := Some "K" |}
    "K" tt _ _ _).
  all: reflexivity.
Defined.

(** X16 at a message that is not a mapping: the [TypeError] of [_handler]
    leaves [handler]. *)
Lemma handler_swallows_a_lost_connection_witness :
  o_result (_handler (Demo.env Demo.fine) "L"
              [ {| in_set_active := None; in_receive := Ok (PList []) |} ]
              Demo.registered) =
    Raise {| exn_cls := TypeError; exn_msg := "argument after ** must be a mapping" |}.
Proof.
  refine (proj1 (proj2
    (handler_swallows_a_lost_connection unit (Demo.env Demo.fine) "L"
       [ {| in_set_active := None; in_receive := Ok (PList []) |} ] Demo.registered
       {| exn_cls := TypeError; exn_msg := "argument after ** must be a mapping" |} _))).
  reflexivity.
Defined.

(** X17 at a run in which nothing raises. *)
Lemma full_trigger_notifies_after_refresh_witness :
  completed "disk" (UpdateThread_run More.nothing_fails More.nothing_fails [2; 0; 0]).1.
Proof.
  refine (proj1 (proj2
    (full_trigger_notifies_after_refresh More.nothing_fails More.nothing_fails [2; 0; 0]))
    _ "disk" _).
  - reflexivity.
  - simpl. tauto.
Defined.

(** X18 at a frequent trigger whose notification raises for cpu. *)
Lemma callback_failure_aborts_trigger_witness :
  exists a e',
    (UpdateFrequentThread_run More.nothing_fails More.cpu_fails [1; 0; 0; 0; 0; 1]).2
      = Raise e'
    /\ In (Raised a e')
          (UpdateFrequentThread_run More.nothing_fails More.cpu_fails [1; 0; 0; 0; 0; 1]).1.
Proof.
  refine (proj1 (proj2
    (callback_failure_aborts_trigger More.nothing_fails More.cpu_fails [1; 0; 0; 0; 0; 1]
       "cpu" {| exn_cls := ConnectionError; exn_msg := "closed" |} _) _)).
  - reflexivity.
  - simpl. tauto.
Defined.

(** X19 at the first event of a full trigger. *)
Lemma triggers_keep_to_their_categories_witness :
  In (event_name (Starts (update_all_data "system"))) _classes.
Proof.
  refine (proj1
    (triggers_keep_to_their_categories More.nothing_fails More.nothing_fails [2; 0; 0] [])
    (Starts (update_all_data "system")) _).
  vm_compute. tauto.
Defined.

(** X20 at the full trigger. *)
Lemma trigger_without_failure_completes_witness :
  (UpdateThread_run More.nothing_fails More.nothing_fails [2; 0; 0]).2 = Ok tt.
Proof.
  refine (proj1 (proj1
    (trigger_without_failure_completes More.nothing_fails More.nothing_fails [2; 0; 0]) _)).
  intros n Hn. split; reflexivity.
Defined.

(** X21 at the temperatures of two cores. *)
Lemma sensor_rows_follow_the_readings_witness :
  (SensorsUpdate.update_temperatures SensorsUpdate.accepts SensorsUpdate.two_cores tt).1.2 =
    [ SensorsUpdate.row "temperatures" "coretemp" "label" (PStr "Core 0");
      SensorsUpdate.row "temperatures" "coretemp" "current" (PInt 41);
      SensorsUpdate.row "temperatures" "coretemp" "label" (PStr "Core 1");
      SensorsUpdate.row "temperatures" "coretemp" "current" (PInt 43) ].
Proof.
  refine (proj1 (proj2 (proj2
    (sensor_rows_follow_the_readings unit SensorsUpdate.accepts SensorsUpdate.two_cores tt)))
    _).
  reflexivity.
Defined.

(** X22 at a fan and a core. *)
Lemma sensor_rows_have_their_own_keys_witness :
  SensorsUpdate.key (SensorsUpdate.row "fans" "thinkpad" "label" (PStr "")) <>
  SensorsUpdate.key (SensorsUpdate.row "temperatures" "coretemp" "label" (PStr "Core 0")).
Proof.
  refine (proj2
    (sensor_rows_have_their_own_keys
       [("thinkpad", [ [("label", PStr ""); ("current", PInt 2900)] ])]
       [("coretemp", [ [("label", PStr "Core 0"); ("current", PInt 41)] ])]
       (SensorsUpdate.row "fans" "thinkpad" "label" (PStr ""))
       (SensorsUpdate.row "temperatures" "coretemp" "label" (PStr "Core 0"))) _ _).
  - simpl. tauto.
  - simpl. tauto.
Defined.

(** X23 at the temperatures of two cores: both labels are written under
    the key of the sensor. *)
Lemma readings_of_one_hardware_share_keys_witness :
  exists rows1 rows2 rows3 r r',
    SensorsUpdate.rows_of "temperatures"
      [("coretemp", [ [("label", PStr "Core 0"); ("current", PInt 41)];
                      [("label", PStr "Core 1"); ("current", PInt 43)] ])] =
      rows1 ++ r :: rows2 ++ r' :: rows3
    /\ SensorsUpdate.key r = SensorsUpdate.key r'
    /\ SensorsUpdate.value r = PStr "Core 0" /\ SensorsUpdate.value r' = PStr "Core 1".
Proof.
  refine (readings_of_one_hardware_share_keys "temperatures" "coretemp" "label"
            [("coretemp", [ [("label", PStr "Core 0"); ("current", PInt 41)];
                            [("label", PStr "Core 1"); ("current", PInt 43)] ])]
            [] [] [] [("label", PStr "Core 0"); ("current", PInt 41)]
            [("label", PStr "Core 1"); ("current", PInt 43)]
            (PStr "Core 0") (PStr "Core 1") _ _ _).
  - simpl. tauto.
  - simpl. tauto.
  - simpl. tauto.
Defined.

(** X25 at a get-settings request followed by an exit-application
    request. *)
Lemma authenticated_request_is_dispatched_witness :
  o_trace (_handler (Demo.env Demo.fine) "L"
             [Demo.message (Samples.envelope "4" TYPE_GET_SETTINGS "K" []);
              Demo.message (Samples.envelope "5" TYPE_EXIT_APPLICATION "K" [])]
             (Demo.world true)) =
    [Called receive_json (Ok (PDict (Samples.envelope "4" TYPE_GET_SETTINGS "K" [])));
     Called settings_get_secret (Ok (PStr "K"))]
    ++ [Called settings_get_all (Ok PNone);
        Called (send_json (reply (Some "4") TYPE_SETTINGS_RESULT (Some "Got settings")
                             [(EVENT_DATA, PNone)])) (Ok PNone)]
    ++ o_trace (_handler (Demo.env Demo.fine) "L"
                  [Demo.message (Samples.envelope "5" TYPE_EXIT_APPLICATION "K" [])]
                  (Demo.world true)).
Proof.
  refine (proj1
    (authenticated_request_is_dispatched unit (Demo.env Demo.fine) "L"
       (Demo.message (Samples.envelope "4" TYPE_GET_SETTINGS "K" []))
       [Demo.message (Samples.envelope "5" TYPE_EXIT_APPLICATION "K" [])]
       (Demo.world true)
       (Samples.envelope "4" TYPE_GET_SETTINGS "K" [])
       (Demo.request "4" TYPE_GET_SETTINGS) "K" tt (Demo.world true)
       [Called settings_get_all (Ok PNone);
        Called (send_json (reply (Some "4") TYPE_SETTINGS_RESULT (Some "Got settings")
                             [(EVENT_DATA, PNone)])) (Ok PNone)]
       _ _ _ _ _ _ _)).
  - reflexivity.
  - discriminate.
  - reflexivity.
  - reflexivity.
  - reflexivity.
  - reflexivity.
  - reflexivity.
Defined.
